(** * Gherkin-tracker: the scanner and report model of [GV8.py]

    A shallow embedding of [TestReport] and [GherkinChecker.process_file],
    and the properties of the specification checked against it.

    Conventions of the embedding:
    - a Python [str] is a [string]; a character is a code point below 256
      (the classification of whitespace, word characters and lower-casing
      follows Python's Unicode tables on that range);
    - a Python [int] is a [Z];
    - a [dict] is a [gmap], a [set] a [gset]; iterating a set visits
      [elements] of it (Python leaves that order unspecified);
    - [report.add_issue] appends to the issue list; each block of the scan
      loop returns the issues it adds, in the order of its [add_issue] calls. *)

From Stdlib Require Import String Ascii List ZArith Lia Bool DecimalString.
From stdpp Require Import base gmap sets list strings.
Import ListNotations.

Local Open Scope Z_scope.

(** ** Characters and strings *)

Module Str.

Definition dquote : ascii := ascii_of_nat 34.
Definition squote : ascii := ascii_of_nat 39.
Definition DQ : string := String dquote EmptyString.
Definition SQ : string := String squote EmptyString.

(** [str(n)] for an [int]. *)
Definition str_of_int (n : Z) : string := NilZero.string_of_int (Z.to_int n).

(** [c.isspace()] on code points below 256. *)
Definition isspace (c : ascii) : bool :=
  let n := nat_of_ascii c in
  ((9 <=? n) && (n <=? 13) || (28 <=? n) && (n <=? 32)
   || (n =? 133) || (n =? 160))%nat.

(** A character matched by [\w] in a [str] pattern: alphanumeric or
    underscore. *)
Definition isword (c : ascii) : bool :=
  let n := nat_of_ascii c in
  ((48 <=? n) && (n <=? 57) || (65 <=? n) && (n <=? 90)
   || (97 <=? n) && (n <=? 122) || (n =? 95)
   || (n =? 170) || (n =? 178) || (n =? 179) || (n =? 181)
   || (n =? 185) || (n =? 186) || (188 <=? n) && (n <=? 190)
   || (192 <=? n) && (n <=? 214) || (216 <=? n) && (n <=? 246)
   || (248 <=? n))%nat.

Definition lower_char (c : ascii) : ascii :=
  let n := nat_of_ascii c in
  if ((65 <=? n) && (n <=? 90)
      || (192 <=? n) && (n <=? 222) && negb (n =? 215))%nat
  then ascii_of_nat (n + 32) else c.

(** [s.lower()]. *)
Fixpoint lower (s : string) : string :=
  match s with
  | EmptyString => EmptyString
  | String c r => String (lower_char c) (lower r)
  end.

Fixpoint drop (n : nat) (s : string) : string :=
  match n, s with
  | S k, String _ r => drop k r
  | _, _ => s
  end.

(** [s.startswith(p)]. *)
Fixpoint startswith (s p : string) {struct p} : bool :=
  match p with
  | EmptyString => true
  | String a p' =>
      match s with
      | EmptyString => false
      | String b s' => Ascii.eqb b a && startswith s' p'
      end
  end.

(** [s.endswith(p)]. *)
Definition endswith (s p : string) : bool :=
  String.eqb (drop (String.length s - String.length p) s) p.

(** [p in s]. *)
Fixpoint contains (s p : string) : bool :=
  startswith s p ||
  match s with
  | EmptyString => false
  | String _ r => contains r p
  end.

Fixpoint mem_char (c : ascii) (cs : string) : bool :=
  match cs with
  | EmptyString => false
  | String d r => Ascii.eqb c d || mem_char c r
  end.

Fixpoint lstrip_by (f : ascii -> bool) (s : string) : string :=
  match s with
  | EmptyString => EmptyString
  | String c r => if f c then lstrip_by f r else s
  end.

(** Drops the trailing characters satisfying [f]: the result of the tail
    is empty exactly when the whole tail is dropped. *)
Fixpoint rstrip_by (f : ascii -> bool) (s : string) : string :=
  match s with
  | EmptyString => EmptyString
  | String c r =>
      match rstrip_by f r with
      | EmptyString => if f c then EmptyString else String c EmptyString
      | r' => String c r'
      end
  end.

Definition strip_by (f : ascii -> bool) (s : string) : string :=
  rstrip_by f (lstrip_by f s).

(** [s.strip()]. *)
Definition strip (s : string) : string := strip_by isspace s.

(** [s.strip(chars)]. *)
Definition strip_chars (chars s : string) : string :=
  strip_by (fun c => mem_char c chars) s.

(** [s.split(sep)] for a one-character separator: never empty. *)
Fixpoint split (sep : ascii) (s : string) : list string :=
  match s with
  | EmptyString => [EmptyString]
  | String c r =>
      if Ascii.eqb c sep then EmptyString :: split sep r
      else match split sep r with
           | p :: ps => String c p :: ps
           | [] => [String c EmptyString]
           end
  end.

(** [l[1:-1]]. *)
Definition slice_1_m1 {A} (l : list A) : list A :=
  removelast (List.tail l).

(** [s.replace(c, empty)] for a one-character [c]. *)
Fixpoint remove_char (c : ascii) (s : string) : string :=
  match s with
  | EmptyString => EmptyString
  | String d r => if Ascii.eqb d c then remove_char c r
                  else String d (remove_char c r)
  end.

(** [sep.join(l)]. *)
Fixpoint join (sep : string) (l : list string) : string :=
  match l with
  | [] => EmptyString
  | [x] => x
  | x :: r => x +:+ sep +:+ join sep r
  end.

(** The character [c] repeated [n] times. *)
Fixpoint repeat_char (c : ascii) (n : nat) : string :=
  match n with
  | O => EmptyString
  | S k => String c (repeat_char c k)
  end.

Fixpoint take (n : nat) (s : string) : string :=
  match n, s with
  | S k, String c r => String c (take k r)
  | _, _ => EmptyString
  end.

(** Length of the longest prefix of [s] whose characters satisfy [f]. *)
Fixpoint run (f : ascii -> bool) (s : string) : nat :=
  match s with
  | String c r => if f c then S (run f r) else O
  | EmptyString => O
  end.

End Str.

(** ** The regular expressions of [GherkinChecker.__init__]

    A pattern is embedded as a matcher giving the length of its match at
    the start of a string, if there is one.  None of the patterns matches
    the empty string. *)

Module Re.
Import Str.

Definition matcher := string -> option nat.

(** [pattern.findall(s)]: the leftmost matches, none overlapping.  [skip]
    counts the characters of the current match still to pass over. *)
Fixpoint findall_from (m : matcher) (skip : nat) (s : string) : list string :=
  match s with
  | EmptyString => []
  | String _ r =>
      match skip with
      | S k => findall_from m k r
      | O =>
          match m s with
          | Some (S len) => take (S len) s :: findall_from m len r
          | _ => findall_from m O r
          end
      end
  end.

Definition findall (m : matcher) (s : string) : list string :=
  findall_from m O s.

(** [pattern.sub(empty, s)]: [s] without the matches. *)
Fixpoint sub_from (m : matcher) (skip : nat) (s : string) : string :=
  match s with
  | EmptyString => EmptyString
  | String c r =>
      match skip with
      | S k => sub_from m k r
      | O =>
          match m s with
          | Some (S len) => sub_from m len r
          | _ => String c (sub_from m O r)
          end
      end
  end.

Definition sub_empty (m : matcher) (s : string) : string := sub_from m O s.

Definition not_char (q c : ascii) : bool := negb (Ascii.eqb c q).

(** [q[^q]*q]: an opening [q], the characters up to the next [q], and it. *)
Definition quoted (q : ascii) : matcher := fun s =>
  match s with
  | String c r =>
      if Ascii.eqb c q then
        let n := run (not_char q) r in
        match drop n r with
        | String _ _ => Some (n + 2)%nat
        | EmptyString => None
        end
      else None
  | EmptyString => None
  end.

(** [placeholder_pattern]: an opening angle bracket, a double quote, one
    or more characters other than a double quote, a double quote and a
    closing angle bracket. *)
Definition placeholder_pattern : matcher := fun s =>
  match s with
  | String "<" (String c r) =>
      if Ascii.eqb c dquote then
        let n := run (not_char dquote) r in
        match n, drop n r with
        | S _, String _ (String ">" _) => Some (n + 4)%nat
        | _, _ => None
        end
      else None
  | _ => None
  end.

(** [fixed_value_pattern]: a span between two double quotes. *)
Definition fixed_value_pattern : matcher := quoted dquote.

(** [bad_placeholder_pattern]: a span between two single quotes. *)
Definition bad_placeholder_pattern : matcher := quoted squote.

(** [word_pattern], [\b\w+\b].  [findall] tries it only at the start of
    the text or after a character that is not a word character, where the
    leading [\b] holds as soon as a word character follows; the run of
    word characters is taken whole, so the closing [\b] holds too. *)
Definition word_pattern : matcher := fun s =>
  match run isword s with
  | O => None
  | n => Some n
  end.

End Re.



(** ** Exceptions *)

Inductive exn : Type :=
| ValueError (msg : string)
| KeyError (key : string).

Inductive result (A : Type) : Type :=
| Return (a : A)
| Raise (e : exn).
Arguments Return {A} a.
Arguments Raise {A} e.

#[export] Instance result_ret : MRet result := fun A a => Return a.
#[export] Instance result_bind : MBind result := fun A B k m =>
  match m with
  | Return a => k a
  | Raise e => Raise e
  end.

(** [d[key]] on a dict. *)
Definition getitem {V} (d : gmap string V) (key : string) : result V :=
  match d !! key with
  | Some v => Return v
  | None => Raise (KeyError key)
  end.

(** ** [class TestReport] *)

Module TestReport.
Import Str.

(** An issue is the tuple [(issue_type, description, line_num)]. *)
Record Issue : Type := mkIssue {
  issue_type : string;
  description : string;
  line_num : Z
}.

(** A misspelling is the tuple [(word, line_num, suggestions)]. *)
Record Misspelled : Type := mkMisspelled {
  word : string;
  word_line : Z;
  suggestions : list string
}.

Record Stats : Type := mkStats {
  total_lines : Z;
  scenarios : Z;
  steps : Z;
  total_iterations : Z
}.

Record t : Type := mkReport {
  issues : list Issue;
  misspelled_words : list Misspelled;
  stats : Stats;
  timestamp : string;
  filename : string;
  feature_type : string;
  enabled_checks : gmap string bool
}.

Definition default_checks : gmap string bool :=
  list_to_map
    [("syntax", true); ("misspelled", true); ("placeholder_mismatch", true);
     ("placeholder_order", true); ("invalid_placeholder", true);
     ("repeated_word", true); ("drive_cycle", true);
     ("success_criteria", true); ("duplicate_scenario", true)].

(** [__init__]; [now] is what [time.strftime] returns.  [enabled_checks or
    defaults] takes the defaults for [None] and for an empty dict. *)
Definition init (now : string) (checks : option (gmap string bool)) : t :=
  {| issues := [];
     misspelled_words := [];
     stats := mkStats 0 0 0 0;
     timestamp := now;
     filename := EmptyString;
     feature_type := "standard";
     enabled_checks :=
       match checks with
       | Some d => if decide (d = ∅) then default_checks else d
       | None => default_checks
       end |}.

Definition add_issue (ty desc : string) (ln : Z) (r : t) : t :=
  {| issues := issues r ++ [mkIssue ty desc ln];
     misspelled_words := misspelled_words r;
     stats := stats r; timestamp := timestamp r; filename := filename r;
     feature_type := feature_type r; enabled_checks := enabled_checks r |}.

Definition add_misspelled (w : string) (ln : Z) (sugg : list string) (r : t) : t :=
  {| issues := issues r;
     misspelled_words := misspelled_words r ++ [mkMisspelled w ln sugg];
     stats := stats r; timestamp := timestamp r; filename := filename r;
     feature_type := feature_type r; enabled_checks := enabled_checks r |}.

Definition update_stats (tl sc st ti : Z) (r : t) : t :=
  {| issues := issues r; misspelled_words := misspelled_words r;
     stats := mkStats tl sc st ti;
     timestamp := timestamp r; filename := filename r;
     feature_type := feature_type r; enabled_checks := enabled_checks r |}.

Definition set_filename (f : string) (r : t) : t :=
  {| issues := issues r; misspelled_words := misspelled_words r;
     stats := stats r; timestamp := timestamp r; filename := f;
     feature_type := feature_type r; enabled_checks := enabled_checks r |}.

Definition set_feature_type (ft : string) (r : t) : t :=
  {| issues := issues r; misspelled_words := misspelled_words r;
     stats := stats r; timestamp := timestamp r; filename := filename r;
     feature_type := ft; enabled_checks := enabled_checks r |}.

(** The calls of [add_issue], in order. *)
Definition add_issues (l : list Issue) (r : t) : t :=
  fold_left (fun r i => add_issue (issue_type i) (description i) (line_num i) r) l r.

Definition add_misspellings (l : list Misspelled) (r : t) : t :=
  fold_left (fun r m => add_misspelled (word m) (word_line m) (suggestions m) r) l r.

(** [[i for i in self.issues if i[0] == ty]]. *)
Definition of_type (ty : string) (r : t) : list Issue :=
  List.filter (fun i => String.eqb (issue_type i) ty) (issues r).

(** [[i for i in self.issues if i[0] == "Syntax Error" and tag in i[1]]]. *)
Definition syntax_with (tag : string) (r : t) : list Issue :=
  List.filter
    (fun i => String.eqb (issue_type i) "Syntax Error" && contains (description i) tag)
    (issues r).

Definition len {A} (l : list A) : Z := Z.of_nat (length l).

Definition get_total_errors (r : t) : result Z :=
  let total := 0 in
  c ← getitem (enabled_checks r) "misspelled";
  let total := if c : bool then total + len (misspelled_words r) else total in
  c ← getitem (enabled_checks r) "syntax";
  let total := if c : bool then total + len (of_type "Syntax Error" r) else total in
  c ← getitem (enabled_checks r) "placeholder_mismatch";
  let total := if c : bool then total + len (of_type "Placeholder Mismatch" r) else total in
  c ← getitem (enabled_checks r) "placeholder_order";
  let total := if c : bool then total + len (of_type "Placeholder Order" r) else total in
  c ← getitem (enabled_checks r) "invalid_placeholder";
  let total := if c : bool then total + len (of_type "Invalid Placeholder Syntax" r) else total in
  c ← getitem (enabled_checks r) "repeated_word";
  let total := if c : bool then total + len (of_type "Repeated Word" r) else total in
  c ← getitem (enabled_checks r) "drive_cycle";
  let total :=
    if (c : bool) && String.eqb (feature_type r) "drive_cycle"
    then total + len (syntax_with "Drive Cycle" r) else total in
  c ← getitem (enabled_checks r) "success_criteria";
  let total :=
    if (c : bool) && String.eqb (feature_type r) "success_criteria"
    then total + len (syntax_with "Success Criteria" r) else total in
  c ← getitem (enabled_checks r) "duplicate_scenario";
  let total := if c : bool then total + len (of_type "Duplicate Scenario" r) else total in
  Return total.

(** *** [generate_report] *)

Definition NL : string := String (ascii_of_nat 10) EmptyString.

Definition issue_line (i : Issue) : string :=
  " - Line " +:+ str_of_int (line_num i) +:+ ": " +:+ description i.

Definition misspelled_line (m : Misspelled) : string :=
  " - Line " +:+ str_of_int (word_line m) +:+ ": " +:+ SQ +:+ word m +:+ SQ
  +:+ " [Suggestions: " +:+ join ", " (suggestions m) +:+ "]".

(** One section of the text report: its heading, then [None found] or one
    line per entry, then a blank line. *)
Definition section (heading : string) (entries : list string) : string :=
  heading +:+ NL
  +:+ (match entries with
      | [] => " - None found" +:+ NL
      | _ => join NL entries
      end)
  +:+ NL +:+ NL.

Definition text_report (r : t) : result string :=
  total_errors ← get_total_errors r;
  let content :=
    "Gherkin Feature File Analysis Report" +:+ NL
    +:+ "Generated: " +:+ timestamp r +:+ NL
    +:+ "Analyzed File: " +:+ filename r +:+ NL
    +:+ "Total Errors Found: " +:+ str_of_int total_errors +:+ NL
    +:+ repeat_char "-" 50 +:+ NL +:+ NL in
  c ← getitem (enabled_checks r) "misspelled";
  let content :=
    if c : bool then
      content +:+ section "Misspelled Words:" (map misspelled_line (misspelled_words r))
    else content in
  c ← getitem (enabled_checks r) "syntax";
  let content :=
    if c : bool then
      content +:+ section "Syntax Errors:" (map issue_line (of_type "Syntax Error" r))
    else content in
  c ← getitem (enabled_checks r) "placeholder_mismatch";
  let content :=
    if c : bool then
      content +:+ section "Placeholder Mismatch Check:"
                   (map issue_line (of_type "Placeholder Mismatch" r))
    else content in
  c ← getitem (enabled_checks r) "placeholder_order";
  let content :=
    if c : bool then
      content +:+ section "Placeholder Order Check:"
                   (map issue_line (of_type "Placeholder Order" r))
    else content in
  c ← getitem (enabled_checks r) "invalid_placeholder";
  let content :=
    if c : bool then
      content +:+ section "Invalid Placeholder Syntax Check:"
                   (map issue_line (of_type "Invalid Placeholder Syntax" r))
    else content in
  c ← getitem (enabled_checks r) "repeated_word";
  let content :=
    if c : bool then
      content +:+ section "Repeated Word Check:"
                   (map issue_line (of_type "Repeated Word" r))
    else content in
  c ← getitem (enabled_checks r) "drive_cycle";
  let content :=
    if (c : bool) && String.eqb (feature_type r) "drive_cycle" then
      content +:+ section "Drive Cycle Format Check:"
                   (map issue_line (syntax_with "Drive Cycle" r))
    else content in
  c ← getitem (enabled_checks r) "success_criteria";
  let content :=
    if (c : bool) && String.eqb (feature_type r) "success_criteria" then
      content +:+ section "Success Criteria Format Check:"
                   (map issue_line (syntax_with "Success Criteria" r))
    else content in
  c ← getitem (enabled_checks r) "duplicate_scenario";
  let content :=
    if c : bool then
      content +:+ section "Duplicate Scenario Check:"
                   (map issue_line (of_type "Duplicate Scenario" r))
    else content in
  mret (content
        +:+ "File Statistics:" +:+ NL
        +:+ " - Total Lines: " +:+ str_of_int (total_lines (stats r)) +:+ NL
        +:+ " - Scenarios: " +:+ str_of_int (scenarios (stats r)) +:+ NL
        +:+ " - Steps: " +:+ str_of_int (steps (stats r)) +:+ NL
        +:+ " - Total Iterations in Examples: "
        +:+ str_of_int (total_iterations (stats r)) +:+ NL).

(** The dict [{line, description}] of the structured report. *)
Record JsonIssue : Type := mkJsonIssue {
  j_line : Z;
  j_description : string
}.

Record JsonReport : Type := mkJsonReport {
  json_timestamp : string;
  json_filename : string;
  json_total_errors : Z;
  json_misspelled_words : list Misspelled;
  json_syntax_errors : list JsonIssue;
  json_placeholder_mismatches : list JsonIssue;
  json_placeholder_orders : list JsonIssue;
  json_invalid_placeholders : list JsonIssue;
  json_repeated_words : list JsonIssue;
  json_drive_cycle_errors : list JsonIssue;
  json_success_criteria_errors : list JsonIssue;
  json_duplicate_scenarios : list JsonIssue;
  json_stats : Stats
}.

Definition json_issue (i : Issue) : JsonIssue :=
  mkJsonIssue (line_num i) (description i).

Definition json_report (r : t) : result JsonReport :=
  total_errors ← get_total_errors r;
  c1 ← getitem (enabled_checks r) "misspelled";
  c2 ← getitem (enabled_checks r) "syntax";
  c3 ← getitem (enabled_checks r) "placeholder_mismatch";
  c4 ← getitem (enabled_checks r) "placeholder_order";
  c5 ← getitem (enabled_checks r) "invalid_placeholder";
  c6 ← getitem (enabled_checks r) "repeated_word";
  c7 ← getitem (enabled_checks r) "drive_cycle";
  c8 ← getitem (enabled_checks r) "success_criteria";
  c9 ← getitem (enabled_checks r) "duplicate_scenario";
  mret {|
    json_timestamp := timestamp r;
    json_filename := filename r;
    json_total_errors := total_errors;
    json_misspelled_words := if c1 : bool then misspelled_words r else [];
    json_syntax_errors :=
      if c2 : bool then map json_issue (of_type "Syntax Error" r) else [];
    json_placeholder_mismatches :=
      if c3 : bool then map json_issue (of_type "Placeholder Mismatch" r) else [];
    json_placeholder_orders :=
      if c4 : bool then map json_issue (of_type "Placeholder Order" r) else [];
    json_invalid_placeholders :=
      if c5 : bool then map json_issue (of_type "Invalid Placeholder Syntax" r) else [];
    json_repeated_words :=
      if c6 : bool then map json_issue (of_type "Repeated Word" r) else [];
    json_drive_cycle_errors :=
      if (c7 : bool) && String.eqb (feature_type r) "drive_cycle"
      then map json_issue (syntax_with "Drive Cycle" r) else [];
    json_success_criteria_errors :=
      if (c8 : bool) && String.eqb (feature_type r) "success_criteria"
      then map json_issue (syntax_with "Success Criteria" r) else [];
    json_duplicate_scenarios :=
      if c9 : bool then map json_issue (of_type "Duplicate Scenario" r) else [];
    json_stats := stats r |}.

Inductive output : Type :=
| Text (content : string)
| Json (obj : JsonReport).

(** [generate_report(format)].  The method reads the report and assigns
    to none of its attributes, hence a function of the report alone. *)
Definition generate_report (fmt : string) (r : t) : result output :=
  if String.eqb fmt "text" then content ← text_report r; mret (Text content)
  else if String.eqb fmt "json" then obj ← json_report r; mret (Json obj)
  else Raise (ValueError ("Unsupported report format: " +:+ fmt)).

End TestReport.


(** ** [class GherkinChecker] *)

Module GherkinChecker.
Import Str Re TestReport.

(** The spellchecking capability, an [enchant.Dict]. *)
Record Dict : Type := mkDict {
  check : string -> bool;
  suggest : string -> list string
}.

Record t : Type := mkChecker {
  spellchecker : option Dict;
  spell_cache : gmap string (list string);
  custom_words : gset string;
  feature_type : string;
  spellcheck_enabled : bool
}.

(** [__init__]; [enchant_dict] is [enchant.Dict(spellcheck_language)] when
    the module is available, and [None] when it is not.  The feature type
    is stored as it comes. *)
Definition init (enchant_dict : option Dict) (spellchecker : option Dict)
    (spell_cache : option (gmap string (list string)))
    (custom_words : option (gset string))
    (feature_type : string) (spellcheck_enabled : bool) : t :=
  {| spellchecker :=
       match spellchecker with Some d => Some d | None => enchant_dict end;
     spell_cache := default ∅ spell_cache;
     custom_words := default ∅ custom_words;
     feature_type := feature_type;
     spellcheck_enabled := spellcheck_enabled |}.

Definition keywords : list string :=
  ["Feature"; "Scenario"; "Given"; "When"; "Then"; "And"; "But";
   "Background"; "Examples"; "Scenario Outline"].

Definition is_keyword (w : string) : bool :=
  existsb (String.eqb w) keywords.

Definition step_keywords : list string :=
  ["Given"; "When"; "Then"; "And"; "But"].

(** The local variables of [process_file]. *)
Record Locals : Type := mkLocals {
  scenarios : Z;
  steps : Z;
  total_iterations : Z;
  scenario_dict : gmap string Z;
  current_scenario : option string;
  current_steps : list string;
  in_examples : bool;
  examples_headers : option (list string);
  scenario_start_line : Z;
  has_feature : bool;
  given_count : Z;
  when_count : Z;
  then_count : Z;
  and_count : Z
}.

Definition initial : Locals :=
  {| scenarios := 0; steps := 0; total_iterations := 0;
     scenario_dict := ∅; current_scenario := None; current_steps := [];
     in_examples := false; examples_headers := None;
     scenario_start_line := 0; has_feature := false;
     given_count := 0; when_count := 0; then_count := 0; and_count := 0 |}.

(** Truth value of [current_scenario]: neither [None] nor empty. *)
Definition truthy_str (o : option string) : bool :=
  match o with
  | Some (String _ _) => true
  | _ => false
  end.

(** Truth value of [examples_headers]: neither [None] nor empty. *)
Definition truthy_list {A} (o : option (list A)) : bool :=
  match o with
  | Some (_ :: _) => true
  | _ => false
  end.

Definition syntax_error (desc : string) (ln : Z) : Issue :=
  mkIssue "Syntax Error" desc ln.

(** The two checks of the Success Criteria format on a finished scenario. *)
Definition success_criteria_check (l : Locals) : list Issue :=
  (if negb (given_count l =? 1) then
     [syntax_error ("Success Criteria must have exactly 1 Given, found "
                    +:+ str_of_int (given_count l)) (scenario_start_line l)]
   else [])
  ++
  (if negb (when_count l =? 1) then
     [syntax_error ("Success Criteria must have exactly 1 When, found "
                    +:+ str_of_int (when_count l)) (scenario_start_line l)]
   else []).

(** [ph.strip('<>').strip(dquote)]. *)
Definition placeholder_name (ph : string) : string :=
  strip_chars DQ (strip_chars "<>" ph).

(** [next((idx for idx, step in enumerate(steps) if ph in step), -1)]. *)
Fixpoint step_index_from (idx : Z) (ph : string) (steps : list string) : Z :=
  match steps with
  | [] => -1
  | step :: rest =>
      if contains step ph then idx else step_index_from (idx + 1) ph rest
  end.

Definition step_index (ph : string) (steps : list string) : Z :=
  step_index_from 0 ph steps.

(** [step_index + scenario_start_line if step_index != -1 else i]. *)
Definition reported_line (ph : string) (l : Locals) (i : Z) : Z :=
  let idx := step_index ph (current_steps l) in
  if negb (idx =? -1) then idx + scenario_start_line l else i.

(** The placeholders of the buffered steps, in order, repeats kept. *)
Definition placeholders_used (steps : list string) : list string :=
  concat (map (findall placeholder_pattern) steps).

Definition mismatch_issue (ph : string) (l : Locals) (i : Z) : Issue :=
  mkIssue "Placeholder Mismatch"
    ("Placeholder " +:+ SQ +:+ ph +:+ SQ
     +:+ " does not match any column heading in the Examples table (case-sensitive)")
    (reported_line ph l i).

Definition order_issue (ph : string) (l : Locals) (i : Z) : Issue :=
  mkIssue "Placeholder Order"
    ("Placeholder " +:+ SQ +:+ ph +:+ SQ
     +:+ " used out of sequence relative to Examples table column headings")
    (reported_line ph l i).

(** The loop over [set(placeholders_used)]. *)
Definition mismatch_check (headers : list string) (l : Locals) (i : Z)
    : list Issue :=
  flat_map
    (fun ph =>
       if negb (bool_decide (placeholder_name ph ∈ headers))
       then [mismatch_issue ph l i] else [])
    (elements (list_to_set (placeholders_used (current_steps l)) : gset string)).

(** [{h: idx for idx, h in enumerate(headers)}]: a later column of the
    same name replaces an earlier one. *)
Fixpoint header_order_from (idx : Z) (headers : list string)
    (d : gmap string Z) : gmap string Z :=
  match headers with
  | [] => d
  | h :: rest => header_order_from (idx + 1) rest (<[h := idx]> d)
  end.

Definition header_order (headers : list string) : gmap string Z :=
  header_order_from 0 headers ∅.

(** The loop over [placeholders_used], from [last_pos]. *)
Fixpoint order_walk (order : gmap string Z) (l : Locals) (i : Z)
    (last_pos : Z) (phs : list string) : list Issue :=
  match phs with
  | [] => []
  | ph :: rest =>
      let current_pos := default (-1) (order !! placeholder_name ph) in
      if current_pos =? -1 then order_walk order l i last_pos rest
      else
        (if current_pos <? last_pos then [order_issue ph l i] else [])
        ++ order_walk order l i (Z.max last_pos current_pos) rest
  end.

Definition order_check (headers : list string) (l : Locals) (i : Z)
    : list Issue :=
  match placeholders_used (current_steps l) with
  | [] => []
  | phs => order_walk (header_order headers) l i (-1) phs
  end.

(** [[h.strip() for h in line.split('|')[1:-1]]]. *)
Definition parse_headers (line : string) : list string :=
  map strip (slice_1_m1 (split "|" line)).

Definition set_has_feature (l : Locals) : Locals :=
  {| scenarios := scenarios l; steps := steps l;
     total_iterations := total_iterations l;
     scenario_dict := scenario_dict l;
     current_scenario := current_scenario l;
     current_steps := current_steps l; in_examples := in_examples l;
     examples_headers := examples_headers l;
     scenario_start_line := scenario_start_line l; has_feature := true;
     given_count := given_count l; when_count := when_count l;
     then_count := then_count l; and_count := and_count l |}.

(** The branch of a line starting with [Scenario]. *)
Definition on_scenario (ft : string) (i : Z) (line : string) (l : Locals)
    : Locals * list Issue :=
  let closing :=
    if truthy_str (current_scenario l) && String.eqb ft "success_criteria"
    then success_criteria_check l else [] in
  let before_feature :=
    if negb (has_feature l)
    then [syntax_error "Scenario found before Feature" i] else [] in
  let scenario_key := line in
  let '(dict, duplicate) :=
    match scenario_dict l !! scenario_key with
    | Some first =>
        (scenario_dict l,
         [mkIssue "Duplicate Scenario"
            ("Scenario identical to one at line " +:+ str_of_int first) i])
    | None => (<[scenario_key := i]> (scenario_dict l), [])
    end in
  ({| scenarios := scenarios l + 1; steps := steps l;
      total_iterations := total_iterations l;
      scenario_dict := dict;
      current_scenario := Some line;
      current_steps := []; in_examples := false;
      examples_headers := None;
      scenario_start_line := i; has_feature := has_feature l;
      given_count := 0; when_count := 0; then_count := 0; and_count := 0 |},
   closing ++ before_feature ++ duplicate).

(** The branch of a line starting with [Examples]. *)
Definition on_examples (i : Z) (l : Locals) : Locals * list Issue :=
  ({| scenarios := scenarios l; steps := steps l;
      total_iterations := total_iterations l;
      scenario_dict := scenario_dict l;
      current_scenario := current_scenario l;
      current_steps := current_steps l; in_examples := true;
      examples_headers := examples_headers l;
      scenario_start_line := scenario_start_line l;
      has_feature := has_feature l;
      given_count := given_count l; when_count := when_count l;
      then_count := then_count l; and_count := and_count l |},
   if negb (truthy_str (current_scenario l))
   then [syntax_error "Examples found outside a Scenario" i] else []).

(** The branch of a table row inside an Examples block. *)
Definition on_table_row (i : Z) (line : string) (l : Locals)
    : Locals * list Issue :=
  if negb (truthy_list (examples_headers l)) then
    let headers := parse_headers line in
    ({| scenarios := scenarios l; steps := steps l;
        total_iterations := total_iterations l;
        scenario_dict := scenario_dict l;
        current_scenario := current_scenario l;
        current_steps := current_steps l; in_examples := in_examples l;
        examples_headers := Some headers;
        scenario_start_line := scenario_start_line l;
        has_feature := has_feature l;
        given_count := given_count l; when_count := when_count l;
        then_count := then_count l; and_count := and_count l |},
     mismatch_check headers l i ++ order_check headers l i)
  else
    ({| scenarios := scenarios l; steps := steps l;
        total_iterations := total_iterations l + 1;
        scenario_dict := scenario_dict l;
        current_scenario := current_scenario l;
        current_steps := current_steps l; in_examples := in_examples l;
        examples_headers := examples_headers l;
        scenario_start_line := scenario_start_line l;
        has_feature := has_feature l;
        given_count := given_count l; when_count := when_count l;
        then_count := then_count l; and_count := and_count l |},
     []).

(** The branch of a step line. *)
Definition on_step (ft : string) (i : Z) (line : string) (l : Locals)
    : Locals * list Issue :=
  let outside :=
    if negb (truthy_str (current_scenario l))
    then [syntax_error "Step found outside a Scenario" i] else [] in
  let buffered :=
    if truthy_str (current_scenario l) && negb (in_examples l)
    then current_steps l ++ [line] else current_steps l in
  let is_given := startswith line "Given" in
  let is_when := negb is_given && startswith line "When" in
  let is_then := negb is_given && negb is_when && startswith line "Then" in
  let is_and :=
    negb is_given && negb is_when && negb is_then && startswith line "And" in
  let is_but :=
    negb is_given && negb is_when && negb is_then && negb is_and
    && startswith line "But" in
  let but :=
    if is_but then
      if String.eqb ft "drive_cycle"
      then [syntax_error "But not allowed in Drive Cycle format" i]
      else if String.eqb ft "success_criteria"
      then [syntax_error "But not allowed in Success Criteria format" i]
      else []
    else [] in
  ({| scenarios := scenarios l; steps := steps l + 1;
      total_iterations := total_iterations l;
      scenario_dict := scenario_dict l;
      current_scenario := current_scenario l;
      current_steps := buffered; in_examples := in_examples l;
      examples_headers := examples_headers l;
      scenario_start_line := scenario_start_line l;
      has_feature := has_feature l;
      given_count := if is_given then given_count l + 1 else given_count l;
      when_count := if is_when then when_count l + 1 else when_count l;
      then_count := if is_then then then_count l + 1 else then_count l;
      and_count := if is_and then and_count l + 1 else and_count l |},
   outside ++ but).

(** The [if]/[elif] chain on the kind of the line. *)
Definition classify (ft : string) (i : Z) (line : string) (l : Locals)
    : Locals * list Issue :=
  if startswith line "Feature" then (set_has_feature l, [])
  else if startswith line "Scenario" then on_scenario ft i line l
  else if startswith line "Examples" then on_examples i l
  else if in_examples l && startswith line "|" then on_table_row i line l
  else if existsb (startswith line) step_keywords then on_step ft i line l
  else (l, []).

(** The Drive Cycle check that follows the chain; [l] is the state the
    chain leaves, [total] is [len(lines)]. *)
Definition drive_cycle_check (ft : string) (total i : Z) (line : string)
    (l : Locals) : list Issue :=
  if ((i =? total)
      || (startswith line "Scenario" && truthy_str (current_scenario l)))
     && truthy_str (current_scenario l)
  then
    if String.eqb ft "drive_cycle" then
      (if when_count l >? 0
       then [syntax_error "When not allowed in Drive Cycle format"
               (scenario_start_line l)] else [])
      ++
      (if then_count l >? 0
       then [syntax_error "Then not allowed in Drive Cycle format"
               (scenario_start_line l)] else [])
    else []
  else [].

(** The issue, if any, of one span found by [bad_placeholder_pattern]. *)
Definition bad_placeholder_issue (i : Z) (bp : string) : list Issue :=
  let bp_clean := strip_chars SQ bp in
  if startswith bp SQ && endswith bp SQ then
    [mkIssue "Invalid Placeholder Syntax"
       ("Placeholder " +:+ SQ +:+ bp +:+ SQ
        +:+ " should use angle brackets with double quotes (e.g., <"
        +:+ DQ +:+ bp_clean +:+ DQ +:+ ">) instead of single quotes") i]
  else if startswith bp SQ && negb (endswith bp SQ) then
    [mkIssue "Invalid Placeholder Syntax"
       ("Placeholder " +:+ SQ +:+ bp +:+ SQ +:+ " is missing a closing quote") i]
  else if endswith bp SQ && negb (startswith bp SQ) then
    [mkIssue "Invalid Placeholder Syntax"
       ("Placeholder " +:+ SQ +:+ bp +:+ SQ +:+ " is missing an opening quote") i]
  else [].

Definition bad_placeholder_check (i : Z) (line : string) : list Issue :=
  flat_map (bad_placeholder_issue i) (findall bad_placeholder_pattern line).

(** The line without valid placeholders and fixed values. *)
Definition masked (line : string) : string :=
  sub_empty fixed_value_pattern (sub_empty placeholder_pattern line).

(** The set [words_to_check] of a line. *)
Definition words_to_check (line : string) : gset string :=
  list_to_set
    (map lower
       (List.filter (fun w => negb (is_keyword w))
          (findall word_pattern (remove_char squote (masked line))))).

(** One turn of the loop over [words_to_check], on the cache and the
    misspellings found so far. *)
Definition check_word (d : Dict) (custom : gset string) (i : Z)
    (acc : gmap string (list string) * list Misspelled) (w : string)
    : gmap string (list string) * list Misspelled :=
  let '(cache, found) := acc in
  match cache !! w with
  | Some cached =>
      match cached with
      | [] => (cache, found)
      | _ => (cache, found ++ [mkMisspelled w i cached])
      end
  | None =>
      if bool_decide (w ∈ custom) then (cache, found)
      else if negb (check d w) then
        let sugg := suggest d w in
        (<[w := sugg]> cache, found ++ [mkMisspelled w i sugg])
      else (<[w := []]> cache, found)
  end.

Definition spellcheck (self : t) (cache : gmap string (list string))
    (i : Z) (line : string) : gmap string (list string) * list Misspelled :=
  match spellchecker self with
  | Some d =>
      if spellcheck_enabled self && negb (startswith line "#") then
        fold_left (check_word d (custom_words self) i)
          (elements (words_to_check line)) (cache, [])
      else (cache, [])
  | None => (cache, [])
  end.

(** [for j in range(len(words) - 1)]: the adjacent pairs of [words]. *)
Fixpoint repeated_pairs (i : Z) (words : list string) : list Issue :=
  match words with
  | w :: ((w' :: _) as rest) =>
      (if String.eqb w w' && negb (is_keyword w)
       then [mkIssue "Repeated Word" ("Word " +:+ SQ +:+ w +:+ SQ +:+ " repeated") i]
       else [])
      ++ repeated_pairs i rest
  | _ => []
  end.

Definition repeated_check (i : Z) (line : string) (l : Locals) : list Issue :=
  if negb (in_examples l && startswith line "|") then
    repeated_pairs i (findall word_pattern (masked line))
  else [].

(** The state of the scan: the locals, the shared cache, the report. *)
Record Scan : Type := mkScan {
  locals : Locals;
  cache : gmap string (list string);
  report : TestReport.t
}.

(** The issues one line adds, and the locals it leaves. *)
Definition line_issues (ft : string) (total i : Z) (line : string)
    (l : Locals) : Locals * list Issue :=
  let '(l', chain) := classify ft i line l in
  (l', chain ++ drive_cycle_check ft total i line l'
       ++ bad_placeholder_check i line ++ repeated_check i line l').

(** The body of the loop over [enumerate(lines, 1)].  The repeated-word
    issues are added after the misspellings, which live in a list of
    their own. *)
Definition loop_body (self : t) (total : Z) (st : Scan) (i : Z)
    (raw : string) : Scan :=
  let line := strip raw in
  if String.eqb line EmptyString || startswith line "#" then st
  else
    let '(l', added) := line_issues (feature_type self) total i line (locals st) in
    let '(cache', missp) := spellcheck self (cache st) i line in
    {| locals := l'; cache := cache';
       report := add_misspellings missp (add_issues added (report st)) |}.

Fixpoint loop (self : t) (total : Z) (st : Scan) (i : Z)
    (lines : list string) : Scan :=
  match lines with
  | [] => st
  | raw :: rest => loop self total (loop_body self total st i raw) (i + 1) rest
  end.

(** What follows the loop. *)
Definition finish (ft : string) (l : Locals) : list Issue :=
  (if truthy_str (current_scenario l) && String.eqb ft "success_criteria"
   then success_criteria_check l else [])
  ++
  (if negb (has_feature l)
   then [syntax_error "No Feature keyword found in file" 1] else []).

(** The scan of the lines read from the file. *)
Definition scan (self : t) (file : string) (lines : list string)
    (rep : TestReport.t) : Scan :=
  let total := len lines in
  let st :=
    loop self total
      {| locals := initial; cache := spell_cache self;
         report := set_feature_type (feature_type self) rep |}
      1 lines in
  let l := locals st in
  {| locals := l; cache := cache st;
     report :=
       set_filename file
         (update_stats total (scenarios l) (steps l) (total_iterations l)
            (add_issues (finish (feature_type self) l) (report st))) |}.

(** [process_file(file, report)]: [content] is what reading the file
    gives, [None] when it cannot be opened or decoded.  Returns the
    boolean of the method, the checker with its cache as the scan leaves
    it, and the report. *)
Definition process_file (self : t) (file : string)
    (content : option (list string)) (rep : TestReport.t)
    : bool * t * TestReport.t :=
  match content with
  | None => (false, self, set_feature_type (feature_type self) rep)
  | Some lines =>
      let st := scan self file lines rep in
      (true,
       {| spellchecker := spellchecker self; spell_cache := cache st;
          custom_words := custom_words self;
          feature_type := feature_type self;
          spellcheck_enabled := spellcheck_enabled self |},
       report st)
  end.

End GherkinChecker.


(** ** [class GherkinCheckerApp]: the functions that compute

    The window, the network and the files are left out; what a function
    reads from them is an argument here. *)

Module App.
Import Str Re TestReport.

Definition is_upper (c : ascii) : bool :=
  let n := nat_of_ascii c in ((65 <=? n) && (n <=? 90))%nat.

(** A character matched by the digit class in a [str] pattern; below 256
    these are the ten ASCII digits. *)
Definition is_digit (c : ascii) : bool :=
  let n := nat_of_ascii c in ((48 <=? n) && (n <=? 57))%nat.

Definition LF : ascii := ascii_of_nat 10.
Definition CR : ascii := ascii_of_nat 13.

(** The pattern of [validate_issue_key] applied with [match]: capital
    letters, a hyphen, digits, up to the end of the string, which the
    dollar sign also finds before a last newline. *)
Definition issue_key_pattern (s : string) : bool :=
  let n := run is_upper s in
  match n, drop n s with
  | S _, String hyphen r =>
      if Ascii.eqb hyphen "-" then
        let d := run is_digit r in
        match d, drop d r with
        | S _, EmptyString => true
        | S _, String c EmptyString => Ascii.eqb c LF
        | _, _ => false
        end
      else false
  | _, _ => false
  end.

Definition validate_issue_key (issue_key : string) : result unit :=
  if issue_key_pattern issue_key then Return tt
  else Raise (ValueError ("Invalid issue key format: " +:+ issue_key
                          +:+ ". Expected format: PROJECT-123")).

Definition gherkin_keywords : list string :=
  ["Feature"; "Scenario"; "Given"; "When"; "Then"].

Definition validate_gherkin_content (content : string) : result unit :=
  if existsb (startswith (strip content)) gherkin_keywords then Return tt
  else Raise (ValueError
    "Content does not appear to be in Gherkin format (missing Feature, Scenario, Given, When, or Then).").

(** What fetching the issue and reading its field gives: the value of
    [customfield_10602] when it is a string ([None] when the field is
    missing or holds something else), or the exception raised, with its
    text. *)
Inductive fetch_outcome : Type :=
| Fetched (customfield_10602 : option string)
| JiraFailure (text : string)
| AttributeFailure (text : string)
| OtherFailure (text : string).

Definition no_permission : string :=
  "You do not have the permission to see the specified issue".

(** [export_to_cucumber(issue_key)].  The key is validated before the
    issue is fetched; a [ValueError] raised inside is raised again as it
    is, any other exception becomes a [ValueError]. *)
Definition export_to_cucumber (issue_key : string) (fetch : fetch_outcome)
    : result string :=
  _ ← validate_issue_key issue_key;
  match fetch with
  | JiraFailure text =>
      if contains text no_permission then
        Raise (ValueError
          ("Permission denied: You do not have access to view issue "
           +:+ issue_key
           +:+ ". Please contact your Jira administrator to grant access."))
      else Raise (ValueError ("Failed to fetch issue " +:+ issue_key
                              +:+ ": " +:+ text))
  | AttributeFailure text =>
      Raise (ValueError ("Error accessing fields for issue " +:+ issue_key
                         +:+ ": " +:+ text))
  | OtherFailure text => Raise (ValueError ("Unexpected error: " +:+ text))
  | Fetched field =>
      match field with
      | None | Some EmptyString =>
          Raise (ValueError
            ("No Gherkin content found in customfield_10602 for issue "
             +:+ issue_key))
      | Some gherkin_content =>
          _ ← validate_gherkin_content gherkin_content;
          if negb (startswith (strip gherkin_content) "Feature") then
            Return ("Feature: Gherkin Content for " +:+ issue_key +:+ NL
                    +:+ "  Scenario: Default Scenario" +:+ NL
                    +:+ gherkin_content)
          else Return gherkin_content
      end
  end.

(** A line boundary of [str.splitlines], below 256. *)
Definition is_linebreak (c : ascii) : bool :=
  let n := nat_of_ascii c in
  ((10 <=? n) && (n <=? 13) || (28 <=? n) && (n <=? 30) || (n =? 133))%nat.

(** [s.splitlines()]: a carriage return followed by a line feed is one
    boundary; a boundary that ends the string opens no further line. *)
Fixpoint splitlines (s : string) : list string :=
  match s with
  | EmptyString => []
  | String c r =>
      if is_linebreak c then
        EmptyString ::
        (if Ascii.eqb c CR then
           match r with
           | String c' r' => if Ascii.eqb c' LF then splitlines r' else splitlines r
           | EmptyString => []
           end
         else splitlines r)
      else
        match splitlines r with
        | first :: others => String c first :: others
        | [] => [String c EmptyString]
        end
  end.

(** The indentation chosen for a line without its leading blanks;
    [indent_level] is the one of the line before. *)
Definition indent_of (stripped_line : string) (indent_level : nat) : nat :=
  if startswith stripped_line "Feature" then 0%nat
  else if existsb (startswith stripped_line)
            ["Scenario"; "Scenario Outline"; "Background"] then 2%nat
  else if existsb (startswith stripped_line)
            ["Given"; "When"; "Then"; "And"; "But"] then 4%nat
  else if startswith stripped_line "Examples" then 4%nat
  else if startswith stripped_line "|" then 6%nat
  else indent_level.

(** The loop of [normalize_gherkin_content] over the lines. *)
Fixpoint normalize_lines (indent_level : nat) (lines : list string)
    : list string :=
  match lines with
  | [] => []
  | line :: rest =>
      let line := rstrip_by isspace line in
      match line with
      | EmptyString => EmptyString :: normalize_lines indent_level rest
      | _ =>
          let stripped_line := lstrip_by isspace line in
          match stripped_line with
          | EmptyString => normalize_lines indent_level rest
          | _ =>
              let indent_level := indent_of stripped_line indent_level in
              (repeat_char " " indent_level +:+ stripped_line)
              :: normalize_lines indent_level rest
          end
      end
  end.

Definition normalize_gherkin_content (content : string) : string :=
  join NL (normalize_lines 0 (splitlines content)).

(** The keys of [download_feature_files]:
    [[key.strip() for key in issue_keys.split(",") if key.strip()]]. *)
Definition split_issue_keys (issue_keys : string) : list string :=
  map strip
    (List.filter (fun key => negb (String.eqb (strip key) EmptyString))
       (split "," issue_keys)).

(** [update_feature_type]: [feature_type.lower().replace(" ", "_")]. *)
Fixpoint replace_char (a b : ascii) (s : string) : string :=
  match s with
  | EmptyString => EmptyString
  | String c r => String (if Ascii.eqb c a then b else c) (replace_char a b r)
  end.

Definition feature_tag (feature_type : string) : string :=
  replace_char " " "_" (lower feature_type).

Definition update_feature_type (feature_type : string)
    (checker : GherkinChecker.t) : GherkinChecker.t :=
  {| GherkinChecker.spellchecker := GherkinChecker.spellchecker checker;
     GherkinChecker.spell_cache := GherkinChecker.spell_cache checker;
     GherkinChecker.custom_words := GherkinChecker.custom_words checker;
     GherkinChecker.feature_type := feature_tag feature_type;
     GherkinChecker.spellcheck_enabled :=
       GherkinChecker.spellcheck_enabled checker |}.

(** A file of [run_checks]: its path, the time at which its report is
    created, and what reading it gives. *)
Record file_input : Type := mkFile {
  path : string;
  clock : string;
  content : option (list string)
}.

(** The first loop of [run_checks]: a fresh report for each file, kept
    when [process_file] returns true; the checker, with its cache, goes
    from one file to the next. *)
Fixpoint check_files (checker : GherkinChecker.t)
    (enabled_checks : gmap string bool) (files : list file_input)
    : GherkinChecker.t * list TestReport.t :=
  match files with
  | [] => (checker, [])
  | f :: rest =>
      let report := TestReport.init (clock f) (Some enabled_checks) in
      let '(success, checker', report') :=
        GherkinChecker.process_file checker (path f) (content f) report in
      let '(checker'', reports) := check_files checker' enabled_checks rest in
      (checker'', if success : bool then report' :: reports else reports)
  end.





End App.

(** ** The objects of a session

    [GherkinCheckerApp.__init__] creates the dict of suggestions and the
    set of custom words and hands them to [GherkinChecker.__init__]; the
    methods of both classes then update these objects in place.  The
    attributes therefore hold references into a heap, and two attributes
    may hold the same reference. *)

Module Session.
Import Str Re TestReport.

Record heap : Type := mkHeap {
  dicts : list (gmap string (list string));
  sets : list (gset string)
}.

Definition empty_heap : heap := mkHeap [] [].

(** A new dict, a new set: the reference and the heap that holds it. *)
Definition new_dict (d : gmap string (list string)) (h : heap) : nat * heap :=
  (length (dicts h), mkHeap (dicts h ++ [d]) (sets h)).

Definition new_set (s : gset string) (h : heap) : nat * heap :=
  (length (sets h), mkHeap (dicts h) (sets h ++ [s])).

Definition dict_at (h : heap) (r : nat) : gmap string (list string) :=
  default ∅ (dicts h !! r).

Definition set_at (h : heap) (r : nat) : gset string :=
  default ∅ (sets h !! r).

(** Updates in place, of an object the heap holds. *)
Definition write_dict (r : nat) (d : gmap string (list string)) (h : heap)
    : heap :=
  mkHeap (<[r := d]> (dicts h)) (sets h).

Definition write_set (r : nat) (s : gset string) (h : heap) : heap :=
  mkHeap (dicts h) (<[r := s]> (sets h)).

(** [spell_cache or {}] and [custom_words or set()]: an empty object is
    falsy, and a new one takes its place. *)
Definition dict_or_new (r : nat) (h : heap) : nat * heap :=
  if decide (dict_at h r = ∅) then new_dict ∅ h else (r, h).

Definition set_or_new (r : nat) (h : heap) : nat * heap :=
  if decide (set_at h r = ∅) then new_set ∅ h else (r, h).

(** The attributes of the application and of its checker that hold these
    objects, and the three settings of the checker. *)
Record t : Type := mkSession {
  objects : heap;
  spell_cache : nat;
  custom_words : nat;
  checker_spell_cache : nat;
  checker_custom_words : nat;
  spellchecker : option GherkinChecker.Dict;
  feature_type : string;
  spellcheck_enabled : bool
}.

(** What [load_spell_cache] finds: no file, a file that cannot be read or
    unpickled, or a pickled dict. *)
Inductive cache_file : Type :=
| NoCacheFile
| BrokenCacheFile
| CacheFile (d : gmap string (list string)).

(** [GherkinCheckerApp.__init__], up to the creation of the checker;
    [enchant_dict] is the dictionary of the language when the spellcheck
    is available. *)
Definition init (enchant_dict : option GherkinChecker.Dict)
    (file : cache_file) : t :=
  let h := empty_heap in
  let '(cache, h) := new_dict ∅ h in
  let '(cache, h) :=
    match file with
    | NoCacheFile => (cache, h)
    | BrokenCacheFile => new_dict ∅ h
    | CacheFile d => new_dict d h
    end in
  let '(words, h) := new_set ∅ h in
  let '(checker_cache, h) := dict_or_new cache h in
  let '(checker_words, h) := set_or_new words h in
  {| objects := h;
     spell_cache := cache;
     custom_words := words;
     checker_spell_cache := checker_cache;
     checker_custom_words := checker_words;
     spellchecker := enchant_dict;
     feature_type := "standard";
     spellcheck_enabled := true |}.

(** The checker as a scan sees it. *)
Definition checker (s : t) : GherkinChecker.t :=
  {| GherkinChecker.spellchecker := spellchecker s;
     GherkinChecker.spell_cache := dict_at (objects s) (checker_spell_cache s);
     GherkinChecker.custom_words := set_at (objects s) (checker_custom_words s);
     GherkinChecker.feature_type := feature_type s;
     GherkinChecker.spellcheck_enabled := spellcheck_enabled s |}.

Definition with_objects (h : heap) (s : t) : t :=
  {| objects := h;
     spell_cache := spell_cache s;
     custom_words := custom_words s;
     checker_spell_cache := checker_spell_cache s;
     checker_custom_words := checker_custom_words s;
     spellchecker := spellchecker s;
     feature_type := feature_type s;
     spellcheck_enabled := spellcheck_enabled s |}.

Definition with_settings (d : option GherkinChecker.Dict) (ft : string)
    (enabled : bool) (s : t) : t :=
  {| objects := objects s;
     spell_cache := spell_cache s;
     custom_words := custom_words s;
     checker_spell_cache := checker_spell_cache s;
     checker_custom_words := checker_custom_words s;
     spellchecker := d;
     feature_type := ft;
     spellcheck_enabled := enabled |}.

(** The words [load_custom_dictionary] adds, from the text of the file. *)
Definition custom_entries (content : string) : gset string :=
  list_to_set
    (map (fun word => lower (strip word))
       (List.filter (fun word => negb (String.eqb (strip word) EmptyString))
          (App.splitlines content))).

(** [load_custom_dictionary]; [content] is the text of the chosen file,
    [None] when no file is chosen or the file cannot be read. *)
Definition load_custom_dictionary (content : option string) (s : t) : t :=
  match content with
  | None => s
  | Some text =>
      with_objects
        (write_set (custom_words s)
           (set_at (objects s) (custom_words s) ∪ custom_entries text)
           (objects s))
        s
  end.

Definition update_feature_type (ft : string) (s : t) : t :=
  with_settings (spellchecker s) (App.feature_tag ft) (spellcheck_enabled s) s.

(** [toggle_spellcheck]; [switch] is the value of the switch. *)
Definition toggle_spellcheck (switch : bool) (s : t) : t :=
  with_settings (spellchecker s) (feature_type s)
    (match spellchecker s with
     | Some _ => switch
     | None => false
     end) s.

(** [update_spellcheck_language]; [d] is the dictionary that is opened. *)
Definition update_spellcheck_language (d : GherkinChecker.Dict) (s : t) : t :=
  match spellcheck_enabled s, spellchecker s with
  | true, Some _ => with_settings (Some d) (feature_type s) true s
  | _, _ => s
  end.

(** The first loop of [run_checks]: the scans write the cache of the
    checker in place. *)
Definition check_files (enabled_checks : gmap string bool)
    (files : list App.file_input) (s : t) : t * list TestReport.t :=
  let '(checker', reports) := App.check_files (checker s) enabled_checks files in
  (with_objects
     (write_dict (checker_spell_cache s)
        (GherkinChecker.spell_cache checker') (objects s))
     s,
   reports).

(** What [save_spell_cache] pickles, when the application closes. *)
Definition save_spell_cache (s : t) : gmap string (list string) :=
  dict_at (objects s) (spell_cache s).

Inductive event : Type :=
| LoadCustomDictionary (content : option string)
| UpdateFeatureType (ft : string)
| ToggleSpellcheck (switch : bool)
| UpdateSpellcheckLanguage (d : GherkinChecker.Dict)
| CheckFiles (enabled_checks : gmap string bool) (files : list App.file_input).

Definition step (e : event) (s : t) : t * list TestReport.t :=
  match e with
  | LoadCustomDictionary content => (load_custom_dictionary content s, [])
  | UpdateFeatureType ft => (update_feature_type ft s, [])
  | ToggleSpellcheck switch => (toggle_spellcheck switch s, [])
  | UpdateSpellcheckLanguage d => (update_spellcheck_language d s, [])
  | CheckFiles enabled_checks files => check_files enabled_checks files s
  end.

(** A session: the events in their order, with the reports they give. *)
Fixpoint run (events : list event) (s : t) : t * list TestReport.t :=
  match events with
  | [] => (s, [])
  | e :: rest =>
      let '(s', reports) := step e s in
      let '(s'', more) := run rest s' in
      (s'', reports ++ more)
  end.

End Session.


(** ** Definitions used to state the properties *)

Module Props.
Import Str Re TestReport GherkinChecker.

(** A line the loop passes over: blank or a comment once trimmed. *)
Definition skipped (line : string) : bool :=
  String.eqb line EmptyString || startswith line "#".

(** The locals and the issues of the loop alone, without the cache and
    the report: what [loop] does to them, see [loop_scan_lines]. *)
Fixpoint scan_lines (ft : string) (total : Z) (l : Locals) (i : Z)
    (lines : list string) : Locals * list Issue :=
  match lines with
  | [] => (l, [])
  | raw :: rest =>
      if skipped (strip raw) then scan_lines ft total l (i + 1) rest
      else
        let '(l', added) := line_issues ft total i (strip raw) l in
        let '(l'', more) := scan_lines ft total l' (i + 1) rest in
        (l'', added ++ more)
  end.

(** The issues the [if]/[elif] chain can add. *)
Inductive chain_issue : Issue -> Prop :=
| ci_given n ln :
    chain_issue
      (syntax_error
         ("Success Criteria must have exactly 1 Given, found " +:+ str_of_int n) ln)
| ci_when n ln :
    chain_issue
      (syntax_error
         ("Success Criteria must have exactly 1 When, found " +:+ str_of_int n) ln)
| ci_before_feature ln :
    chain_issue (syntax_error "Scenario found before Feature" ln)
| ci_duplicate first ln :
    chain_issue
      (mkIssue "Duplicate Scenario"
         ("Scenario identical to one at line " +:+ str_of_int first) ln)
| ci_examples ln :
    chain_issue (syntax_error "Examples found outside a Scenario" ln)
| ci_mismatch ph l ln : chain_issue (mismatch_issue ph l ln)
| ci_order ph l ln : chain_issue (order_issue ph l ln)
| ci_step ln : chain_issue (syntax_error "Step found outside a Scenario" ln)
| ci_but_drive ln :
    chain_issue (syntax_error "But not allowed in Drive Cycle format" ln)
| ci_but_success ln :
    chain_issue (syntax_error "But not allowed in Success Criteria format" ln).

(** The issues the Drive Cycle check can add. *)
Inductive drive_issue : Issue -> Prop :=
| di_when ln :
    drive_issue (syntax_error "When not allowed in Drive Cycle format" ln)
| di_then ln :
    drive_issue (syntax_error "Then not allowed in Drive Cycle format" ln).

(** The issue of a span in single quotes. *)
Definition quoted_issue (i : Z) (bp : string) : Issue :=
  mkIssue "Invalid Placeholder Syntax"
    ("Placeholder " +:+ SQ +:+ bp +:+ SQ
     +:+ " should use angle brackets with double quotes (e.g., <"
     +:+ DQ +:+ strip_chars SQ bp +:+ DQ +:+ ">) instead of single quotes") i.

(** The issues the repeated-word check can add. *)
Inductive repeated_issue : Issue -> Prop :=
| ri_word w ln :
    repeated_issue
      (mkIssue "Repeated Word" ("Word " +:+ SQ +:+ w +:+ SQ +:+ " repeated") ln).

Definition has_type (ty : string) (i : Issue) : bool :=
  String.eqb (issue_type i) ty.

(** The issues the loop can add for a line. *)
Inductive loop_issue : Issue -> Prop :=
| li_chain i : chain_issue i -> loop_issue i
| li_drive i : drive_issue i -> loop_issue i
| li_quoted ln bp : loop_issue (quoted_issue ln bp)
| li_repeated i : repeated_issue i -> loop_issue i.

(** The issue reported for a document without a Feature line. *)
Definition is_no_feature (i : Issue) : bool :=
  has_type "Syntax Error" i
  && String.eqb (description i) "No Feature keyword found in file".

(** Some trimmed line of the document starts with the Feature keyword. *)
Definition has_feature_line (lines : list string) : bool :=
  existsb (fun raw => startswith (strip raw) "Feature") lines.

(** The Scenario lines of a document, numbered from [i]: line number and
    trimmed text, which is the title compared for duplicates. *)
Fixpoint scenario_lines (i : Z) (lines : list string) : list (Z * string) :=
  match lines with
  | [] => []
  | raw :: rest =>
      if startswith (strip raw) "Scenario"
      then (i, strip raw) :: scenario_lines (i + 1) rest
      else scenario_lines (i + 1) rest
  end.

(** The line of the first entry of title [t]. *)
Fixpoint first_line (t : string) (entries : list (Z * string)) : option Z :=
  match entries with
  | [] => None
  | (i, t') :: rest => if String.eqb t' t then Some i else first_line t rest
  end.

Definition duplicate_issue (first i : Z) : Issue :=
  mkIssue "Duplicate Scenario"
    ("Scenario identical to one at line " +:+ str_of_int first) i.

(** The duplicates among [entries], [seen] being the Scenario lines
    before them: an entry whose title was seen is reported once, with the
    line of the first entry of that title; an entry whose title is new is
    not. *)
Fixpoint duplicates (seen entries : list (Z * string)) : list Issue :=
  match entries with
  | [] => []
  | (i, t) :: rest =>
      match first_line t seen with
      | Some first => [duplicate_issue first i]
      | None => []
      end
      ++ duplicates (seen ++ [(i, t)]) rest
  end.

(** The column of [name] among the headers, counted from [idx]: the last
    one when several columns bear the name. *)
Fixpoint column_index_from (idx : Z) (name : string) (headers : list string)
    : option Z :=
  match headers with
  | [] => None
  | h :: rest =>
      match column_index_from (idx + 1) name rest with
      | Some k => Some k
      | None => if String.eqb h name then Some idx else None
      end
  end.

Definition column_index (name : string) (headers : list string) : option Z :=
  column_index_from 0 name headers.

(** The ordering walk in the words of the specification: the tokens that
    are reported, walking [tokens] from [last_position].  A token whose
    name is no header is passed over; one whose column is lower than
    [last_position] is reported; any other advances [last_position] to
    the maximum of it and the column. *)
Fixpoint out_of_order (headers : list string) (last_position : Z)
    (tokens : list string) : list string :=
  match tokens with
  | [] => []
  | tok :: rest =>
      match column_index (placeholder_name tok) headers with
      | None => out_of_order headers last_position rest
      | Some index =>
          if index <? last_position
          then tok :: out_of_order headers last_position rest
          else out_of_order headers (Z.max last_position index) rest
      end
  end.

(** A placeholder token, the name between an angle bracket with a double
    quote on each side. *)
Definition token (name : string) : string :=
  "<" +:+ DQ +:+ name +:+ DQ +:+ ">".

(** A scenario outline over the columns A, B and C whose steps use B and
    then A. *)
Definition outline_B_A : list string :=
  ["Feature: ordering";
   "Scenario Outline: columns";
   "Given the value " +:+ token "B";
   "When it meets " +:+ token "A";
   "Examples:";
   "| A | B | C |";
   "| 1 | 2 | 3 |"].

(** The same outline with steps that use A, B and C in that order. *)
Definition outline_A_B_C : list string :=
  ["Feature: ordering";
   "Scenario Outline: columns";
   "Given the value " +:+ token "A";
   "When it meets " +:+ token "B";
   "Then it gives " +:+ token "C";
   "Examples:";
   "| A | B | C |";
   "| 1 | 2 | 3 |"].

(** A scenario with a span that lacks its closing quote and one that
    lacks its opening quote. *)
Definition unbalanced_quotes : list string :=
  ["Feature: quotes";
   "Scenario: spans";
   "Given 'name is used";
   "Then name' is shown"].

(** An outline whose only step, on line 3, uses a placeholder that is no
    column of the table. *)
Definition outline_unknown_column : list string :=
  ["Feature: columns";
   "Scenario Outline: unknown";
   "Given " +:+ token "x" +:+ " is set";
   "Examples:";
   "| y |";
   "| 1 |"].

(** Two scenarios, the first with a When step. *)
Definition when_then_scenario : list string :=
  ["Feature: cycle";
   "Scenario: first";
   "When the engine starts";
   "Scenario: second";
   "Given the engine runs"].

(** One scenario with a When step, and a blank last line. *)
Definition when_then_blank : list string :=
  ["Feature: cycle";
   "Scenario: only";
   "When the engine starts";
   EmptyString].

(** The issue of the Drive Cycle format for a When step. *)
Definition is_when_issue (i : Issue) : bool :=
  has_type "Syntax Error" i
  && String.eqb (description i) "When not allowed in Drive Cycle format".

(** A spellchecker that accepts every word. *)
Definition accepting : Dict := mkDict (fun _ => true) (fun _ => []).

(** A checker whose custom word is cached with a suggestion. *)
Definition cached_custom_checker : GherkinChecker.t :=
  GherkinChecker.init None (Some accepting)
    (Some {[ "gherkin" := ["gherkins"] ]}) (Some {[ "gherkin" ]})
    "standard" true.

(** The word [w] has no suggestions in the cache. *)
Definition no_suggestions (w : string) (cache : gmap string (list string))
    : Prop :=
  cache !! w = None \/ cache !! w = Some [].

(** A spellchecker that rejects one word. *)
Definition rejecting_speeed : Dict :=
  mkDict (fun w => negb (String.eqb w "speeed")) (fun _ => ["speed"]).

(** An outline whose table rows, lines 5 and 6, hold a misspelled word and
    a repeated word. *)
Definition outline_misspelled_row : list string :=
  ["Feature: table";
   "Scenario Outline: rows";
   "Given a value";
   "Examples:";
   "| speeed speeed |";
   "| speeed speeed |"].

(** The names of the nine checks. *)
Definition check_names : list string :=
  ["misspelled"; "syntax"; "placeholder_mismatch"; "placeholder_order";
   "invalid_placeholder"; "repeated_word"; "drive_cycle";
   "success_criteria"; "duplicate_scenario"].

(** Every check has an entry in the configuration. *)
Definition complete (checks : gmap string bool) : Prop :=
  Forall (fun k => is_Some (checks !! k)) check_names.

(** The total as a sum, for a configuration that has the nine entries. *)
Definition enabled (r : TestReport.t) (k : string) : bool :=
  default false (enabled_checks r !! k).

Definition total_sum (r : TestReport.t) : Z :=
  (if enabled r "misspelled" then len (misspelled_words r) else 0)
  + (if enabled r "syntax" then len (of_type "Syntax Error" r) else 0)
  + (if enabled r "placeholder_mismatch"
     then len (of_type "Placeholder Mismatch" r) else 0)
  + (if enabled r "placeholder_order"
     then len (of_type "Placeholder Order" r) else 0)
  + (if enabled r "invalid_placeholder"
     then len (of_type "Invalid Placeholder Syntax" r) else 0)
  + (if enabled r "repeated_word" then len (of_type "Repeated Word" r) else 0)
  + (if enabled r "drive_cycle" && String.eqb (TestReport.feature_type r) "drive_cycle"
     then len (syntax_with "Drive Cycle" r) else 0)
  + (if enabled r "success_criteria"
        && String.eqb (TestReport.feature_type r) "success_criteria"
     then len (syntax_with "Success Criteria" r) else 0)
  + (if enabled r "duplicate_scenario"
     then len (of_type "Duplicate Scenario" r) else 0).

Fixpoint sum_Z (l : list Z) : Z :=
  match l with
  | [] => 0
  | x :: rest => x + sum_Z rest
  end.

Definition one_if (b : bool) : Z := if b then 1 else 0.

(** What one issue adds to the total of a report: one for each enabled
    category that lists it. *)
Definition contribution (r : TestReport.t) (i : Issue) : Z :=
  one_if (enabled r "syntax" && has_type "Syntax Error" i)
  + one_if (enabled r "placeholder_mismatch" && has_type "Placeholder Mismatch" i)
  + one_if (enabled r "placeholder_order" && has_type "Placeholder Order" i)
  + one_if (enabled r "invalid_placeholder"
            && has_type "Invalid Placeholder Syntax" i)
  + one_if (enabled r "repeated_word" && has_type "Repeated Word" i)
  + one_if ((enabled r "drive_cycle"
             && String.eqb (TestReport.feature_type r) "drive_cycle")
            && (has_type "Syntax Error" i
                && contains (description i) "Drive Cycle"))
  + one_if ((enabled r "success_criteria"
             && String.eqb (TestReport.feature_type r) "success_criteria")
            && (has_type "Syntax Error" i
                && contains (description i) "Success Criteria"))
  + one_if (enabled r "duplicate_scenario" && has_type "Duplicate Scenario" i).

(** A fresh checker with the given feature type, no spellchecker. *)
Definition plain_checker (ft : string) : GherkinChecker.t :=
  GherkinChecker.init None None None None ft true.

(** A fresh report. *)
Definition fresh : TestReport.t := TestReport.init "2026-01-01 09:00:00 AM" None.

(** The first check, in the order in which they are read, that has no
    entry in the configuration. *)
Definition first_missing (checks : gmap string bool) : option string :=
  find (fun k => negb (bool_decide (is_Some (checks !! k)))) check_names.

(** The default configuration with the misspelled check turned off. *)
Definition misspelled_off : gmap string bool :=
  <["misspelled" := false]> default_checks.

(** The number of entries of the structured report, all arrays together. *)
Definition json_entries (j : JsonReport) : Z :=
  len (json_misspelled_words j) + len (json_syntax_errors j)
  + len (json_placeholder_mismatches j) + len (json_placeholder_orders j)
  + len (json_invalid_placeholders j) + len (json_repeated_words j)
  + len (json_drive_cycle_errors j) + len (json_success_criteria_errors j)
  + len (json_duplicate_scenarios j).

(** A spellchecker that rejects one word and has nothing to suggest. *)
Definition rejecting_without_suggestions : Dict :=
  mkDict (fun w => negb (String.eqb w "speeed")) (fun _ => []).

(** The misspellings reported for the word [w]. *)
Definition reports_of (w : string) (found : list Misspelled) : list Misspelled :=
  List.filter (fun m => String.eqb (word m) w) found.

(** A step line: its trimmed text starts with one of the five keywords. *)
Definition is_step (line : string) : bool :=
  existsb (startswith line) step_keywords.

(** The numbers of the lines whose trimmed text satisfies [p], numbering
    from [i]. *)
Fixpoint lines_where (p : string -> bool) (i : Z) (lines : list string)
    : list Z :=
  match lines with
  | [] => []
  | raw :: rest =>
      (if p (strip raw) then [i] else []) ++ lines_where p (i + 1) rest
  end.

(** The numbers of the lines that satisfy [hit] and stand before the first
    line that satisfies [stop]. *)
Fixpoint hits_before (stop hit : string -> bool) (i : Z) (lines : list string)
    : list Z :=
  match lines with
  | [] => []
  | raw :: rest =>
      if stop (strip raw) then []
      else (if hit (strip raw) then [i] else [])
           ++ hits_before stop hit (i + 1) rest
  end.

(** The Syntax Error issues of description [desc]. *)
Definition has_description (desc : string) (x : Issue) : bool :=
  has_type "Syntax Error" x && String.eqb (description x) desc.

Definition but_drive : string := "But not allowed in Drive Cycle format".
Definition but_success : string := "But not allowed in Success Criteria format".

(** The description of the issue of a But step, for the two variants. *)
Definition but_description (ft : string) : option string :=
  if String.eqb ft "drive_cycle" then Some but_drive
  else if String.eqb ft "success_criteria" then Some but_success
  else None.

(** The issue of either variant for a But step. *)
Definition is_but_issue (x : Issue) : bool :=
  has_description but_drive x || has_description but_success x.

Definition before_feature : string := "Scenario found before Feature".
Definition step_outside : string := "Step found outside a Scenario".
Definition examples_outside : string := "Examples found outside a Scenario".

(** The number of lines whose trimmed text satisfies [p]. *)
Definition count_where (p : string -> bool) (lines : list string) : Z :=
  len (List.filter (fun raw => p (strip raw)) lines).

(** The scenarios of a document, each with the line of its Scenario line
    and the numbers of the lines that start with Given and with When up to
    the next Scenario line; [cur] is the scenario being read. *)
Fixpoint scenario_counts (cur : option (Z * Z * Z)) (i : Z)
    (lines : list string) : list (Z * Z * Z) :=
  match lines with
  | [] => match cur with Some c => [c] | None => [] end
  | raw :: rest =>
      if startswith (strip raw) "Scenario" then
        match cur with Some c => [c] | None => [] end
        ++ scenario_counts (Some (i, 0, 0)) (i + 1) rest
      else
        scenario_counts
          (match cur with
           | Some (start, given, when) =>
               Some (start,
                     if startswith (strip raw) "Given" then given + 1 else given,
                     if startswith (strip raw) "When" then when + 1 else when)
           | None => None
           end)
          (i + 1) rest
  end.

(** The issues of the Success Criteria format for one scenario. *)
Definition count_issues (c : Z * Z * Z) : list Issue :=
  let '(start, given, when) := c in
  (if negb (given =? 1) then
     [mkIssue "Syntax Error"
        ("Success Criteria must have exactly 1 Given, found " +:+ str_of_int given)
        start]
   else [])
  ++
  (if negb (when =? 1) then
     [mkIssue "Syntax Error"
        ("Success Criteria must have exactly 1 When, found " +:+ str_of_int when)
        start]
   else []).

(** An issue on the number of Given or When steps. *)
Definition is_count_issue (x : Issue) : bool :=
  has_type "Syntax Error" x
  && startswith (description x) "Success Criteria must have exactly 1 ".

(** The scenario being read, as the locals hold it. *)
Definition reading (l : Locals) (cur : option (Z * Z * Z)) : Prop :=
  match cur with
  | Some (start, given, when) =>
      truthy_str (current_scenario l) = true
      /\ scenario_start_line l = start
      /\ given_count l = given /\ when_count l = when
  | None => truthy_str (current_scenario l) = false
  end.

(** What the locals keep before line [i] is read: the buffered steps
    stand on lines of their own between the Scenario line and line [i],
    and there are none without a scenario. *)
Definition placed (l : Locals) (i : Z) : Prop :=
  0 <= scenario_start_line l
  /\ scenario_start_line l + len (current_steps l) < i
  /\ (truthy_str (current_scenario l) = false -> current_steps l = [])
  /\ (truthy_str (current_scenario l) = true -> 1 <= scenario_start_line l).

(** How a line and its normalised form compare: both blank, or the
    normalised line is the trimmed text after 0, 2, 4 or 6 blanks. *)
Definition normalised (raw out : string) : Prop :=
  strip raw = EmptyString /\ out = EmptyString
  \/ strip raw <> EmptyString
     /\ exists k, In k [0%nat; 2%nat; 4%nat; 6%nat]
                  /\ out = repeat_char " " k +:+ strip raw.

Fixpoint all_chars (f : ascii -> bool) (s : string) : bool :=
  match s with
  | EmptyString => true
  | String c r => f c && all_chars f r
  end.

(** A key of capital letters, a hyphen and digits, with a newline after
    it or not. *)
Definition well_formed_key (key : string) : Prop :=
  exists letters digits,
    letters <> EmptyString /\ digits <> EmptyString
    /\ all_chars App.is_upper letters = true
    /\ all_chars App.is_digit digits = true
    /\ (key = letters +:+ "-" +:+ digits
        \/ key = letters +:+ "-" +:+ digits +:+ NL).

(** The lines put before a content that does not start with Feature. *)
Definition default_heading (issue_key : string) : string :=
  "Feature: Gherkin Content for " +:+ issue_key +:+ NL
  +:+ "  Scenario: Default Scenario" +:+ NL.

Definition not_comma (c : ascii) : bool := negb (Ascii.eqb c ",").

(** A key as [download_feature_files] keeps it: not empty, with no blank
    around it and no comma in it. *)
Definition clean_key (k : string) : Prop :=
  k <> EmptyString /\ strip k = k /\ all_chars not_comma k = true.

(** A file that [process_file] can open and decode. *)
Definition readable (f : App.file_input) : bool :=
  match App.content f with
  | Some _ => true
  | None => false
  end.



(** The set of custom words of the checker is another object than the
    one of the application, and is empty. *)
Definition words_apart (s : Session.t) : Prop :=
  Session.custom_words s <> Session.checker_custom_words s
  /\ Session.set_at (Session.objects s) (Session.checker_custom_words s) = ∅.

(** The cache of the checker is another object than the one of the
    application, which is empty. *)
Definition cache_apart (s : Session.t) : Prop :=
  Session.spell_cache s <> Session.checker_spell_cache s
  /\ Session.dict_at (Session.objects s) (Session.spell_cache s) = ∅.

(** The application and the checker hold the same cache, which has the
    entries of [d]. *)
Definition cache_shared (d : gmap string (list string)) (s : Session.t) : Prop :=
  Session.spell_cache s = Session.checker_spell_cache s
  /\ (Session.spell_cache s < length (Session.dicts (Session.objects s)))%nat
  /\ forall w v, d !! w = Some v ->
                 Session.dict_at (Session.objects s) (Session.spell_cache s) !! w
                 = Some v.

(** Every event but the loading of a custom dictionary. *)
Definition not_load (e : Session.event) : bool :=
  match e with
  | Session.LoadCustomDictionary _ => false
  | _ => true
  end.

(** Two sessions that differ at most in their sets of words, each with
    the set of its checker apart and empty. *)
Definition same_but_words (s1 s2 : Session.t) : Prop :=
  Session.dicts (Session.objects s1) = Session.dicts (Session.objects s2)
  /\ Session.spell_cache s1 = Session.spell_cache s2
  /\ Session.checker_spell_cache s1 = Session.checker_spell_cache s2
  /\ Session.spellchecker s1 = Session.spellchecker s2
  /\ Session.feature_type s1 = Session.feature_type s2
  /\ Session.spellcheck_enabled s1 = Session.spellcheck_enabled s2
  /\ words_apart s1 /\ words_apart s2.

(** A text without a line boundary. *)
Definition no_break (s : string) : bool :=
  all_chars (fun c => negb (App.is_linebreak c)) s.

(** The lines without their last one when it is empty. *)
Fixpoint drop_empty_last (lines : list string) : list string :=
  match lines with
  | [] => []
  | [x] => if String.eqb x EmptyString then [] else [x]
  | x :: rest => x :: drop_empty_last rest
  end.

End Props.

(** ** Properties *)

Import Str Re TestReport GherkinChecker Props.

(** *** The report *)

Lemma add_issues_issues l r : issues (add_issues l r) = issues r ++ l.
Proof.
  revert r. induction l as [|i l IH]; intros r; simpl.
  - by rewrite app_nil_r.
  - rewrite IH. simpl. rewrite <- app_assoc. by destruct i.
Qed.

Lemma add_issues_misspelled l r :
  misspelled_words (add_issues l r) = misspelled_words r.
Proof. revert r. induction l as [|i l IH]; intros r; simpl; [done|by rewrite IH]. Qed.



Lemma add_misspellings_issues l r : issues (add_misspellings l r) = issues r.
Proof. revert r. induction l as [|i l IH]; intros r; simpl; [done|by rewrite IH]. Qed.

Lemma add_misspellings_misspelled l r :
  misspelled_words (add_misspellings l r) = misspelled_words r ++ l.
Proof.
  revert r. induction l as [|i l IH]; intros r; simpl.
  - by rewrite app_nil_r.
  - rewrite IH. simpl. rewrite <- app_assoc. by destruct i.
Qed.



Lemma len_app {A} (l k : list A) : len (l ++ k) = len l + len k.
Proof. unfold len. rewrite length_app. lia. Qed.

Lemma of_type_add_issue ty ty' desc ln r :
  of_type ty (add_issue ty' desc ln r)
  = of_type ty r ++ (if String.eqb ty' ty then [mkIssue ty' desc ln] else []).
Proof. unfold of_type. simpl. by rewrite List.filter_app. Qed.

Lemma syntax_with_add_issue tag ty desc ln r :
  syntax_with tag (add_issue ty desc ln r)
  = syntax_with tag r
    ++ (if String.eqb ty "Syntax Error" && contains desc tag
        then [mkIssue ty desc ln] else []).
Proof. unfold syntax_with. simpl. by rewrite List.filter_app. Qed.

Lemma add_if (c : bool) (t x : Z) :
  (if c then t + x else t) = t + (if c then x else 0).
Proof. destruct c; lia. Qed.

Lemma get_total_errors_sum r :
  complete (enabled_checks r) -> get_total_errors r = Return (total_sum r).
Proof.
  intros H. unfold complete, check_names in H.
  rewrite !Forall_cons in H.
  destruct H as ([? ?] & [? ?] & [? ?] & [? ?] & [? ?] & [? ?] & [? ?] & [? ?] & [? ?] & _).
  unfold get_total_errors, total_sum, enabled, getitem.
  repeat match goal with E : _ !! _ = Some _ |- _ => rewrite E; clear E end.
  simpl. rewrite !add_if. f_equal; lia.
Qed.

Lemma len_of_type_add_same ty desc ln r :
  len (of_type ty (add_issue ty desc ln r)) = len (of_type ty r) + 1.
Proof.
  rewrite of_type_add_issue, String.eqb_refl, len_app. reflexivity.
Qed.

Lemma len_of_type_add_other ty ty' desc ln r :
  ty' <> ty ->
  len (of_type ty (add_issue ty' desc ln r)) = len (of_type ty r).
Proof.
  intros Hne. rewrite of_type_add_issue.
  destruct (String.eqb_spec ty' ty) as [->|_]; [done|].
  by rewrite app_nil_r.
Qed.

Lemma len_syntax_with_add tag desc ln r :
  len (syntax_with tag (add_issue "Syntax Error" desc ln r))
  = len (syntax_with tag r) + (if contains desc tag then 1 else 0).
Proof.
  rewrite syntax_with_add_issue, len_app. simpl.
  by destruct (contains desc tag).
Qed.


(** Evaluates the comparisons of two string literals in the goal. *)
Ltac eval_eqb :=
  repeat match goal with
         | |- context [String.eqb (String ?a ?x) (String ?b ?y)] =>
             let v := eval vm_compute in (String.eqb (String a x) (String b y)) in
             change (String.eqb (String a x) (String b y)) with v
         end.

Lemma len_filter_sum (c : bool) (f : Issue -> bool) (l : list Issue) :
  (if c then len (List.filter f l) else 0)
  = sum_Z (map (fun i => one_if (c && f i)) l).
Proof.
  induction l as [|x l IH]; cbn [List.filter map sum_Z].
  - by destruct c.
  - rewrite <- IH. destruct c; [|done]. cbn [andb].
    destruct (f x); unfold one_if, len; cbn [length]; lia.
Qed.

Lemma total_sum_contributions r :
  total_sum r
  = (if enabled r "misspelled" then len (misspelled_words r) else 0)
    + sum_Z (map (contribution r) (issues r)).
Proof.
  unfold total_sum, of_type, syntax_with. rewrite !len_filter_sum.
  unfold contribution, has_type. generalize (issues r) as l.
  induction l as [|x l IH]; cbn [map sum_Z]; lia.
Qed.

(** C10: the total is the sum of what each issue contributes, one for
    each enabled category that lists it.  With the syntax check and the
    check of the report's own variant both enabled, a Syntax Error issue
    whose description names the variant contributes two, once through the
    syntax category and once through the category of the variant:
    [drive_cycle] with [Drive Cycle], [success_criteria] with [Success
    Criteria]; adding such an issue raises the total by two. *)
Theorem C10_variant_issue_counted_twice
    (r : TestReport.t) (ft tag : string) :
  (ft = "drive_cycle" /\ tag = "Drive Cycle"
   \/ ft = "success_criteria" /\ tag = "Success Criteria") ->
  complete (enabled_checks r) ->
  TestReport.feature_type r = ft ->
  enabled_checks r !! "syntax" = Some true ->
  enabled_checks r !! ft = Some true ->
  get_total_errors r
  = Return ((if enabled r "misspelled" then len (misspelled_words r) else 0)
            + sum_Z (map (contribution r) (issues r)))
  /\ (forall i,
        issue_type i = "Syntax Error" ->
        contains (description i) tag = true ->
        contribution r i = 2)
  /\ (forall desc ln,
        contains desc tag = true ->
        exists n,
          get_total_errors r = Return n
          /\ get_total_errors (add_issue "Syntax Error" desc ln r)
             = Return (n + 2)).
Proof.
  intros Hv Hc Hft Hs Hk.
  split; [|split].
  - rewrite get_total_errors_sum by done. by rewrite total_sum_contributions.
  - intros i Hty Hd. unfold contribution, enabled, has_type.
    rewrite Hty, Hs, Hft.
    destruct Hv as [[-> ->]|[-> ->]]; rewrite Hk, Hd; eval_eqb;
      rewrite ?andb_false_r, ?andb_true_r; reflexivity.
  - intros desc ln Hd.
    exists (total_sum r). split; [by apply get_total_errors_sum|].
    rewrite get_total_errors_sum by done. f_equal.
    unfold total_sum, enabled.
    change (enabled_checks (add_issue _ _ _ r)) with (enabled_checks r).
    change (misspelled_words (add_issue _ _ _ r)) with (misspelled_words r).
    change (TestReport.feature_type (add_issue _ _ _ r))
      with (TestReport.feature_type r).
    rewrite len_of_type_add_same, !len_syntax_with_add.
    rewrite !len_of_type_add_other by done.
    rewrite Hs, Hft.
    destruct Hv as [[-> ->]|[-> ->]]; rewrite Hk, Hd.
    + change (String.eqb "drive_cycle" "drive_cycle") with true.
      change (String.eqb "drive_cycle" "success_criteria") with false.
      rewrite andb_false_r. simpl default. simpl andb. cbv iota. lia.
    + change (String.eqb "success_criteria" "success_criteria") with true.
      change (String.eqb "success_criteria" "drive_cycle") with false.
      rewrite andb_false_r. simpl default. simpl andb. cbv iota. lia.
Qed.

(** An instance: a Drive Cycle report with the default checks, holding one
    But issue. *)
Lemma C10_variant_issue_counted_twice_witness :
  let r :=
    add_issue "Syntax Error" "But not allowed in Drive Cycle format" 4
      (set_feature_type "drive_cycle" fresh) in
  get_total_errors r
  = Return ((if enabled r "misspelled" then len (misspelled_words r) else 0)
            + sum_Z (map (contribution r) (issues r)))
  /\ (forall i,
        issue_type i = "Syntax Error" ->
        contains (description i) "Drive Cycle" = true ->
        contribution r i = 2)
  /\ (forall desc ln,
        contains desc "Drive Cycle" = true ->
        exists n,
          get_total_errors r = Return n
          /\ get_total_errors (add_issue "Syntax Error" desc ln r)
             = Return (n + 2)).
Proof.
  apply (C10_variant_issue_counted_twice
           (add_issue "Syntax Error" "But not allowed in Drive Cycle format" 4
              (set_feature_type "drive_cycle" fresh))
           "drive_cycle" "Drive Cycle").
  - left. split; reflexivity.
  - unfold complete, check_names.
    repeat (apply List.Forall_cons; [eexists; vm_compute; reflexivity|]).
    apply List.Forall_nil.
  - reflexivity.
  - vm_compute. reflexivity.
  - vm_compute. reflexivity.
Defined.

(** *** The loop, on the locals and the issues *)

Lemma loop_scan_lines self total st i lines :
  locals (loop self total st i lines)
  = fst (scan_lines (GherkinChecker.feature_type self) total (locals st) i lines)
  /\ issues (report (loop self total st i lines))
     = issues (report st)
       ++ snd (scan_lines (GherkinChecker.feature_type self) total (locals st) i lines).
Proof.
  revert st i. induction lines as [|raw rest IH]; intros st i; simpl.
  - by rewrite app_nil_r.
  - unfold loop_body. fold (skipped (strip raw)).
    destruct (skipped (strip raw)); [apply IH|].
    destruct (line_issues _ total i (strip raw) (locals st)) as [l' added] eqn:E.
    destruct (spellcheck self (cache st) i (strip raw)) as [cache' missp].
    specialize (IH (mkScan l' cache'
                      (add_misspellings missp (add_issues added (report st))))
                   (i + 1)).
    simpl in IH. destruct IH as [IH1 IH2].
    destruct (scan_lines _ total l' (i + 1) rest) as [l'' more]. simpl in *.
    split; [done|].
    rewrite IH2, add_misspellings_issues, add_issues_issues.
    by rewrite app_assoc.
Qed.

Lemma scan_issues self file lines rep :
  let ft := GherkinChecker.feature_type self in
  let res := scan_lines ft (len lines) initial 1 lines in
  issues (report (scan self file lines rep))
  = issues rep ++ snd res ++ finish ft (fst res).
Proof.
  intros ft res. unfold scan. simpl.
  rewrite add_issues_issues.
  destruct (loop_scan_lines self (len lines)
              (mkScan initial (spell_cache self)
                 (set_feature_type (GherkinChecker.feature_type self) rep))
              1 lines) as [H1 H2].
  rewrite H1, H2. simpl. by rewrite app_assoc.
Qed.

(** *** The shape of the issues of each block *)

Lemma success_criteria_check_shape l :
  Forall chain_issue (success_criteria_check l).
Proof.
  unfold success_criteria_check. apply Forall_app. split.
  - destruct (negb _); repeat constructor.
  - destruct (negb _); repeat constructor.
Qed.

Lemma mismatch_check_shape headers l i :
  Forall chain_issue (mismatch_check headers l i).
Proof.
  unfold mismatch_check.
  induction (elements _) as [|ph phs IH]; simpl; [constructor|].
  apply Forall_app. split; [|done].
  destruct (negb _); repeat constructor.
Qed.

Lemma order_walk_shape order l i last phs :
  Forall chain_issue (order_walk order l i last phs).
Proof.
  revert last. induction phs as [|ph phs IH]; intros last; simpl; [constructor|].
  destruct (_ =? -1); [apply IH|].
  apply Forall_app. split; [|apply IH].
  destruct (_ <? _); repeat constructor.
Qed.

Lemma order_check_shape headers l i :
  Forall chain_issue (order_check headers l i).
Proof.
  unfold order_check. destruct (placeholders_used _); [constructor|].
  apply order_walk_shape.
Qed.

Lemma classify_shape ft i line l :
  Forall chain_issue (snd (classify ft i line l)).
Proof.
  unfold classify.
  destruct (startswith line "Feature"); [constructor|].
  destruct (startswith line "Scenario").
  { unfold on_scenario. destruct (scenario_dict l !! line); simpl;
      rewrite !Forall_app; repeat split;
      repeat match goal with
             | |- context [if ?b then _ else _] => destruct b
             end;
      auto using success_criteria_check_shape; repeat constructor. }
  destruct (startswith line "Examples").
  { unfold on_examples; simpl. destruct (negb _); repeat constructor. }
  destruct (in_examples l && startswith line "|").
  { unfold on_table_row. destruct (negb _); simpl; [|constructor].
    apply Forall_app. split;
      [apply mismatch_check_shape|apply order_check_shape]. }
  destruct (existsb _ _); [|constructor].
  unfold on_step; simpl. apply Forall_app. split.
  - destruct (negb _); repeat constructor.
  - repeat match goal with
           | |- context [if ?b then _ else _] => destruct b
           end; repeat constructor.
Qed.

Lemma drive_cycle_check_shape ft total i line l :
  Forall drive_issue (drive_cycle_check ft total i line l).
Proof.
  unfold drive_cycle_check.
  destruct (_ && _); [|constructor].
  destruct (String.eqb ft "drive_cycle"); [|constructor].
  apply Forall_app. split.
  - destruct (_ >? _); repeat constructor.
  - destruct (_ >? _); repeat constructor.
Qed.

Lemma repeated_pairs_shape i words :
  Forall repeated_issue (repeated_pairs i words).
Proof.
  induction words as [|w [|w' rest] IH]; simpl; try constructor.
  apply Forall_app. split; [|apply IH].
  destruct (_ && _); repeat constructor.
Qed.

Lemma repeated_check_shape i line l :
  Forall repeated_issue (repeated_check i line l).
Proof.
  unfold repeated_check. destruct (negb _); [|constructor].
  apply repeated_pairs_shape.
Qed.

(** *** Strings and patterns *)

Lemma drop_length_app x y : drop (String.length x) (x +:+ y) = y.
Proof. induction x as [|c x IH]; simpl; [by destruct y|done]. Qed.

Lemma length_append x y :
  String.length (x +:+ y) = (String.length x + String.length y)%nat.
Proof. induction x as [|c x IH]; simpl; [done|by rewrite IH]. Qed.

Lemma endswith_app x p : endswith (x +:+ p) p = true.
Proof.
  unfold endswith. rewrite length_append.
  replace (String.length x + String.length p - String.length p)%nat
    with (String.length x) by lia.
  rewrite drop_length_app. apply String.eqb_refl.
Qed.

Lemma startswith_char c x : startswith (String c x) (String c EmptyString) = true.
Proof. cbn [startswith]. by rewrite Ascii.eqb_refl. Qed.

Lemma run_stops f r c r' : drop (run f r) r = String c r' -> f c = false.
Proof.
  revert c r'. induction r as [|d r IH]; intros c r'; simpl; [done|].
  destruct (f d) eqn:E; simpl; [apply IH|].
  intros [= <- _]. done.
Qed.

Lemma take_snoc n r c r' :
  drop n r = String c r' -> take (S n) r = take n r +:+ String c EmptyString.
Proof.
  revert r. induction n as [|n IH]; intros r H.
  - simpl in H. subst r. done.
  - destruct r as [|d r]; [done|]. simpl in H.
    change (take (S (S n)) (String d r)) with (String d (take (S n) r)).
    rewrite (IH r H). done.
Qed.

(** A match of a quoted span opens and closes with the quote. *)
Lemma quoted_match q s n :
  quoted q s = Some n ->
  startswith (take n s) (String q EmptyString) = true
  /\ endswith (take n s) (String q EmptyString) = true.
Proof.
  unfold quoted. destruct s as [|c r]; [done|].
  destruct (Ascii.eqb_spec c q) as [->|]; [|done].
  destruct (drop (run (not_char q) r) r) as [|d r'] eqn:E; [done|].
  intros [= <-].
  assert (d = q) as ->.
  { apply run_stops in E. unfold not_char in E.
    apply negb_false_iff in E. by apply Ascii.eqb_eq in E. }
  replace (run (not_char q) r + 2)%nat with (S (S (run (not_char q) r))) by lia.
  change (take (S (S ?n)) (String q r)) with (String q (take (S n) r)).
  split; [apply startswith_char|].
  rewrite (take_snoc _ _ _ _ E).
  change (String q (?x +:+ ?y)) with (String q x +:+ y).
  apply endswith_app.
Qed.

(** Every string [findall] returns is a match of the pattern. *)
Lemma findall_from_matches m skip s :
  Forall (fun x => exists s' n, m s' = Some n /\ x = take n s')
    (findall_from m skip s).
Proof.
  revert skip. induction s as [|c r IH]; intros skip; simpl; [constructor|].
  destruct skip as [|k]; [|apply IH].
  destruct (m (String c r)) as [[|len]|] eqn:E; try apply IH.
  constructor; [|apply IH]. by exists (String c r), (S len).
Qed.

Lemma bad_placeholder_spans line :
  Forall (fun bp => startswith bp SQ = true /\ endswith bp SQ = true)
    (findall bad_placeholder_pattern line).
Proof.
  eapply Forall_impl; [apply findall_from_matches|].
  intros bp (s' & n & Hm & ->). by apply quoted_match.
Qed.

(** Only the first of the three branches on a span is ever taken. *)
Lemma bad_placeholder_check_quoted i line :
  bad_placeholder_check i line
  = map (quoted_issue i) (findall bad_placeholder_pattern line).
Proof.
  unfold bad_placeholder_check.
  pose proof (bad_placeholder_spans line) as H.
  induction H as [|bp bps [H1 H2] _ IH]; simpl; [done|].
  rewrite IH. unfold bad_placeholder_issue at 1. by rewrite H1, H2.
Qed.

Lemma bad_placeholder_check_shape i line :
  Forall loop_issue (bad_placeholder_check i line).
Proof.
  rewrite bad_placeholder_check_quoted.
  induction (findall _ _) as [|bp bps IH]; simpl; [constructor|].
  constructor; [apply li_quoted|exact IH].
Qed.

Lemma line_issues_shape ft total i line l :
  Forall loop_issue (snd (line_issues ft total i line l)).
Proof.
  unfold line_issues.
  pose proof (classify_shape ft i line l) as H.
  destruct (classify ft i line l) as [l' chain]. simpl in *.
  rewrite !Forall_app. repeat split.
  - eapply Forall_impl; [exact H|]. apply li_chain.
  - eapply Forall_impl; [apply drive_cycle_check_shape|]. apply li_drive.
  - apply bad_placeholder_check_shape.
  - eapply Forall_impl; [apply repeated_check_shape|]. apply li_repeated.
Qed.

Lemma scan_lines_shape ft total l i lines :
  Forall loop_issue (snd (scan_lines ft total l i lines)).
Proof.
  revert l i. induction lines as [|raw rest IH]; intros l i; simpl; [constructor|].
  destruct (skipped (strip raw)); [apply IH|].
  pose proof (line_issues_shape ft total i (strip raw) l) as H.
  destruct (line_issues ft total i (strip raw) l) as [l' added].
  specialize (IH l' (i + 1)).
  destruct (scan_lines ft total l' (i + 1) rest) as [l'' more]. simpl in *.
  apply Forall_app. by split.
Qed.

Lemma filter_none {A} (f : A -> bool) (l : list A) :
  Forall (fun x => f x = false) l -> List.filter f l = [].
Proof.
  induction 1 as [|x l Hx _ IH]; simpl; [done|]. by rewrite Hx.
Qed.

(** *** The Feature keyword *)

Lemma skipped_not_feature line :
  skipped line = true -> startswith line "Feature" = false.
Proof.
  unfold skipped. destruct line as [|c r]; [done|].
  cbn [String.eqb startswith orb]. rewrite andb_true_r.
  intros ->%Ascii.eqb_eq. done.
Qed.

Lemma classify_has_feature ft i line l :
  has_feature (fst (classify ft i line l))
  = has_feature l || startswith line "Feature".
Proof.
  unfold classify.
  destruct (startswith line "Feature"); [by rewrite orb_true_r|].
  rewrite orb_false_r.
  destruct (startswith line "Scenario").
  { unfold on_scenario. by destruct (scenario_dict l !! line). }
  destruct (startswith line "Examples"); [done|].
  destruct (in_examples l && startswith line "|").
  { unfold on_table_row. by destruct (negb _). }
  by destruct (existsb _ _).
Qed.

Lemma scan_lines_has_feature ft total l i lines :
  has_feature (fst (scan_lines ft total l i lines))
  = has_feature l || has_feature_line lines.
Proof.
  revert l i. unfold has_feature_line.
  induction lines as [|raw rest IH]; intros l i;
    cbn [scan_lines existsb fst].
  - by rewrite orb_false_r.
  - destruct (skipped (strip raw)) eqn:Es.
    + rewrite IH, (skipped_not_feature _ Es). done.
    + pose proof (classify_has_feature ft i (strip raw) l) as H.
      unfold line_issues.
      destruct (classify ft i (strip raw) l) as [l' chain].
      cbn [fst] in H. specialize (IH l' (i + 1)).
      destruct (scan_lines ft total l' (i + 1) rest) as [l'' more].
      cbn [fst] in *. rewrite IH, H. by rewrite orb_assoc.
Qed.

Lemma loop_issue_not_no_feature i : loop_issue i -> is_no_feature i = false.
Proof.
  intros [i' []|i' []| |i' []]; reflexivity.
Qed.

(** C6: a document in which no trimmed line starts with the Feature
    keyword gets exactly one Syntax Error issue [No Feature keyword found
    in file], at line 1; a document with such a line gets none. *)
Theorem C6_no_feature_issue_exactly_once
    (self : GherkinChecker.t) (file : string) (lines : list string)
    (now : string) (checks : option (gmap string bool)) :
  List.filter is_no_feature
    (issues (report (scan self file lines (TestReport.init now checks))))
  = if has_feature_line lines then []
    else [mkIssue "Syntax Error" "No Feature keyword found in file" 1].
Proof.
  rewrite scan_issues. simpl issues. rewrite app_nil_l, List.filter_app.
  rewrite (filter_none is_no_feature (snd _)).
  2:{ eapply Forall_impl; [apply scan_lines_shape|].
      apply loop_issue_not_no_feature. }
  unfold finish. rewrite List.filter_app, scan_lines_has_feature.
  rewrite (filter_none is_no_feature (if _ && _ then _ else _)).
  2:{ destruct (_ && _); [|constructor].
      eapply Forall_impl; [apply success_criteria_check_shape|].
      intros i Hi. apply loop_issue_not_no_feature. by apply li_chain. }
  simpl. by destruct (has_feature_line lines).
Qed.

(** *** Duplicate scenarios *)

Lemma feature_not_scenario line :
  startswith line "Feature" = true -> startswith line "Scenario" = false.
Proof.
  destruct line as [|c r]; [done|]. cbn [startswith].
  destruct (Ascii.eqb_spec c "F") as [->|]; done.
Qed.

Lemma scenario_not_skipped line :
  startswith line "Scenario" = true -> skipped line = false.
Proof.
  unfold skipped. destruct line as [|c r]; [done|].
  cbn [String.eqb startswith orb].
  destruct (Ascii.eqb_spec c "S") as [->|]; done.
Qed.

Lemma filter_type_none ty l :
  Forall (fun i => issue_type i <> ty) l -> List.filter (has_type ty) l = [].
Proof.
  intros H. apply filter_none. eapply Forall_impl; [exact H|].
  intros i Hi. unfold has_type. by destruct (String.eqb_spec (issue_type i) ty).
Qed.

Lemma success_criteria_check_type l :
  Forall (fun i => issue_type i = "Syntax Error") (success_criteria_check l).
Proof.
  unfold success_criteria_check. apply Forall_app. split.
  - destruct (negb _); repeat constructor.
  - destruct (negb _); repeat constructor.
Qed.

Lemma mismatch_check_type headers l i :
  Forall (fun x => issue_type x = "Placeholder Mismatch")
    (mismatch_check headers l i).
Proof.
  unfold mismatch_check.
  induction (elements _) as [|ph phs IH]; simpl; [constructor|].
  apply Forall_app. split; [|done].
  destruct (negb _); repeat constructor.
Qed.

Lemma order_walk_type order l i last phs :
  Forall (fun x => issue_type x = "Placeholder Order")
    (order_walk order l i last phs).
Proof.
  revert last. induction phs as [|ph phs IH]; intros last; simpl; [constructor|].
  destruct (_ =? -1); [apply IH|].
  apply Forall_app. split; [|apply IH].
  destruct (_ <? _); repeat constructor.
Qed.

Lemma order_check_type headers l i :
  Forall (fun x => issue_type x = "Placeholder Order") (order_check headers l i).
Proof.
  unfold order_check. destruct (placeholders_used _); [constructor|].
  apply order_walk_type.
Qed.

Lemma drive_cycle_check_type ft total i line l :
  Forall (fun x => issue_type x = "Syntax Error")
    (drive_cycle_check ft total i line l).
Proof.
  eapply Forall_impl; [apply drive_cycle_check_shape|]. by intros x [].
Qed.

Lemma bad_placeholder_check_type i line :
  Forall (fun x => issue_type x = "Invalid Placeholder Syntax")
    (bad_placeholder_check i line).
Proof.
  rewrite bad_placeholder_check_quoted.
  induction (findall _ _) as [|bp bps IH]; simpl; by constructor.
Qed.

Lemma repeated_check_type i line l :
  Forall (fun x => issue_type x = "Repeated Word") (repeated_check i line l).
Proof.
  eapply Forall_impl; [apply repeated_check_shape|]. by intros x [].
Qed.

Lemma Forall_type_ne ty ty' (l : list Issue) :
  ty <> ty' ->
  Forall (fun x => issue_type x = ty) l ->
  Forall (fun x => issue_type x <> ty') l.
Proof.
  intros Hne H. eapply Forall_impl; [exact H|]. intros x ->. done.
Qed.

(** The index and the duplicate issues after the chain. *)
Lemma classify_duplicates ft i line l :
  List.filter (has_type "Duplicate Scenario") (snd (classify ft i line l))
  = (if startswith line "Scenario" then
       match scenario_dict l !! line with
       | Some first => [duplicate_issue first i]
       | None => []
       end
     else [])
  /\ scenario_dict (fst (classify ft i line l))
     = (if startswith line "Scenario" then
          match scenario_dict l !! line with
          | Some _ => scenario_dict l
          | None => <[line := i]> (scenario_dict l)
          end
        else scenario_dict l).
Proof.
  unfold classify.
  destruct (startswith line "Feature") eqn:Ef.
  { by rewrite (feature_not_scenario _ Ef). }
  destruct (startswith line "Scenario").
  { unfold on_scenario.
    destruct (scenario_dict l !! line) as [first|]; cbn [fst snd];
      (split; [|done]); rewrite !List.filter_app;
      rewrite (filter_type_none _ (if _ && _ then _ else _));
      try rewrite (filter_type_none _ (if negb _ then _ else _)); try done.
    all: repeat match goal with
                | |- context [if ?b then _ else _] => destruct b
                end; repeat constructor; try done.
    all: eapply Forall_type_ne; [|apply success_criteria_check_type]; done. }
  destruct (startswith line "Examples").
  { unfold on_examples. cbn [fst snd]. split; [|done].
    by destruct (negb _). }
  destruct (in_examples l && startswith line "|").
  { unfold on_table_row. destruct (negb _); cbn [fst snd]; (split; [|done]);
      [|done].
    rewrite List.filter_app, !filter_type_none; [done| |].
    - eapply Forall_type_ne; [|apply order_check_type]; done.
    - eapply Forall_type_ne; [|apply mismatch_check_type]; done. }
  destruct (existsb _ _); [|done].
  unfold on_step. cbn [fst snd]. split; [|done].
  rewrite List.filter_app, !filter_type_none; [done| |].
  - repeat match goal with
           | |- context [if ?b then _ else _] => destruct b
           end; repeat constructor; done.
  - destruct (negb _); repeat constructor; done.
Qed.

Lemma line_issues_duplicates ft total i line l :
  List.filter (has_type "Duplicate Scenario") (snd (line_issues ft total i line l))
  = List.filter (has_type "Duplicate Scenario") (snd (classify ft i line l))
  /\ fst (line_issues ft total i line l) = fst (classify ft i line l).
Proof.
  unfold line_issues. destruct (classify ft i line l) as [l' chain].
  cbn [fst snd]. split; [|done].
  rewrite !List.filter_app.
  rewrite (filter_type_none _ (drive_cycle_check _ _ _ _ _)),
    (filter_type_none _ (bad_placeholder_check _ _)),
    (filter_type_none _ (repeated_check _ _ _)).
  - by rewrite !app_nil_r.
  - eapply Forall_type_ne; [|apply repeated_check_type]; done.
  - eapply Forall_type_ne; [|apply bad_placeholder_check_type]; done.
  - eapply Forall_type_ne; [|apply drive_cycle_check_type]; done.
Qed.

Lemma first_line_app t a b :
  first_line t (a ++ b)
  = match first_line t a with
    | Some x => Some x
    | None => first_line t b
    end.
Proof.
  induction a as [|[i t'] a IH]; simpl; [done|].
  by destruct (String.eqb t' t).
Qed.

Lemma scan_lines_duplicates ft total l i lines seen :
  (forall t, scenario_dict l !! t = first_line t seen) ->
  List.filter (has_type "Duplicate Scenario") (snd (scan_lines ft total l i lines))
  = duplicates seen (scenario_lines i lines)
  /\ forall t,
       scenario_dict (fst (scan_lines ft total l i lines)) !! t
       = first_line t (seen ++ scenario_lines i lines).
Proof.
  revert l i seen. induction lines as [|raw rest IH]; intros l i seen Hinv;
    cbn [scan_lines scenario_lines].
  - cbn [fst snd List.filter duplicates]. rewrite app_nil_r. done.
  - destruct (skipped (strip raw)) eqn:Es.
    + destruct (startswith (strip raw) "Scenario") eqn:E.
      { apply scenario_not_skipped in E. congruence. }
      by apply IH.
    + destruct (line_issues_duplicates ft total i (strip raw) l) as [H1 H2].
      destruct (classify_duplicates ft i (strip raw) l) as [H3 H4].
      destruct (line_issues ft total i (strip raw) l) as [l' added].
      cbn [fst snd] in H1, H2. rewrite H3 in H1. rewrite <- H2 in H4.
      clear H2 H3.
      destruct (startswith (strip raw) "Scenario") eqn:E.
      * specialize (IH l' (i + 1) (seen ++ [(i, strip raw)])).
        destruct (scan_lines ft total l' (i + 1) rest) as [l'' more].
        cbn [fst snd] in *. rewrite List.filter_app, H1.
        cbn [duplicates]. rewrite <- (Hinv (strip raw)).
        destruct IH as [IH1 IH2].
        { intros t. rewrite H4, first_line_app, <- Hinv. cbn [first_line].
          destruct (scenario_dict l !! strip raw) as [first|] eqn:El.
          - destruct (String.eqb_spec (strip raw) t) as [<-|];
              [by rewrite El|by destruct (scenario_dict l !! t)].
          - destruct (String.eqb_spec (strip raw) t) as [<-|].
            + by rewrite lookup_insert_eq, El.
            + rewrite lookup_insert_ne by done.
              by destruct (scenario_dict l !! t). }
        rewrite IH1. split; [done|].
        intros t. rewrite IH2, <- app_assoc. done.
      * specialize (IH l' (i + 1) seen).
        destruct (scan_lines ft total l' (i + 1) rest) as [l'' more].
        cbn [fst snd] in *. rewrite List.filter_app, H1. cbn [app].
        apply IH. intros t. by rewrite H4.
Qed.

Lemma loop_body_index_kept self total st i raw t first :
  scenario_dict (locals st) !! t = Some first ->
  scenario_dict (locals (loop_body self total st i raw)) !! t = Some first.
Proof.
  intros H. unfold loop_body. fold (skipped (strip raw)).
  destruct (skipped (strip raw)); [done|].
  destruct (line_issues_duplicates (GherkinChecker.feature_type self) total i
              (strip raw) (locals st)) as [_ H2].
  destruct (classify_duplicates (GherkinChecker.feature_type self) i
              (strip raw) (locals st)) as [_ H4].
  destruct (line_issues _ total i (strip raw) (locals st)) as [l' added].
  destruct (spellcheck self (cache st) i (strip raw)) as [cache' missp].
  cbn [fst snd locals] in *. rewrite H2, H4.
  destruct (startswith (strip raw) "Scenario"); [|done].
  destruct (scenario_dict (locals st) !! strip raw) eqn:El; [done|].
  rewrite lookup_insert_ne; [done|]. intros E. rewrite E in El. congruence.
Qed.

(** C8: the first Scenario line of a title adds no Duplicate Scenario
    issue and enters the index with its line number; each later Scenario
    line of the same title adds exactly one, whose description gives the
    line of the first; an entry of the index is never removed nor
    overwritten by a line of the scan. *)
Theorem C8_duplicate_scenarios
    (self : GherkinChecker.t) (file : string) (lines : list string)
    (now : string) (checks : option (gmap string bool)) :
  let result := scan self file lines (TestReport.init now checks) in
  List.filter (has_type "Duplicate Scenario") (issues (report result))
  = duplicates [] (scenario_lines 1 lines)
  /\ (forall t,
        scenario_dict (locals result) !! t
        = first_line t (scenario_lines 1 lines))
  /\ (forall total st i raw t first,
        scenario_dict (locals st) !! t = Some first ->
        scenario_dict (locals (loop_body self total st i raw)) !! t
        = Some first).
Proof.
  intros result.
  destruct (scan_lines_duplicates (GherkinChecker.feature_type self)
              (len lines) initial 1 lines []) as [H1 H2].
  { intros t. apply lookup_empty. }
  split; [|split].
  - unfold result. rewrite scan_issues. cbn [issues TestReport.init app].
    rewrite List.filter_app, H1.
    rewrite (filter_type_none _ (finish _ _)); [by rewrite app_nil_r|].
    unfold finish. apply Forall_app. split.
    + destruct (_ && _); [|constructor].
      eapply Forall_type_ne; [|apply success_criteria_check_type]; done.
    + destruct (negb _); repeat constructor; done.
  - intros t. unfold result, scan. cbn [locals].
    destruct (loop_scan_lines self (len lines)
                (mkScan initial (spell_cache self)
                   (set_feature_type (GherkinChecker.feature_type self)
                      (TestReport.init now checks)))
                1 lines) as [Hl _].
    rewrite Hl. cbn [locals]. apply H2.
  - apply loop_body_index_kept.
Qed.

(** *** Placeholder order *)

Lemma column_index_from_ge idx name headers k :
  column_index_from idx name headers = Some k -> idx <= k.
Proof.
  revert idx. induction headers as [|h rest IH]; intros idx; simpl; [done|].
  destruct (column_index_from (idx + 1) name rest) as [k'|] eqn:E.
  - intros [= <-]. apply IH in E. lia.
  - destruct (String.eqb h name); [|done]. intros [= <-]. lia.
Qed.

Lemma column_index_from_lookup idx name headers k :
  column_index_from idx name headers = Some k ->
  headers !! Z.to_nat (k - idx) = Some name.
Proof.
  revert idx. induction headers as [|h rest IH]; intros idx; simpl; [done|].
  destruct (column_index_from (idx + 1) name rest) as [k'|] eqn:E.
  - intros [= <-]. pose proof (column_index_from_ge _ _ _ _ E).
    apply IH in E.
    replace (Z.to_nat (k' - idx)) with (S (Z.to_nat (k' - (idx + 1)))) by lia.
    done.
  - destruct (String.eqb_spec h name) as [->|]; [|done].
    intros [= <-]. by rewrite Z.sub_diag.
Qed.

Lemma column_index_from_None idx name headers :
  column_index_from idx name headers = None <-> name ∉ headers.
Proof.
  revert idx. induction headers as [|h rest IH]; intros idx; simpl.
  - split; [intros _; apply not_elem_of_nil|done].
  - rewrite not_elem_of_cons.
    destruct (column_index_from (idx + 1) name rest) as [k'|] eqn:E.
    + split; [done|]. intros [_ H]. rewrite <- (IH (idx + 1)) in H. congruence.
    + rewrite (IH (idx + 1)) in E. destruct (String.eqb_spec h name) as [->|].
      * split; [done|]. by intros [? _].
      * split; [|done]. intros _. split; [congruence|done].
Qed.

Lemma column_index_from_unique idx name headers n :
  NoDup headers ->
  headers !! n = Some name ->
  column_index_from idx name headers = Some (idx + Z.of_nat n).
Proof.
  revert idx n. induction headers as [|h rest IH]; intros idx n Hnd Hn; [done|].
  apply NoDup_cons in Hnd as [Hh Hnd]. simpl.
  destruct n as [|n]; simpl in Hn.
  - injection Hn as ->.
    rewrite <- (column_index_from_None (idx + 1)) in Hh. rewrite Hh.
    rewrite String.eqb_refl. f_equal. lia.
  - rewrite (IH (idx + 1) n Hnd Hn). f_equal. lia.
Qed.

Lemma header_order_from_lookup idx headers d name :
  header_order_from idx headers d !! name
  = match column_index_from idx name headers with
    | Some k => Some k
    | None => d !! name
    end.
Proof.
  revert idx d. induction headers as [|h rest IH]; intros idx d; simpl; [done|].
  rewrite IH. destruct (column_index_from (idx + 1) name rest); [done|].
  destruct (String.eqb_spec h name) as [->|].
  - by rewrite lookup_insert_eq.
  - by rewrite lookup_insert_ne.
Qed.

Lemma header_order_lookup headers name :
  header_order headers !! name = column_index name headers.
Proof.
  unfold header_order, column_index. rewrite header_order_from_lookup.
  by destruct (column_index_from 0 name headers).
Qed.

Lemma order_walk_out_of_order headers l i last phs :
  order_walk (header_order headers) l i last phs
  = map (fun ph => order_issue ph l i) (out_of_order headers last phs).
Proof.
  revert last. induction phs as [|ph phs IH]; intros last; [done|].
  cbn [order_walk out_of_order]. rewrite header_order_lookup.
  destruct (column_index (placeholder_name ph) headers) as [k|] eqn:E;
    cbn [default from_option id Z.eqb Z.opp].
  - apply column_index_from_ge in E as Hk.
    destruct (Z.eqb_spec k (-1)); [lia|].
    destruct (Z.ltb_spec k last).
    + rewrite Z.max_l by lia. cbn [map app]. by rewrite IH.
    + by rewrite IH.
  - apply IH.
Qed.

(** C7: the ordering check walks the placeholders of the buffered steps in
    order, repeats kept, from a last position of -1, and reports exactly
    the tokens [out_of_order] gives: the column of the token is lower
    than the last position; a token whose name is no header is passed
    over; the column is a column bearing the name, the only one when the
    headers are distinct.  The check is run by the table row that captures
    the headers.  With the columns A, B and C, steps using B and then A
    get one Placeholder Order issue, for A; steps using A, B and C get
    none. *)
Theorem C7_placeholder_order :
  (forall headers l i,
     order_check headers l i
     = map (fun ph => order_issue ph l i)
         (out_of_order headers (-1) (placeholders_used (current_steps l))))
  /\ (forall name headers k,
        column_index name headers = Some k ->
        0 <= k /\ headers !! Z.to_nat k = Some name)
  /\ (forall name headers, column_index name headers = None <-> name ∉ headers)
  /\ (forall name headers n,
        NoDup headers -> headers !! n = Some name ->
        column_index name headers = Some (Z.of_nat n))
  /\ (forall i line l,
        truthy_list (examples_headers l) = false ->
        List.filter (has_type "Placeholder Order") (snd (on_table_row i line l))
        = order_check (parse_headers line) l i)
  /\ List.filter (has_type "Placeholder Order")
       (issues (report (scan (plain_checker "standard") "f" outline_B_A fresh)))
     = [mkIssue "Placeholder Order"
          ("Placeholder " +:+ SQ +:+ token "A" +:+ SQ
           +:+ " used out of sequence relative to Examples table column headings")
          3]
  /\ List.filter (has_type "Placeholder Order")
       (issues (report (scan (plain_checker "standard") "f" outline_A_B_C fresh)))
     = [].
Proof.
  split; [|split; [|split; [|split; [|split; [|split]]]]].
  - intros headers l i. unfold order_check.
    destruct (placeholders_used (current_steps l)) as [|ph phs] eqn:E; [done|].
    apply order_walk_out_of_order.
  - intros name headers k H. split.
    + by apply column_index_from_ge in H.
    + apply column_index_from_lookup in H. by rewrite Z.sub_0_r in H.
  - intros name headers. apply column_index_from_None.
  - intros name headers n Hnd Hn.
    by rewrite <- (Z.add_0_l (Z.of_nat n)); apply column_index_from_unique.
  - intros i line l H. unfold on_table_row. rewrite H. cbn [negb snd].
    rewrite List.filter_app.
    rewrite (filter_type_none _ (mismatch_check _ _ _)).
    2:{ eapply Forall_type_ne; [|apply mismatch_check_type]; done. }
    cbn [app]. pose proof (order_check_type (parse_headers line) l i) as Ht.
    induction Ht as [|x xs Hx _ IH]; [done|].
    cbn [List.filter]. unfold has_type at 1. rewrite Hx. cbn. by rewrite IH.
  - vm_compute. reflexivity.
  - vm_compute. reflexivity.
Qed.

(** *** Spans in single quotes *)

(** C5: the pattern returns only spans that open and close with a single
    quote, so that of the three branches on a span only the first is ever
    taken; a line with a span that lacks its closing quote, or its opening
    quote, gets no Invalid Placeholder Syntax issue. *)
Theorem C5_unbalanced_quote_not_reported :
  (forall line,
     Forall (fun bp => startswith bp SQ = true /\ endswith bp SQ = true)
       (findall bad_placeholder_pattern line))
  /\ (forall i line,
        bad_placeholder_check i line
        = map (quoted_issue i) (findall bad_placeholder_pattern line))
  /\ bad_placeholder_check 3 "Given 'name is used" = []
  /\ bad_placeholder_check 4 "Then name' is shown" = []
  /\ issues (report (scan (plain_checker "standard") "f" unbalanced_quotes fresh))
     = [].
Proof.
  split; [apply bad_placeholder_spans|].
  split; [apply bad_placeholder_check_quoted|].
  repeat split; vm_compute; reflexivity.
Qed.

(** *** The line of a placeholder issue *)

Lemma reported_line_first_step ph step rest l i :
  current_steps l = step :: rest ->
  contains step ph = true ->
  reported_line ph l i = scenario_start_line l.
Proof.
  intros Hs Hc. unfold reported_line, step_index. rewrite Hs.
  cbn [step_index_from]. rewrite Hc. reflexivity.
Qed.

(** C2: the line of a placeholder issue is the index of the first
    buffered step with the token, added to the line of the Scenario: for
    a token of the first step, the Scenario line itself.  The step of
    line 3 with an unknown placeholder is reported at line 2, and the
    step of line 4 that uses A after B at line 3. *)
Theorem C2_placeholder_issue_line_before_step :
  (forall ph step rest l i,
     current_steps l = step :: rest ->
     contains step ph = true ->
     line_num (mismatch_issue ph l i) = scenario_start_line l
     /\ line_num (order_issue ph l i) = scenario_start_line l)
  /\ outline_unknown_column !! 2%nat = Some ("Given " +:+ token "x" +:+ " is set")
  /\ issues (report (scan (plain_checker "standard") "f"
                       outline_unknown_column fresh))
     = [mkIssue "Placeholder Mismatch"
          ("Placeholder " +:+ SQ +:+ token "x" +:+ SQ
           +:+ " does not match any column heading in the Examples table (case-sensitive)")
          2]
  /\ outline_B_A !! 3%nat = Some ("When it meets " +:+ token "A")
  /\ map line_num
       (issues (report (scan (plain_checker "standard") "f" outline_B_A fresh)))
     = [3].
Proof.
  split.
  { intros ph step rest l i Hs Hc. cbn [line_num mismatch_issue order_issue].
    by rewrite (reported_line_first_step ph step rest l i Hs Hc). }
  repeat split; vm_compute; reflexivity.
Qed.

(** *** The Drive Cycle check *)

Lemma drive_cycle_check_not_last ft total i line l :
  i <> total ->
  drive_cycle_check ft total i line (fst (classify ft i line l)) = [].
Proof.
  intros Hi. unfold drive_cycle_check.
  destruct (Z.eqb_spec i total); [done|]. cbn [orb].
  destruct (startswith line "Scenario") eqn:Es; [|done].
  unfold classify. rewrite Es.
  destruct (startswith line "Feature") eqn:Ef.
  { apply feature_not_scenario in Ef. congruence. }
  unfold on_scenario.
  destruct (scenario_dict l !! line);
    cbn [fst when_count then_count current_scenario];
    change (0 >? 0) with false; cbn [app].
  all: destruct (true && truthy_str (Some line) && truthy_str (Some line));
    [by destruct (String.eqb ft "drive_cycle")|done].
Qed.

Lemma chain_issue_not_when i : chain_issue i -> is_when_issue i = false.
Proof. intros []; reflexivity. Qed.

Lemma line_issues_when ft total i line l :
  List.filter is_when_issue (snd (line_issues ft total i line l))
  = List.filter is_when_issue
      (drive_cycle_check ft total i line (fst (classify ft i line l))).
Proof.
  unfold line_issues. pose proof (classify_shape ft i line l) as H.
  destruct (classify ft i line l) as [l' chain]. cbn [fst snd] in *.
  rewrite !List.filter_app.
  rewrite (filter_none is_when_issue chain),
    (filter_none is_when_issue (bad_placeholder_check _ _)),
    (filter_none is_when_issue (repeated_check _ _ _)).
  - by rewrite app_nil_r.
  - eapply Forall_impl; [apply repeated_check_shape|]. by intros x [].
  - rewrite bad_placeholder_check_quoted.
    induction (findall _ _) as [|bp bps IH]; simpl; by constructor.
  - eapply Forall_impl; [exact H|]. apply chain_issue_not_when.
Qed.

Lemma drive_cycle_check_when_once ft total i line l :
  (length (List.filter is_when_issue (drive_cycle_check ft total i line l)) <= 1)%nat.
Proof.
  unfold drive_cycle_check.
  destruct (_ && _); [|simpl; lia].
  destruct (String.eqb ft "drive_cycle"); [|simpl; lia].
  destruct (when_count l >? 0); destruct (then_count l >? 0); simpl; lia.
Qed.


Lemma scan_lines_when_once ft total l i lines :
  i + len lines = total + 1 ->
  (length (List.filter is_when_issue (snd (scan_lines ft total l i lines))) <= 1)%nat.
Proof.
  revert l i. induction lines as [|raw rest IH]; intros l i Hi; [simpl; lia|].
  unfold len in Hi. cbn [length] in Hi. cbn [scan_lines].
  destruct (skipped (strip raw)); [apply IH; unfold len; lia|].
  pose proof (line_issues_when ft total i (strip raw) l) as Hw.
  destruct (line_issues ft total i (strip raw) l) as [l' added].
  cbn [fst snd] in *.
  destruct rest as [|raw' rest'].
  - cbn [scan_lines snd]. rewrite app_nil_r, Hw.
    apply drive_cycle_check_when_once.
  - specialize (IH l' (i + 1)).
    destruct (scan_lines ft total l' (i + 1) (raw' :: rest')) as [l'' more].
    cbn [snd] in *. rewrite List.filter_app, Hw.
    rewrite drive_cycle_check_not_last by (cbn [length] in Hi; lia).
    cbn [List.filter app]. apply IH. unfold len. lia.
Qed.

(** C1: the Drive Cycle check runs after the Scenario branch has reset
    the counts, so that it reports a When step only on the last line of
    the document, and only when that line is neither blank nor a
    comment: a document gets at most one such issue whatever the number
    of its scenarios with a When step, and none for a scenario followed
    by another one, or followed by a blank last line.  The Success
    Criteria check, made before the reset, does report the first of the
    two scenarios, at its line 2. *)
Theorem C1_when_check_lost_at_scenario_boundary :
  (forall ft total i line l,
     i <> total ->
     drive_cycle_check ft total i line (fst (classify ft i line l)) = [])
  /\ (forall self file lines now checks,
        (length
           (List.filter is_when_issue
              (issues (report (scan self file lines (TestReport.init now checks)))))
         <= 1)%nat)
  /\ issues (report (scan (plain_checker "drive_cycle") "f"
                       when_then_scenario fresh)) = []
  /\ issues (report (scan (plain_checker "drive_cycle") "f"
                       when_then_blank fresh)) = []
  /\ issues (report (scan (plain_checker "success_criteria") "f"
                       when_then_scenario fresh))
     = [mkIssue "Syntax Error"
          "Success Criteria must have exactly 1 Given, found 0" 2;
        mkIssue "Syntax Error"
          "Success Criteria must have exactly 1 When, found 0" 4].
Proof.
  split; [apply drive_cycle_check_not_last|].
  split.
  { intros self file lines now checks. rewrite scan_issues.
    cbn [issues TestReport.init app]. rewrite List.filter_app, length_app.
    rewrite (filter_none is_when_issue (finish _ _)).
    - pose proof (scan_lines_when_once (GherkinChecker.feature_type self)
                    (len lines) initial 1 lines) as H.
      cbn [length]. lia.
    - unfold finish. apply Forall_app. split.
      + destruct (_ && _); [|constructor].
        eapply Forall_impl; [apply success_criteria_check_shape|].
        apply chain_issue_not_when.
      + destruct (negb _); repeat constructor. }
  repeat split; vm_compute; reflexivity.
Qed.

(** *** Configuration *)

Lemma add_issues_set_feature_type ft l r :
  add_issues l (set_feature_type ft r) = set_feature_type ft (add_issues l r).
Proof.
  revert r. induction l as [|i l IH]; intros r; [done|].
  cbn [add_issues fold_left]. apply (IH (add_issue _ _ _ r)).
Qed.

Lemma add_misspellings_set_feature_type ft l r :
  add_misspellings l (set_feature_type ft r)
  = set_feature_type ft (add_misspellings l r).
Proof.
  revert r. induction l as [|i l IH]; intros r; [done|].
  cbn [add_misspellings fold_left]. apply (IH (add_misspelled _ _ _ r)).
Qed.

(** A tag that is neither of the two variants is scanned as [standard]. *)
Lemma line_issues_plain ft total i line l :
  ft <> "drive_cycle" -> ft <> "success_criteria" ->
  line_issues ft total i line l = line_issues "standard" total i line l.
Proof.
  intros H1 H2.
  apply String.eqb_neq in H1. apply String.eqb_neq in H2.
  unfold line_issues, classify, on_scenario, on_step, drive_cycle_check.
  rewrite H1, H2.
  change (String.eqb "standard" "drive_cycle") with false.
  change (String.eqb "standard" "success_criteria") with false.
  reflexivity.
Qed.

Lemma finish_plain ft l :
  ft <> "drive_cycle" -> ft <> "success_criteria" ->
  finish ft l = finish "standard" l.
Proof.
  intros H1 H2. apply String.eqb_neq in H2. unfold finish. rewrite H2.
  reflexivity.
Qed.

Lemma loop_plain self1 self2 total st1 st2 i lines :
  let ft := GherkinChecker.feature_type self1 in
  ft <> "drive_cycle" -> ft <> "success_criteria" ->
  GherkinChecker.feature_type self2 = "standard" ->
  spellchecker self1 = spellchecker self2 ->
  custom_words self1 = custom_words self2 ->
  spellcheck_enabled self1 = spellcheck_enabled self2 ->
  locals st1 = locals st2 ->
  cache st1 = cache st2 ->
  report st1 = set_feature_type ft (report st2) ->
  locals (loop self1 total st1 i lines) = locals (loop self2 total st2 i lines)
  /\ cache (loop self1 total st1 i lines) = cache (loop self2 total st2 i lines)
  /\ report (loop self1 total st1 i lines)
     = set_feature_type ft (report (loop self2 total st2 i lines)).
Proof.
  intros ft H1 H2 Hs Hsp Hcw Hen. revert st1 st2 i.
  induction lines as [|raw rest IH]; intros st1 st2 i Hl Hc Hr; [done|].
  cbn [loop]. apply IH; unfold loop_body;
    destruct (String.eqb (strip raw) EmptyString || startswith (strip raw) "#");
    try done;
    fold ft; rewrite (line_issues_plain ft) by done; rewrite Hs, Hl;
    destruct (line_issues "standard" total i (strip raw) (locals st2))
      as [l' added];
    unfold spellcheck; rewrite Hsp, Hcw, Hen, Hc;
    match goal with
    | |- context [match ?x with (_, _) => _ end] => destruct x as [cache' missp]
    end; cbn [locals cache report]; try done.
  rewrite Hr, add_issues_set_feature_type, add_misspellings_set_feature_type.
  done.
Qed.

(** C9, as the code has it: a report format other than [text] and [json]
    raises [ValueError] with a message that names the format, and the
    report, which the method only reads, is as before; a feature-type tag
    is not validated: a tag that is neither [drive_cycle] nor
    [success_criteria] is accepted, and the scan succeeds with the report
    and the cache of the [standard] rules, the tag being recorded in the
    report as it came. *)
Theorem C9_unsupported_format_raises_unknown_tag_is_standard
    (fmt ft file : string) (r rep : TestReport.t)
    (enchant_dict spellchecker : option Dict)
    (spell_cache : option (gmap string (list string)))
    (custom_words : option (gset string)) (enabled : bool)
    (lines : list string) :
  fmt <> "text" -> fmt <> "json" ->
  ft <> "drive_cycle" -> ft <> "success_criteria" ->
  let out :=
    process_file
      (GherkinChecker.init enchant_dict spellchecker spell_cache custom_words
         ft enabled)
      file (Some lines) rep in
  let std :=
    process_file
      (GherkinChecker.init enchant_dict spellchecker spell_cache custom_words
         "standard" enabled)
      file (Some lines) rep in
  generate_report fmt r = Raise (ValueError ("Unsupported report format: " +:+ fmt))
  /\ out.1.1 = true
  /\ GherkinChecker.feature_type out.1.2 = ft
  /\ GherkinChecker.spell_cache out.1.2 = GherkinChecker.spell_cache std.1.2
  /\ out.2 = set_feature_type ft std.2.
Proof.
  intros Hf1 Hf2 H1 H2 out std. split.
  { unfold generate_report.
    apply String.eqb_neq in Hf1. apply String.eqb_neq in Hf2.
    by rewrite Hf1, Hf2. }
  split; [done|]. split; [done|].
  unfold out, std, process_file, scan.
  cbn [fst snd GherkinChecker.spell_cache cache report locals].
  set (self1 := GherkinChecker.init _ _ _ _ ft _).
  set (self2 := GherkinChecker.init _ _ _ _ "standard" _).
  destruct (loop_plain self1 self2 (len lines)
              (mkScan initial (GherkinChecker.spell_cache self1)
                 (set_feature_type (GherkinChecker.feature_type self1) rep))
              (mkScan initial (GherkinChecker.spell_cache self2)
                 (set_feature_type (GherkinChecker.feature_type self2) rep))
              1 lines) as (Hl & Hc & Hr); try done.
  split; [exact Hc|].
  rewrite Hl, Hr.
  change (GherkinChecker.feature_type self1) with ft.
  change (GherkinChecker.feature_type self2) with "standard".
  rewrite (finish_plain ft) by done.
  rewrite add_issues_set_feature_type. reflexivity.
Qed.

(** An instance: the format [xml] and the tag [bogus]. *)
Lemma C9_unsupported_format_raises_unknown_tag_is_standard_witness :
  let out :=
    process_file (GherkinChecker.init None None None None "bogus" true)
      "f" (Some when_then_scenario) fresh in
  let std :=
    process_file (GherkinChecker.init None None None None "standard" true)
      "f" (Some when_then_scenario) fresh in
  generate_report "xml" fresh
  = Raise (ValueError ("Unsupported report format: " +:+ "xml"))
  /\ out.1.1 = true
  /\ GherkinChecker.feature_type out.1.2 = "bogus"
  /\ GherkinChecker.spell_cache out.1.2 = GherkinChecker.spell_cache std.1.2
  /\ out.2 = set_feature_type "bogus" std.2.
Proof.
  apply (C9_unsupported_format_raises_unknown_tag_is_standard
           "xml" "bogus" "f" fresh fresh None None None None true
           when_then_scenario); discriminate.
Defined.

(** C9, as stated, fails: the tag [bogus] is no feature type, yet a
    checker is built with it, the scan of a document succeeds, and the
    report is generated, with the tag recorded in it. *)
Lemma C9_unknown_tag_is_accepted :
  let self := GherkinChecker.init None None None None "bogus" true in
  let out := process_file self "f" (Some when_then_scenario) fresh in
  GherkinChecker.feature_type self = "bogus"
  /\ out.1.1 = true
  /\ TestReport.feature_type out.2 = "bogus"
  /\ issues out.2 = []
  /\ exists content, generate_report "text" out.2 = Return (Text content).
Proof.
  repeat split; try (vm_compute; reflexivity).
  eexists. vm_compute. reflexivity.
Qed.

(** *** Custom words and the cache *)

Lemma check_word_custom d custom i w acc w' :
  w ∈ custom ->
  no_suggestions w acc.1 ->
  Forall (fun m => word m <> w) acc.2 ->
  no_suggestions w (check_word d custom i acc w').1
  /\ Forall (fun m => word m <> w) (check_word d custom i acc w').2.
Proof.
  intros Hw Hc Hf. destruct acc as [cache found]. cbn [fst snd] in *.
  unfold check_word, no_suggestions in *.
  destruct (decide (w' = w)) as [->|Hne].
  - destruct Hc as [Hc|Hc]; rewrite Hc; cbn [fst snd].
    + rewrite bool_decide_eq_true_2 by done. cbn [fst snd]. auto.
    + auto.
  - destruct (cache !! w') as [[|x xs]|] eqn:E; cbn [fst snd].
    + auto.
    + split; [done|]. apply Forall_app. split; [done|]. by repeat constructor.
    + destruct (bool_decide (w' ∈ custom)); cbn [fst snd]; [auto|].
      destruct (negb (check d w')); cbn [fst snd];
        rewrite lookup_insert_ne by done; (split; [done|]); [|done].
      apply Forall_app. split; [done|]. by repeat constructor.
Qed.

Lemma check_words_custom d custom i w ws acc :
  w ∈ custom ->
  no_suggestions w acc.1 ->
  Forall (fun m => word m <> w) acc.2 ->
  no_suggestions w (fold_left (check_word d custom i) ws acc).1
  /\ Forall (fun m => word m <> w) (fold_left (check_word d custom i) ws acc).2.
Proof.
  intros Hw. revert acc. induction ws as [|w' ws IH]; intros acc Hc Hf; [done|].
  cbn [fold_left].
  destruct (check_word_custom d custom i w acc w' Hw Hc Hf) as [H1 H2].
  by apply IH.
Qed.

Lemma spellcheck_custom self cache i line w :
  w ∈ custom_words self ->
  no_suggestions w cache ->
  no_suggestions w (spellcheck self cache i line).1
  /\ Forall (fun m => word m <> w) (spellcheck self cache i line).2.
Proof.
  intros Hw Hc. unfold spellcheck.
  destruct (spellchecker self) as [d|]; [|by split].
  destruct (spellcheck_enabled self && negb (startswith line "#")); [|by split].
  by apply check_words_custom.
Qed.

Lemma loop_body_misspelled self total st i raw :
  misspelled_words (report (loop_body self total st i raw))
  = misspelled_words (report st)
    ++ (if skipped (strip raw) then []
        else (spellcheck self (cache st) i (strip raw)).2)
  /\ cache (loop_body self total st i raw)
     = (if skipped (strip raw) then cache st
        else (spellcheck self (cache st) i (strip raw)).1).
Proof.
  unfold loop_body. fold (skipped (strip raw)).
  destruct (skipped (strip raw)); [by rewrite app_nil_r|].
  destruct (line_issues _ total i (strip raw) (locals st)) as [l' added].
  destruct (spellcheck self (cache st) i (strip raw)) as [cache' missp].
  cbn [report cache fst snd].
  by rewrite add_misspellings_misspelled, add_issues_misspelled.
Qed.

Lemma loop_custom self total st i lines w :
  w ∈ custom_words self ->
  no_suggestions w (cache st) ->
  Forall (fun m => word m <> w) (misspelled_words (report st)) ->
  no_suggestions w (cache (loop self total st i lines))
  /\ Forall (fun m => word m <> w)
       (misspelled_words (report (loop self total st i lines))).
Proof.
  intros Hw. revert st i.
  induction lines as [|raw rest IH]; intros st i Hc Hf; [done|].
  cbn [loop]. destruct (loop_body_misspelled self total st i raw) as [H1 H2].
  destruct (spellcheck_custom self (cache st) i (strip raw) w Hw Hc) as [H3 H4].
  apply IH.
  - rewrite H2. by destruct (skipped (strip raw)).
  - rewrite H1. apply Forall_app. split; [done|].
    destruct (skipped (strip raw)); [constructor|done].
Qed.

(** C3, as the code has it: the cache is consulted before the set of
    custom words.  A custom word for which the cache holds no suggestions
    when the scan starts is reported on no line, and the cache holds none
    for it when the scan ends. *)
Theorem C3_custom_word_without_cached_suggestions
    (self : GherkinChecker.t) (file : string) (lines : list string)
    (now : string) (checks : option (gmap string bool)) (w : string) :
  w ∈ custom_words self ->
  no_suggestions w (spell_cache self) ->
  let result := scan self file lines (TestReport.init now checks) in
  Forall (fun m => word m <> w) (misspelled_words (report result))
  /\ no_suggestions w (cache result).
Proof.
  intros Hw Hc result. unfold result, scan. cbn [report cache].
  destruct (loop_custom self (len lines)
              (mkScan initial (spell_cache self)
                 (set_feature_type (GherkinChecker.feature_type self)
                    (TestReport.init now checks)))
              1 lines w Hw Hc) as [H1 H2]; [constructor|].
  split; [|done]. cbn [misspelled_words set_filename update_stats].
  by rewrite add_issues_misspelled.
Qed.

(** An instance: the custom word [gherkin], an empty cache, and a line
    with that word and a misspelled one. *)
Lemma C3_custom_word_without_cached_suggestions_witness :
  Forall (fun m => word m <> "gherkin")
    (misspelled_words
       (report
          (scan (GherkinChecker.init None (Some rejecting_speeed) None
                   (Some {[ "gherkin" ]}) "standard" true)
             "f" ["Feature: gherkin speeed"] fresh)))
  /\ no_suggestions "gherkin"
       (cache
          (scan (GherkinChecker.init None (Some rejecting_speeed) None
                   (Some {[ "gherkin" ]}) "standard" true)
             "f" ["Feature: gherkin speeed"] fresh)).
Proof.
  apply (C3_custom_word_without_cached_suggestions
           (GherkinChecker.init None (Some rejecting_speeed) None
              (Some {[ "gherkin" ]}) "standard" true)
           "f" ["Feature: gherkin speeed"] "2026-01-01 09:00:00 AM" None
           "gherkin").
  - vm_compute. reflexivity.
  - left. vm_compute. reflexivity.
Defined.

(** C3, as stated, fails: a custom word that the cache holds with a
    suggestion is reported, from the cache, although the spellchecker
    accepts every word. *)
Lemma C3_cached_custom_word_is_reported :
  "gherkin" ∈ custom_words cached_custom_checker
  /\ misspelled_words
       (report (scan cached_custom_checker "f" ["Feature: gherkin"] fresh))
     = [mkMisspelled "gherkin" 1 ["gherkins"]].
Proof.
  split; vm_compute; reflexivity.
Qed.

(** *** Table rows of an Examples block *)

Lemma filter_all {A} (f : A -> bool) (l : list A) :
  Forall (fun x => f x = true) l -> List.filter f l = l.
Proof.
  induction 1 as [|x l Hx _ IH]; simpl; [done|]. by rewrite Hx, IH.
Qed.

Lemma chain_issue_not_repeated x :
  chain_issue x -> issue_type x <> "Repeated Word".
Proof. intros []; discriminate. Qed.

Lemma classify_in_examples_row ft i line l :
  startswith line "|" = true ->
  in_examples (fst (classify ft i line l)) = in_examples l.
Proof.
  destruct line as [|c r]; [done|]. cbn [startswith].
  rewrite andb_true_r. intros ->%Ascii.eqb_eq.
  unfold classify.
  change (startswith (String "|" r) "Feature") with false.
  change (startswith (String "|" r) "Scenario") with false.
  change (startswith (String "|" r) "Examples") with false.
  cbv iota.
  destruct (in_examples l && startswith (String "|" r) "|").
  { unfold on_table_row. by destruct (negb _). }
  by destruct (existsb _ _).
Qed.

Lemma line_issues_repeated ft total i line l :
  List.filter (has_type "Repeated Word") (snd (line_issues ft total i line l))
  = if in_examples l && startswith line "|" then []
    else repeated_pairs i (findall word_pattern (masked line)).
Proof.
  unfold line_issues. pose proof (classify_shape ft i line l) as H.
  pose proof (classify_in_examples_row ft i line l) as Hrow.
  destruct (classify ft i line l) as [l' chain]. cbn [fst snd] in *.
  rewrite !List.filter_app.
  rewrite (filter_type_none _ chain),
    (filter_type_none _ (drive_cycle_check _ _ _ _ _)),
    (filter_type_none _ (bad_placeholder_check _ _)).
  - cbn [app]. rewrite filter_all.
    2:{ eapply Forall_impl; [apply repeated_check_type|].
        intros x Hx. unfold has_type. rewrite Hx. reflexivity. }
    unfold repeated_check.
    destruct (startswith line "|") eqn:E.
    + rewrite Hrow by done. by destruct (in_examples l).
    + by rewrite !andb_false_r.
  - eapply Forall_type_ne; [|apply bad_placeholder_check_type]; done.
  - eapply Forall_type_ne; [|apply drive_cycle_check_type]; done.
  - eapply Forall_impl; [exact H|]. apply chain_issue_not_repeated.
Qed.

Lemma loop_body_repeated self total st i raw :
  List.filter (has_type "Repeated Word")
    (issues (report (loop_body self total st i raw)))
  = List.filter (has_type "Repeated Word") (issues (report st))
    ++ (if skipped (strip raw)
           || (in_examples (locals st) && startswith (strip raw) "|")
        then []
        else repeated_pairs i (findall word_pattern (masked (strip raw)))).
Proof.
  unfold loop_body. fold (skipped (strip raw)).
  destruct (skipped (strip raw)); [by rewrite app_nil_r|].
  pose proof (line_issues_repeated (GherkinChecker.feature_type self) total i
                (strip raw) (locals st)) as H.
  destruct (line_issues _ total i (strip raw) (locals st)) as [l' added].
  destruct (spellcheck self (cache st) i (strip raw)) as [cache' missp].
  cbn [report snd orb] in *.
  by rewrite add_misspellings_issues, add_issues_issues, List.filter_app, H.
Qed.

(** C4, as the code has it: a line of the loop adds the Repeated Word
    issues of its adjacent words unless it is blank, a comment, or a
    table row inside an Examples block, which add none; the spellcheck
    has no such exemption: every line that is neither blank nor a comment
    adds what the spellcheck finds on it, a table row inside an Examples
    block as any other.  The rows of lines 5 and 6, with a word written
    twice, get no Repeated Word issue. *)
Theorem C4_table_rows_exempt_from_repeated_words_only :
  (forall self total st i raw,
     List.filter (has_type "Repeated Word")
       (issues (report (loop_body self total st i raw)))
     = List.filter (has_type "Repeated Word") (issues (report st))
       ++ (if skipped (strip raw)
              || (in_examples (locals st) && startswith (strip raw) "|")
           then []
           else repeated_pairs i (findall word_pattern (masked (strip raw)))))
  /\ (forall self total st i raw,
        misspelled_words (report (loop_body self total st i raw))
        = misspelled_words (report st)
          ++ (if skipped (strip raw) then []
              else (spellcheck self (cache st) i (strip raw)).2))
  /\ issues
       (report
          (scan (GherkinChecker.init None (Some rejecting_speeed) None None
                   "standard" true)
             "f" outline_misspelled_row fresh))
     = [].
Proof.
  split; [apply loop_body_repeated|].
  split; [intros; apply loop_body_misspelled|].
  vm_compute. reflexivity.
Qed.

(** C4, as stated, fails: the table rows of lines 5 and 6, inside the
    Examples block, each get a Misspelling for the word they hold. *)
Lemma C4_table_row_is_spellchecked :
  outline_misspelled_row !! 3%nat = Some "Examples:"
  /\ outline_misspelled_row !! 4%nat = Some "| speeed speeed |"
  /\ outline_misspelled_row !! 5%nat = Some "| speeed speeed |"
  /\ misspelled_words
       (report
          (scan (GherkinChecker.init None (Some rejecting_speeed) None None
                   "standard" true)
             "f" outline_misspelled_row fresh))
     = [mkMisspelled "speeed" 5 ["speed"]; mkMisspelled "speeed" 6 ["speed"]].
Proof.
  repeat split; vm_compute; reflexivity.
Qed.


(** ** Further properties of the report *)

Lemma add_misspellings_snoc l m r :
  add_misspellings (l ++ [m]) r
  = add_misspelled (word m) (word_line m) (suggestions m) (add_misspellings l r).
Proof. unfold add_misspellings. by rewrite fold_left_app. Qed.

Lemma get_total_errors_misspelled_off r w ln sugg :
  enabled_checks r !! "misspelled" = Some false ->
  get_total_errors (add_misspelled w ln sugg r) = get_total_errors r.
Proof.
  intros H. unfold get_total_errors, getitem, of_type, syntax_with.
  cbn [add_misspelled enabled_checks issues TestReport.feature_type].
  rewrite H. reflexivity.
Qed.

Lemma generate_report_misspelled_off fmt r w ln sugg :
  enabled_checks r !! "misspelled" = Some false ->
  generate_report fmt (add_misspelled w ln sugg r) = generate_report fmt r.
Proof.
  intros H. unfold generate_report, text_report, json_report.
  rewrite (get_total_errors_misspelled_off r w ln sugg H).
  unfold getitem, of_type, syntax_with.
  cbn [add_misspelled enabled_checks issues TestReport.feature_type
       timestamp filename stats].
  rewrite H. reflexivity.
Qed.

(** X1: with the misspelled check turned off, the misspellings a report
    holds change neither its total nor what it generates, in either
    format. *)
Theorem misspellings_ignored_when_disabled
    (r : TestReport.t) (found : list Misspelled) (fmt : string) :
  enabled_checks r !! "misspelled" = Some false ->
  get_total_errors (add_misspellings found r) = get_total_errors r
  /\ generate_report fmt (add_misspellings found r) = generate_report fmt r.
Proof.
  intros H. induction found as [|m found IH] using rev_ind; [done|].
  rewrite add_misspellings_snoc.
  assert (enabled_checks (add_misspellings found r) !! "misspelled" = Some false)
    as H'.
  { clear IH. revert r H. induction found as [|x xs IHx]; intros r H; [done|].
    cbn [add_misspellings fold_left]. apply IHx. exact H. }
  rewrite get_total_errors_misspelled_off, generate_report_misspelled_off by done.
  exact IH.
Qed.

(** An instance: the default checks without the misspelled one, and two
    misspellings. *)
Lemma misspellings_ignored_when_disabled_witness :
  get_total_errors
    (add_misspellings
       [mkMisspelled "speeed" 3 ["speed"]; mkMisspelled "teh" 4 []]
       (TestReport.init "now" (Some misspelled_off)))
  = get_total_errors (TestReport.init "now" (Some misspelled_off))
  /\ generate_report "text"
       (add_misspellings
          [mkMisspelled "speeed" 3 ["speed"]; mkMisspelled "teh" 4 []]
          (TestReport.init "now" (Some misspelled_off)))
     = generate_report "text" (TestReport.init "now" (Some misspelled_off)).
Proof.
  apply (misspellings_ignored_when_disabled
           (TestReport.init "now" (Some misspelled_off))
           [mkMisspelled "speeed" 3 ["speed"]; mkMisspelled "teh" 4 []]
           "text").
  vm_compute. reflexivity.
Defined.

Lemma map_len {A B} (f : A -> B) (l : list A) : len (map f l) = len l.
Proof. unfold len. by rewrite length_map. Qed.

Lemma len_if {A} (c : bool) (l : list A) :
  len (if c then l else []) = if c then len l else 0.
Proof. by destruct c. Qed.

(** X2: when the configuration has its nine entries, the structured
    report is produced, and its [total_errors] is the number of entries of
    its arrays, taken together. *)
Theorem json_total_is_number_of_entries (r : TestReport.t) :
  complete (enabled_checks r) ->
  exists j,
    generate_report "json" r = Return (Json j)
    /\ json_total_errors j = json_entries j
    /\ get_total_errors r = Return (json_total_errors j).
Proof.
  intros Hc. pose proof (get_total_errors_sum r Hc) as Ht.
  unfold complete, check_names in Hc. rewrite !Forall_cons in Hc.
  destruct Hc as ([c1 H1] & [c2 H2] & [c3 H3] & [c4 H4] & [c5 H5] & [c6 H6]
                  & [c7 H7] & [c8 H8] & [c9 H9] & _).
  unfold generate_report. change (String.eqb "json" "text") with false.
  change (String.eqb "json" "json") with true. cbv iota.
  unfold json_report. rewrite Ht. unfold getitem.
  rewrite H1, H2, H3, H4, H5, H6, H7, H8, H9.
  eexists. split; [reflexivity|]. split; [|reflexivity].
  unfold json_entries, total_sum, enabled.
  cbn [json_total_errors json_misspelled_words json_syntax_errors
       json_placeholder_mismatches json_placeholder_orders
       json_invalid_placeholders json_repeated_words json_drive_cycle_errors
       json_success_criteria_errors json_duplicate_scenarios].
  rewrite H1, H2, H3, H4, H5, H6, H7, H8, H9. cbn [default from_option id].
  rewrite !len_if, !map_len. lia.
Qed.

(** An instance: a report with the default checks. *)
Lemma json_total_is_number_of_entries_witness :
  exists j,
    generate_report "json" fresh = Return (Json j)
    /\ json_total_errors j = json_entries j
    /\ get_total_errors fresh = Return (json_total_errors j).
Proof.
  apply (json_total_is_number_of_entries fresh).
  unfold complete, check_names.
  repeat (apply List.Forall_cons; [eexists; vm_compute; reflexivity|]).
  apply List.Forall_nil.
Defined.

Lemma get_total_errors_first_missing r :
  get_total_errors r
  = match first_missing (enabled_checks r) with
    | Some k => Raise (KeyError k)
    | None => Return (total_sum r)
    end.
Proof.
  unfold get_total_errors, first_missing, check_names, total_sum, enabled,
    getitem. cbn [find].
  destruct (enabled_checks r !! "misspelled"); [|reflexivity].
  destruct (enabled_checks r !! "syntax"); [|reflexivity].
  destruct (enabled_checks r !! "placeholder_mismatch"); [|reflexivity].
  destruct (enabled_checks r !! "placeholder_order"); [|reflexivity].
  destruct (enabled_checks r !! "invalid_placeholder"); [|reflexivity].
  destruct (enabled_checks r !! "repeated_word"); [|reflexivity].
  destruct (enabled_checks r !! "drive_cycle"); [|reflexivity].
  destruct (enabled_checks r !! "success_criteria"); [|reflexivity].
  destruct (enabled_checks r !! "duplicate_scenario"); [|reflexivity].
  simpl. rewrite !add_if. f_equal; lia.
Qed.

Lemma add_issues_enabled_checks l r :
  enabled_checks (add_issues l r) = enabled_checks r.
Proof. revert r. induction l as [|i l IH]; intros r; simpl; [done|by rewrite IH]. Qed.

Lemma add_misspellings_enabled_checks l r :
  enabled_checks (add_misspellings l r) = enabled_checks r.
Proof. revert r. induction l as [|i l IH]; intros r; simpl; [done|by rewrite IH]. Qed.

Lemma loop_enabled_checks self total st i lines :
  enabled_checks (report (loop self total st i lines))
  = enabled_checks (report st).
Proof.
  revert st i. induction lines as [|raw rest IH]; intros st i; [done|].
  cbn [loop]. rewrite IH. unfold loop_body.
  destruct (String.eqb (strip raw) EmptyString || startswith (strip raw) "#");
    [done|].
  destruct (line_issues _ total i (strip raw) (locals st)) as [l' added].
  destruct (spellcheck self (cache st) i (strip raw)) as [cache' missp].
  cbn [report].
  by rewrite add_misspellings_enabled_checks, add_issues_enabled_checks.
Qed.

Lemma scan_enabled_checks self file lines rep :
  enabled_checks (report (scan self file lines rep)) = enabled_checks rep.
Proof.
  unfold scan. cbn [report set_filename update_stats enabled_checks].
  by rewrite add_issues_enabled_checks, loop_enabled_checks.
Qed.

(** X3: a configuration that lacks the entry of a check makes
    [get_total_errors] raise a key error for the first check without an
    entry, in the order in which the checks are read, and so does
    [generate_report] in both formats; with every entry present the total
    is returned.  A report created without a configuration, or with an
    empty one, has the nine entries, and keeps them through a scan. *)
Theorem key_error_for_first_missing_check :
  (forall r,
     get_total_errors r
     = match first_missing (enabled_checks r) with
       | Some k => Raise (KeyError k)
       | None => Return (total_sum r)
       end)
  /\ (forall r k,
        first_missing (enabled_checks r) = Some k ->
        generate_report "text" r = Raise (KeyError k)
        /\ generate_report "json" r = Raise (KeyError k))
  /\ (forall self file lines now checks,
        checks = None \/ checks = Some ∅ ->
        first_missing
          (enabled_checks
             (report (scan self file lines (TestReport.init now checks))))
        = None)
  /\ first_missing {[ "syntax" := true ]} = Some "misspelled".
Proof.
  split; [apply get_total_errors_first_missing|].
  split.
  { intros r k H. unfold generate_report, text_report, json_report.
    rewrite get_total_errors_first_missing, H. split; reflexivity. }
  split; [|vm_compute; reflexivity].
  intros self file lines now checks [->| ->]; rewrite scan_enabled_checks;
    vm_compute; reflexivity.
Qed.

(** ** Further properties of the spellcheck *)

Lemma check_word_cache_kept d custom i acc w' w v :
  acc.1 !! w = Some v -> (check_word d custom i acc w').1 !! w = Some v.
Proof.
  destruct acc as [cache found]. cbn [fst]. intros H. unfold check_word.
  destruct (cache !! w') as [[|x xs]|] eqn:E; [done|done|].
  assert (w' <> w) by congruence.
  destruct (bool_decide (w' ∈ custom)); [done|].
  destruct (negb (check d w')); cbn [fst]; by rewrite lookup_insert_ne.
Qed.

Lemma check_word_consistent d custom i acc w' :
  Forall (fun m => acc.1 !! word m = Some (suggestions m)) acc.2 ->
  Forall (fun m => (check_word d custom i acc w').1 !! word m
                   = Some (suggestions m))
    (check_word d custom i acc w').2.
Proof.
  intros H.
  assert (Forall (fun m => (check_word d custom i acc w').1 !! word m
                           = Some (suggestions m)) acc.2) as Hold.
  { eapply Forall_impl; [exact H|]. intros m Hm.
    by apply check_word_cache_kept. }
  destruct acc as [cache found]. cbn [fst snd] in *. unfold check_word in *.
  destruct (cache !! w') as [[|x xs]|] eqn:E; cbn [fst snd] in *; [done| |].
  - apply Forall_app. split; [done|]. by repeat constructor.
  - destruct (bool_decide (w' ∈ custom)); [done|].
    destruct (negb (check d w')); cbn [fst snd] in *; [|done].
    apply Forall_app. split; [done|]. repeat constructor.
    cbn [word suggestions]. by rewrite lookup_insert_eq.
Qed.

Lemma check_words_cache d custom i ws acc :
  (forall w v, acc.1 !! w = Some v ->
               (fold_left (check_word d custom i) ws acc).1 !! w = Some v)
  /\ (Forall (fun m => acc.1 !! word m = Some (suggestions m)) acc.2 ->
      Forall (fun m => (fold_left (check_word d custom i) ws acc).1 !! word m
                       = Some (suggestions m))
        (fold_left (check_word d custom i) ws acc).2)
  /\ exists more, (fold_left (check_word d custom i) ws acc).2 = acc.2 ++ more.
Proof.
  revert acc. induction ws as [|w' ws IH]; intros acc.
  { repeat split; try done. exists []. by rewrite app_nil_r. }
  cbn [fold_left]. destruct (IH (check_word d custom i acc w')) as (H1 & H2 & H3).
  split; [|split].
  - intros w v H. apply H1. by apply check_word_cache_kept.
  - intros H. apply H2. by apply check_word_consistent.
  - destruct H3 as [more ->]. destruct acc as [cache found].
    unfold check_word. cbn [snd].
    destruct (cache !! w') as [[|x xs]|]; cbn [snd]; eauto.
    + rewrite <- app_assoc. eauto.
    + destruct (bool_decide (w' ∈ custom)); cbn [snd]; eauto.
      destruct (negb (check d w')); cbn [snd]; eauto.
      rewrite <- app_assoc. eauto.
Qed.

Lemma spellcheck_cache self cache i line :
  (forall w v, cache !! w = Some v ->
               (spellcheck self cache i line).1 !! w = Some v)
  /\ Forall (fun m => (spellcheck self cache i line).1 !! word m
                      = Some (suggestions m))
       (spellcheck self cache i line).2.
Proof.
  unfold spellcheck.
  destruct (spellchecker self) as [d|]; [|by split].
  destruct (spellcheck_enabled self && negb (startswith line "#")); [|by split].
  destruct (check_words_cache d (custom_words self) i
              (elements (words_to_check line)) (cache, [])) as (H1 & H2 & _).
  split; [exact H1|]. apply H2. constructor.
Qed.

Lemma loop_cache self total st i lines :
  (forall w v, cache st !! w = Some v ->
               cache (loop self total st i lines) !! w = Some v)
  /\ (Forall (fun m => cache st !! word m = Some (suggestions m))
        (misspelled_words (report st)) ->
      Forall (fun m => cache (loop self total st i lines) !! word m
                       = Some (suggestions m))
        (misspelled_words (report (loop self total st i lines)))).
Proof.
  revert st i. induction lines as [|raw rest IH]; intros st i; [done|].
  cbn [loop].
  destruct (IH (loop_body self total st i raw) (i + 1)) as [IH1 IH2].
  destruct (loop_body_misspelled self total st i raw) as [Hm Hc].
  destruct (spellcheck_cache self (cache st) i (strip raw)) as [Hs1 Hs2].
  assert (forall w v, cache st !! w = Some v ->
                      cache (loop_body self total st i raw) !! w = Some v)
    as Hk.
  { intros w v H. rewrite Hc. destruct (skipped (strip raw)); [done|].
    by apply Hs1. }
  split.
  - intros w v H. apply IH1. by apply Hk.
  - intros H. apply IH2. rewrite Hm. apply Forall_app. split.
    + eapply Forall_impl; [exact H|]. intros m Hm'. by apply Hk.
    + rewrite Hc. destruct (skipped (strip raw)); [constructor|done].
Qed.

Lemma scan_misspelled self file lines rep :
  misspelled_words (report (scan self file lines rep))
  = misspelled_words
      (report (loop self (len lines)
                 (mkScan initial (spell_cache self)
                    (set_feature_type (GherkinChecker.feature_type self) rep))
                 1 lines)).
Proof.
  unfold scan. cbn [report misspelled_words set_filename update_stats].
  by rewrite add_issues_misspelled.
Qed.

(** X4: a scan only adds entries to the spell cache, and changes none:
    what the cache held for a word before, it holds after; and for every
    misspelling of the report the cache holds, after the scan, the very
    suggestions reported. *)
Theorem cache_grows_and_agrees_with_report
    (self : GherkinChecker.t) (file : string) (lines : list string)
    (now : string) (checks : option (gmap string bool)) :
  let result := scan self file lines (TestReport.init now checks) in
  (forall w v, spell_cache self !! w = Some v -> cache result !! w = Some v)
  /\ Forall (fun m => cache result !! word m = Some (suggestions m))
       (misspelled_words (report result)).
Proof.
  intros result. unfold result. rewrite scan_misspelled. unfold scan.
  cbn [cache].
  destruct (loop_cache self (len lines)
              (mkScan initial (spell_cache self)
                 (set_feature_type (GherkinChecker.feature_type self)
                    (TestReport.init now checks)))
              1 lines) as [H1 H2].
  split; [exact H1|]. apply H2. constructor.
Qed.

Lemma check_word_quiet d custom i acc w' w :
  acc.1 !! w = Some [] ->
  Forall (fun m => word m <> w) acc.2 ->
  Forall (fun m => word m <> w) (check_word d custom i acc w').2.
Proof.
  destruct acc as [cache found]. cbn [fst snd]. intros Hc Hf.
  unfold check_word.
  destruct (cache !! w') as [[|x xs]|] eqn:E; cbn [snd]; [done| |].
  - apply Forall_app. split; [done|]. repeat constructor.
    cbn [word]. congruence.
  - destruct (bool_decide (w' ∈ custom)); [done|].
    destruct (negb (check d w')); cbn [snd]; [|done].
    apply Forall_app. split; [done|]. repeat constructor.
    cbn [word]. congruence.
Qed.

Lemma check_words_quiet d custom i ws acc w :
  acc.1 !! w = Some [] ->
  Forall (fun m => word m <> w) acc.2 ->
  Forall (fun m => word m <> w) (fold_left (check_word d custom i) ws acc).2.
Proof.
  revert acc. induction ws as [|w' ws IH]; intros acc Hc Hf; [done|].
  cbn [fold_left]. apply IH.
  - by apply check_word_cache_kept.
  - by apply check_word_quiet.
Qed.

Lemma spellcheck_quiet self cache i line w :
  cache !! w = Some [] ->
  Forall (fun m => word m <> w) (spellcheck self cache i line).2.
Proof.
  intros Hc. unfold spellcheck.
  destruct (spellchecker self) as [d|]; [|constructor].
  destruct (spellcheck_enabled self && negb (startswith line "#"));
    [|constructor].
  apply check_words_quiet; [done|constructor].
Qed.

Lemma loop_quiet self total st i lines w :
  cache st !! w = Some [] ->
  Forall (fun m => word m <> w) (misspelled_words (report st)) ->
  Forall (fun m => word m <> w)
    (misspelled_words (report (loop self total st i lines))).
Proof.
  revert st i. induction lines as [|raw rest IH]; intros st i Hc Hf; [done|].
  cbn [loop]. destruct (loop_body_misspelled self total st i raw) as [Hm Hk].
  destruct (spellcheck_cache self (cache st) i (strip raw)) as [Hs _].
  apply IH.
  - rewrite Hk. destruct (skipped (strip raw)); [done|]. by apply Hs.
  - rewrite Hm. apply Forall_app. split; [done|].
    destruct (skipped (strip raw)); [constructor|].
    by apply spellcheck_quiet.
Qed.

(** X5: an empty list in the cache reads as a correct word: a word the
    cache holds with no suggestion when the scan starts is reported on no
    line, whatever the spellchecker says of it. *)
Theorem cached_as_correct_never_reported
    (self : GherkinChecker.t) (file : string) (lines : list string)
    (now : string) (checks : option (gmap string bool)) (w : string) :
  spell_cache self !! w = Some [] ->
  Forall (fun m => word m <> w)
    (misspelled_words
       (report (scan self file lines (TestReport.init now checks)))).
Proof.
  intros Hc. rewrite scan_misspelled. apply loop_quiet; [exact Hc|constructor].
Qed.

(** An instance: the spellchecker rejects a word that the cache holds as
    correct. *)
Lemma cached_as_correct_never_reported_witness :
  Forall (fun m => word m <> "speeed")
    (misspelled_words
       (report
          (scan (GherkinChecker.init None (Some rejecting_speeed)
                   (Some {[ "speeed" := [] ]}) None "standard" true)
             "f" ["Feature: speeed"] fresh))).
Proof.
  apply (cached_as_correct_never_reported
           (GherkinChecker.init None (Some rejecting_speeed)
              (Some {[ "speeed" := [] ]}) None "standard" true)
           "f" ["Feature: speeed"] "2026-01-01 09:00:00 AM" None "speeed").
  vm_compute. reflexivity.
Defined.

Lemma loop_spellcheck_off self total st i lines :
  spellchecker self = None \/ spellcheck_enabled self = false ->
  misspelled_words (report (loop self total st i lines))
  = misspelled_words (report st)
  /\ cache (loop self total st i lines) = cache st.
Proof.
  intros Hoff. revert st i.
  induction lines as [|raw rest IH]; intros st i; [done|].
  cbn [loop]. destruct (IH (loop_body self total st i raw) (i + 1)) as [-> ->].
  destruct (loop_body_misspelled self total st i raw) as [-> ->].
  assert (spellcheck self (cache st) i (strip raw) = (cache st, [])) as ->.
  { unfold spellcheck. destruct Hoff as [-> | ->]; [done|].
    by destruct (spellchecker self). }
  cbn [fst snd]. destruct (skipped (strip raw)); by rewrite app_nil_r.
Qed.

(** X6: without a spellchecker, or with the spellcheck switched off, a
    scan reports no misspelling and leaves the cache as it was. *)
Theorem no_spellcheck_no_misspelling_no_cache_write
    (self : GherkinChecker.t) (file : string) (lines : list string)
    (rep : TestReport.t) :
  spellchecker self = None \/ spellcheck_enabled self = false ->
  misspelled_words (report (scan self file lines rep)) = misspelled_words rep
  /\ cache (scan self file lines rep) = spell_cache self.
Proof.
  intros Hoff. rewrite scan_misspelled. unfold scan. cbn [cache].
  by destruct (loop_spellcheck_off self (len lines)
                 (mkScan initial (spell_cache self)
                    (set_feature_type (GherkinChecker.feature_type self) rep))
                 1 lines Hoff) as [-> ->].
Qed.

(** An instance: a spellchecker that rejects a word of the document, and
    the spellcheck switched off. *)
Lemma no_spellcheck_no_misspelling_no_cache_write_witness :
  misspelled_words
    (report
       (scan (GherkinChecker.init None (Some rejecting_speeed) None None
                "standard" false)
          "f" outline_misspelled_row fresh))
  = misspelled_words fresh
  /\ cache
       (scan (GherkinChecker.init None (Some rejecting_speeed) None None
                "standard" false)
          "f" outline_misspelled_row fresh)
     = spell_cache
         (GherkinChecker.init None (Some rejecting_speeed) None None
            "standard" false).
Proof.
  apply (no_spellcheck_no_misspelling_no_cache_write
           (GherkinChecker.init None (Some rejecting_speeed) None None
              "standard" false)
           "f" outline_misspelled_row fresh).
  right. reflexivity.
Defined.

Lemma reports_of_app w a b :
  reports_of w (a ++ b) = reports_of w a ++ reports_of w b.
Proof. unfold reports_of. apply List.filter_app. Qed.

(** The state of a word without suggestions: not yet met, or met and then
    cached as correct, after one report at most. *)
Lemma check_word_once d custom i acc w' w :
  suggest d w = [] ->
  (acc.1 !! w = None /\ reports_of w acc.2 = []
   \/ acc.1 !! w = Some [] /\ (length (reports_of w acc.2) <= 1)%nat) ->
  ((check_word d custom i acc w').1 !! w = None
   /\ reports_of w (check_word d custom i acc w').2 = []
   \/ (check_word d custom i acc w').1 !! w = Some []
      /\ (length (reports_of w (check_word d custom i acc w').2) <= 1)%nat).
Proof.
  destruct acc as [cache found]. cbn [fst snd]. intros Hs Hinv.
  unfold check_word.
  destruct (String.eqb_spec w' w) as [->|Hne].
  - destruct Hinv as [[Hc Hr]|[Hc Hr]]; rewrite Hc; cbn [fst snd]; [|by right].
    destruct (bool_decide (w ∈ custom)); cbn [fst snd]; [by left|].
    right. destruct (negb (check d w)); cbn [fst snd];
      rewrite ?Hs, lookup_insert_eq; (split; [done|]).
    + rewrite reports_of_app, Hr. unfold reports_of. cbn [List.filter word].
      rewrite String.eqb_refl. cbn [app length]. lia.
    + rewrite Hr. cbn [length]. lia.
  - assert (forall sg, reports_of w (found ++ [mkMisspelled w' i sg])
                       = reports_of w found) as Hsame.
    { intros sg. rewrite reports_of_app. unfold reports_of at 2.
      cbn [List.filter word].
      destruct (String.eqb_spec w' w); [done|]. by rewrite app_nil_r. }
    destruct (cache !! w') as [[|x xs]|] eqn:E; cbn [fst snd]; [done| |].
    + by rewrite Hsame.
    + destruct (bool_decide (w' ∈ custom)); cbn [fst snd]; [done|].
      destruct (negb (check d w')); cbn [fst snd];
        rewrite ?Hsame, lookup_insert_ne by done; done.
Qed.

Lemma check_words_once d custom i ws acc w :
  suggest d w = [] ->
  (acc.1 !! w = None /\ reports_of w acc.2 = []
   \/ acc.1 !! w = Some [] /\ (length (reports_of w acc.2) <= 1)%nat) ->
  let out := fold_left (check_word d custom i) ws acc in
  (out.1 !! w = None /\ reports_of w out.2 = []
   \/ out.1 !! w = Some [] /\ (length (reports_of w out.2) <= 1)%nat).
Proof.
  intros Hs. revert acc. induction ws as [|w' ws IH]; intros acc Hinv; [done|].
  cbn [fold_left]. apply IH. by apply check_word_once.
Qed.

Lemma check_words_from d custom i ws cache found :
  fold_left (check_word d custom i) ws (cache, found)
  = ((fold_left (check_word d custom i) ws (cache, [])).1,
     found ++ (fold_left (check_word d custom i) ws (cache, [])).2).
Proof.
  revert cache found. induction ws as [|w' ws IH]; intros cache found.
  { cbn. by rewrite app_nil_r. }
  cbn [fold_left].
  assert (forall f, check_word d custom i (cache, f) w'
                    = ((check_word d custom i (cache, []) w').1,
                       f ++ (check_word d custom i (cache, []) w').2)) as Hf.
  { intros f. unfold check_word.
    destruct (cache !! w') as [[|x xs]|]; cbn [fst snd];
      rewrite ?app_nil_r; try done.
    destruct (bool_decide (w' ∈ custom)); cbn [fst snd];
      rewrite ?app_nil_r; try done.
    destruct (negb (check d w')); cbn [fst snd]; by rewrite ?app_nil_r. }
  rewrite (Hf found), (Hf []).
  rewrite (IH _ (found ++ _)), (IH _ ([] ++ _)). cbn [fst snd app].
  by rewrite app_assoc.
Qed.

Lemma loop_once self total st i lines w :
  (forall d, spellchecker self = Some d -> suggest d w = []) ->
  (cache st !! w = None /\ reports_of w (misspelled_words (report st)) = []
   \/ cache st !! w = Some []
      /\ (length (reports_of w (misspelled_words (report st))) <= 1)%nat) ->
  (length (reports_of w
             (misspelled_words (report (loop self total st i lines)))) <= 1)%nat.
Proof.
  intros Hs. revert st i.
  induction lines as [|raw rest IH]; intros st i Hinv.
  { cbn [loop]. destruct Hinv as [[_ ->]|[_ H]]; [cbn; lia|done]. }
  cbn [loop]. apply IH.
  destruct (loop_body_misspelled self total st i raw) as [-> ->].
  destruct (skipped (strip raw)); [by rewrite app_nil_r|].
  unfold spellcheck. destruct (spellchecker self) as [d|] eqn:Ed;
    [|by rewrite app_nil_r].
  destruct (spellcheck_enabled self && negb (startswith (strip raw) "#"));
    [|by rewrite app_nil_r].
  pose proof (check_words_once d (custom_words self) i
                (elements (words_to_check (strip raw)))
                (cache st, misspelled_words (report st)) w (Hs d eq_refl) Hinv)
    as H.
  cbv zeta in H. rewrite check_words_from in H. exact H.
Qed.

(** X7: a word for which the spellchecker has no suggestion, and which
    the cache does not hold when the scan starts, is reported once at
    most, however often it occurs: once met it is cached with an empty
    list, which reads as correct. *)
Theorem word_without_suggestions_reported_once
    (self : GherkinChecker.t) (file : string) (lines : list string)
    (now : string) (checks : option (gmap string bool)) (w : string) :
  (forall d, spellchecker self = Some d -> suggest d w = []) ->
  spell_cache self !! w = None ->
  (length
     (reports_of w
        (misspelled_words
           (report (scan self file lines (TestReport.init now checks)))))
   <= 1)%nat.
Proof.
  intros Hs Hc. rewrite scan_misspelled. apply loop_once; [exact Hs|].
  left. split; [exact Hc|reflexivity].
Qed.

(** An instance: a rejected word without suggestions, on two lines. *)
Lemma word_without_suggestions_reported_once_witness :
  (length
     (reports_of "speeed"
        (misspelled_words
           (report
              (scan (GherkinChecker.init None
                       (Some rejecting_without_suggestions) None None
                       "standard" true)
                 "f" ["Feature: speeed"; "Scenario: speeed"] fresh))))
   <= 1)%nat.
Proof.
  apply (word_without_suggestions_reported_once
           (GherkinChecker.init None (Some rejecting_without_suggestions)
              None None "standard" true)
           "f" ["Feature: speeed"; "Scenario: speeed"]
           "2026-01-01 09:00:00 AM" None "speeed").
  - intros d [= <-]. reflexivity.
  - vm_compute. reflexivity.
Defined.

(** ** Further properties of the scan *)

(** The issues of the chain, through a test [f] that the issues of the
    placeholder checks fail: what is left are the few issues written out
    in the branches. *)
Lemma filter_classify (f : Issue -> bool) ft i line l :
  (forall x, issue_type x = "Placeholder Mismatch" -> f x = false) ->
  (forall x, issue_type x = "Placeholder Order" -> f x = false) ->
  List.filter f (snd (classify ft i line l))
  = if startswith line "Feature" then []
    else if startswith line "Scenario" then
      List.filter f (snd (on_scenario ft i line l))
    else if startswith line "Examples" then
      List.filter f (snd (on_examples i l))
    else if in_examples l && startswith line "|" then []
    else if is_step line then List.filter f (snd (on_step ft i line l))
    else [].
Proof.
  intros Hm Ho. unfold classify, is_step.
  destruct (startswith line "Feature"); [done|].
  destruct (startswith line "Scenario"); [done|].
  destruct (startswith line "Examples"); [done|].
  destruct (in_examples l && startswith line "|"); [|by destruct (existsb _ _)].
  unfold on_table_row. destruct (negb _); cbn [snd]; [|done].
  rewrite List.filter_app, !filter_none; [done| |].
  - eapply Forall_impl; [apply order_check_type|]. exact Ho.
  - eapply Forall_impl; [apply mismatch_check_type|]. exact Hm.
Qed.

Lemma filter_line_issues (f : Issue -> bool) ft total i line l :
  (forall x, issue_type x = "Invalid Placeholder Syntax" -> f x = false) ->
  (forall x, issue_type x = "Repeated Word" -> f x = false) ->
  List.filter f (snd (line_issues ft total i line l))
  = List.filter f (snd (classify ft i line l))
    ++ List.filter f
         (drive_cycle_check ft total i line (fst (classify ft i line l))).
Proof.
  intros Hq Hr. unfold line_issues.
  destruct (classify ft i line l) as [l' chain]. cbn [fst snd].
  rewrite !List.filter_app.
  rewrite (filter_none f (bad_placeholder_check _ _)),
    (filter_none f (repeated_check _ _ _)).
  - by rewrite !app_nil_r.
  - eapply Forall_impl; [apply repeated_check_type|]. exact Hr.
  - eapply Forall_impl; [apply bad_placeholder_check_type|]. exact Hq.
Qed.

Lemma fst_line_issues ft total i line l :
  fst (line_issues ft total i line l) = fst (classify ft i line l).
Proof. unfold line_issues. by destruct (classify ft i line l). Qed.

(** An issue of another type fails a test on Syntax Error issues. *)
Ltac other_type :=
  let x := fresh "x" in
  let Hx := fresh "Hx" in
  intros x Hx;
  unfold is_but_issue, has_description, has_type;
  rewrite Hx; reflexivity.

(** A step line is none of the lines that the chain tests before it. *)
Lemma is_step_only line :
  is_step line = true ->
  startswith line "Feature" = false
  /\ startswith line "Scenario" = false
  /\ startswith line "Examples" = false
  /\ startswith line "|" = false
  /\ skipped line = false.
Proof.
  destruct line as [|c r]; [done|]. intros H.
  unfold skipped. cbn [String.eqb startswith orb].
  repeat split;
    match goal with
    | |- Ascii.eqb c ?k && _ = false =>
        destruct (Ascii.eqb_spec c k) as [->|]; [|done]
    end; cbv in H; discriminate.
Qed.

Lemma but_is_step line : startswith line "But" = true -> is_step line = true.
Proof.
  intros H. unfold is_step, step_keywords. cbn [existsb]. rewrite H.
  by rewrite !orb_true_r.
Qed.

Lemma but_not_others line :
  startswith line "But" = true ->
  startswith line "Given" = false /\ startswith line "When" = false
  /\ startswith line "Then" = false /\ startswith line "And" = false.
Proof.
  destruct line as [|c r]; [done|]. cbn [startswith].
  destruct (Ascii.eqb_spec c "B") as [->|]; done.
Qed.

Lemma drive_not_but ft total i line l :
  List.filter is_but_issue (drive_cycle_check ft total i line l) = [].
Proof.
  apply filter_none. eapply Forall_impl; [apply drive_cycle_check_shape|].
  by intros x [].
Qed.

Lemma success_criteria_check_not (f : Issue -> bool) l :
  (forall n ln,
     f (syntax_error
          ("Success Criteria must have exactly 1 Given, found " +:+ str_of_int n)
          ln) = false) ->
  (forall n ln,
     f (syntax_error
          ("Success Criteria must have exactly 1 When, found " +:+ str_of_int n)
          ln) = false) ->
  List.filter f (success_criteria_check l) = [].
Proof.
  intros Hg Hw. unfold success_criteria_check. rewrite List.filter_app.
  destruct (negb (given_count l =? 1)); destruct (negb (when_count l =? 1));
    cbn [List.filter app]; rewrite ?Hg, ?Hw; done.
Qed.

(** The But issues of one line. *)
Lemma line_issues_but ft total i line l :
  List.filter is_but_issue (snd (line_issues ft total i line l))
  = if startswith line "But" then
      match but_description ft with
      | Some desc => [syntax_error desc i]
      | None => []
      end
    else [].
Proof.
  rewrite filter_line_issues, drive_not_but, app_nil_r.
  2,3: other_type.
  rewrite filter_classify.
  2,3: other_type.
  destruct (startswith line "But") eqn:Eb.
  - destruct (is_step_only line (but_is_step line Eb)) as (-> & -> & -> & -> & _).
    rewrite andb_false_r, (but_is_step line Eb).
    destruct (but_not_others line Eb) as (Hg & Hw & Ht & Ha).
    unfold on_step. rewrite Hg, Hw, Ht, Ha, Eb. cbn [negb andb snd].
    rewrite List.filter_app. unfold but_description.
    destruct (negb (truthy_str (current_scenario l)));
      destruct (String.eqb ft "drive_cycle");
      try destruct (String.eqb ft "success_criteria"); reflexivity.
  - destruct (startswith line "Feature"); [done|].
    destruct (startswith line "Scenario").
    { unfold on_scenario. destruct (scenario_dict l !! line); cbn [snd];
        rewrite !List.filter_app;
        (destruct (truthy_str _ && _);
         [rewrite success_criteria_check_not by reflexivity|]);
        destruct (negb (has_feature l)); reflexivity. }
    destruct (startswith line "Examples").
    { unfold on_examples. cbn [snd]. by destruct (negb _). }
    destruct (in_examples l && startswith line "|"); [done|].
    destruct (is_step line); [|done].
    unfold on_step. rewrite Eb, !andb_false_r. cbn [snd].
    rewrite app_nil_r. by destruct (negb _).
Qed.

Lemma skipped_not_but line :
  skipped line = true -> startswith line "But" = false.
Proof.
  unfold skipped. destruct line as [|c r]; [done|].
  cbn [String.eqb startswith orb]. rewrite andb_true_r.
  intros ->%Ascii.eqb_eq. done.
Qed.

Lemma scan_lines_but ft total l i lines :
  List.filter is_but_issue (snd (scan_lines ft total l i lines))
  = match but_description ft with
    | Some desc =>
        map (syntax_error desc)
          (lines_where (fun line => startswith line "But") i lines)
    | None => []
    end.
Proof.
  revert l i. induction lines as [|raw rest IH]; intros l i;
    cbn [scan_lines lines_where].
  { cbn. by destruct (but_description ft). }
  destruct (skipped (strip raw)) eqn:Es.
  - rewrite IH, (skipped_not_but _ Es). done.
  - pose proof (line_issues_but ft total i (strip raw) l) as H.
    destruct (line_issues ft total i (strip raw) l) as [l' added].
    specialize (IH l' (i + 1)).
    destruct (scan_lines ft total l' (i + 1) rest) as [l'' more].
    cbn [snd] in *. rewrite List.filter_app, H, IH.
    destruct (startswith (strip raw) "But");
      by destruct (but_description ft).
Qed.

(** X8: in the Drive Cycle and Success Criteria formats every line whose
    trimmed text starts with [But] gets one Syntax Error issue, at that
    very line, in the order of the lines, and no other line gets one;
    with any other feature type a But step is not reported. *)
Theorem but_step_reported_at_its_line
    (self : GherkinChecker.t) (file : string) (lines : list string)
    (now : string) (checks : option (gmap string bool)) :
  List.filter is_but_issue
    (issues (report (scan self file lines (TestReport.init now checks))))
  = match but_description (GherkinChecker.feature_type self) with
    | Some desc =>
        map (fun i => mkIssue "Syntax Error" desc i)
          (lines_where (fun line => startswith line "But") 1 lines)
    | None => []
    end.
Proof.
  rewrite scan_issues. cbn [issues TestReport.init app].
  rewrite List.filter_app, scan_lines_but.
  unfold finish. rewrite List.filter_app.
  destruct (truthy_str _ && _);
    [rewrite success_criteria_check_not by reflexivity|];
    destruct (negb _); cbn [List.filter is_but_issue]; by rewrite app_nil_r.
Qed.

(** An issue of another type fails the test of a description. *)
Ltac other_description :=
  let x := fresh "x" in
  let Hx := fresh "Hx" in
  intros x Hx; unfold has_description, has_type; rewrite Hx; reflexivity.

Lemma drive_not_description desc ft total i line l :
  desc <> "When not allowed in Drive Cycle format" ->
  desc <> "Then not allowed in Drive Cycle format" ->
  List.filter (has_description desc) (drive_cycle_check ft total i line l) = [].
Proof.
  intros H1 H2. apply filter_none.
  eapply Forall_impl; [apply drive_cycle_check_shape|].
  intros x []; unfold has_description; cbn [description syntax_error];
    apply andb_false_iff; right; apply String.eqb_neq; congruence.
Qed.

(** Reduces the issues of a line, through the test of a description that
    is none of the Drive Cycle check, to those written in the branches. *)
Ltac to_branches :=
  rewrite filter_line_issues by other_description;
  rewrite drive_not_description by discriminate;
  rewrite app_nil_r;
  rewrite filter_classify by other_description.

Lemma line_issues_before_feature ft total i line l :
  List.filter (has_description before_feature)
    (snd (line_issues ft total i line l))
  = if startswith line "Scenario" && negb (has_feature l)
    then [syntax_error before_feature i] else [].
Proof.
  to_branches.
  destruct (startswith line "Feature") eqn:Ef.
  { by rewrite (feature_not_scenario _ Ef). }
  destruct (startswith line "Scenario").
  { unfold on_scenario. destruct (scenario_dict l !! line); cbn [snd andb];
      rewrite !List.filter_app;
      (destruct (truthy_str _ && _);
       [rewrite success_criteria_check_not by reflexivity|]);
      destruct (has_feature l); reflexivity. }
  cbn [andb]. destruct (startswith line "Examples").
  { unfold on_examples. cbn [snd]. by destruct (negb _). }
  destruct (in_examples l && startswith line "|"); [done|].
  destruct (is_step line); [|done].
  unfold on_step. cbn [snd]. rewrite List.filter_app.
  destruct (negb (truthy_str _));
    repeat match goal with
           | |- context [if ?b then _ else _] => destruct b
           end; reflexivity.
Qed.

Lemma line_issues_outside ft total i line l :
  List.filter (has_description step_outside)
    (snd (line_issues ft total i line l))
  = (if is_step line && negb (truthy_str (current_scenario l))
     then [syntax_error step_outside i] else [])
  /\ List.filter (has_description examples_outside)
       (snd (line_issues ft total i line l))
     = (if startswith line "Examples" && negb (truthy_str (current_scenario l))
        then [syntax_error examples_outside i] else []).
Proof.
  split; to_branches.
  - destruct (is_step line) eqn:Es.
    + destruct (is_step_only line Es) as (-> & -> & -> & -> & _).
      rewrite andb_false_r. unfold on_step. cbn [snd andb].
      rewrite List.filter_app.
      destruct (negb (truthy_str _));
        repeat match goal with
               | |- context [if ?b then _ else _] => destruct b
               end; reflexivity.
    + cbn [andb]. destruct (startswith line "Feature"); [done|].
      destruct (startswith line "Scenario").
      { unfold on_scenario. destruct (scenario_dict l !! line); cbn [snd];
          rewrite !List.filter_app;
          (destruct (truthy_str _ && _);
           [rewrite success_criteria_check_not by reflexivity|]);
          destruct (negb (has_feature l)); reflexivity. }
      destruct (startswith line "Examples").
      { unfold on_examples. cbn [snd]. by destruct (negb _). }
      by destruct (in_examples l && startswith line "|").
  - destruct (startswith line "Feature") eqn:Ef.
    { destruct line as [|c r]; [done|]. cbn [startswith] in *.
      destruct (Ascii.eqb_spec c "F") as [->|]; done. }
    destruct (startswith line "Scenario") eqn:Esc.
    { assert (startswith line "Examples" = false) as ->.
      { destruct line as [|c r]; [done|]. cbn [startswith] in *.
        destruct (Ascii.eqb_spec c "S") as [->|]; done. }
      unfold on_scenario. destruct (scenario_dict l !! line); cbn [snd andb];
        rewrite !List.filter_app;
        (destruct (truthy_str _ && _);
         [rewrite success_criteria_check_not by reflexivity|]);
        destruct (negb (has_feature l)); reflexivity. }
    destruct (startswith line "Examples").
    { unfold on_examples. cbn [snd andb]. by destruct (negb _). }
    cbn [andb]. destruct (in_examples l && startswith line "|"); [done|].
    destruct (is_step line); [|done].
    unfold on_step. cbn [snd]. rewrite List.filter_app.
    destruct (negb (truthy_str _));
      repeat match goal with
             | |- context [if ?b then _ else _] => destruct b
             end; reflexivity.
Qed.

(** The current scenario after the chain: the line itself for a Scenario
    line, and as before for any other. *)
Lemma classify_current_scenario ft i line l :
  current_scenario (fst (classify ft i line l))
  = if startswith line "Scenario" then Some line else current_scenario l.
Proof.
  unfold classify.
  destruct (startswith line "Feature") eqn:Ef.
  { by rewrite (feature_not_scenario _ Ef). }
  destruct (startswith line "Scenario").
  { unfold on_scenario. by destruct (scenario_dict l !! line). }
  destruct (startswith line "Examples"); [done|].
  destruct (in_examples l && startswith line "|").
  { unfold on_table_row. by destruct (negb _). }
  by destruct (existsb _ _).
Qed.

Lemma scenario_line_truthy line :
  startswith line "Scenario" = true -> truthy_str (Some line) = true.
Proof. by destruct line. Qed.

Lemma scan_lines_before_feature ft total l i lines :
  List.filter (has_description before_feature)
    (snd (scan_lines ft total l i lines))
  = if has_feature l then []
    else map (syntax_error before_feature)
           (hits_before (fun line => startswith line "Feature")
              (fun line => startswith line "Scenario") i lines).
Proof.
  revert l i. induction lines as [|raw rest IH]; intros l i;
    cbn [scan_lines hits_before].
  { by destruct (has_feature l). }
  destruct (skipped (strip raw)) eqn:Es.
  - rewrite IH, (skipped_not_feature _ Es).
    destruct (startswith (strip raw) "Scenario") eqn:E.
    { apply scenario_not_skipped in E. congruence. }
    done.
  - pose proof (line_issues_before_feature ft total i (strip raw) l) as H.
    pose proof (classify_has_feature ft i (strip raw) l) as Hf.
    rewrite <- fst_line_issues with (total := total) in Hf.
    destruct (line_issues ft total i (strip raw) l) as [l' added].
    specialize (IH l' (i + 1)).
    destruct (scan_lines ft total l' (i + 1) rest) as [l'' more].
    cbn [fst snd] in *. rewrite List.filter_app, H, IH, Hf.
    destruct (has_feature l); cbn [orb negb].
    { by rewrite andb_false_r. }
    destruct (startswith (strip raw) "Feature") eqn:Ef.
    { by rewrite (feature_not_scenario _ Ef). }
    rewrite andb_true_r. by destruct (startswith (strip raw) "Scenario").
Qed.

Lemma scan_lines_outside ft total l i lines :
  List.filter (has_description step_outside)
    (snd (scan_lines ft total l i lines))
  = (if truthy_str (current_scenario l) then []
     else map (syntax_error step_outside)
            (hits_before (fun line => startswith line "Scenario") is_step
               i lines))
  /\ List.filter (has_description examples_outside)
       (snd (scan_lines ft total l i lines))
     = (if truthy_str (current_scenario l) then []
        else map (syntax_error examples_outside)
               (hits_before (fun line => startswith line "Scenario")
                  (fun line => startswith line "Examples") i lines)).
Proof.
  revert l i. induction lines as [|raw rest IH]; intros l i;
    cbn [scan_lines hits_before].
  { by destruct (truthy_str (current_scenario l)). }
  destruct (skipped (strip raw)) eqn:Es.
  - destruct (IH l (i + 1)) as [-> ->].
    destruct (startswith (strip raw) "Scenario") eqn:E.
    { apply scenario_not_skipped in E. congruence. }
    destruct (is_step (strip raw)) eqn:E2.
    { apply is_step_only in E2. destruct E2 as (_ & _ & _ & _ & ?). congruence. }
    assert (startswith (strip raw) "Examples" = false) as ->; [|done].
    unfold skipped in Es. destruct (strip raw) as [|c r]; [done|].
    cbn [String.eqb startswith orb] in *. rewrite andb_true_r in Es.
    apply Ascii.eqb_eq in Es. by subst c.
  - destruct (line_issues_outside ft total i (strip raw) l) as [H1 H2].
    pose proof (classify_current_scenario ft i (strip raw) l) as Hc.
    rewrite <- fst_line_issues with (total := total) in Hc.
    destruct (line_issues ft total i (strip raw) l) as [l' added].
    destruct (IH l' (i + 1)) as [IH1 IH2].
    destruct (scan_lines ft total l' (i + 1) rest) as [l'' more].
    cbn [fst snd] in *. rewrite !List.filter_app, H1, H2, IH1, IH2, Hc.
    destruct (startswith (strip raw) "Scenario") eqn:E.
    + rewrite (scenario_line_truthy _ E).
      assert (is_step (strip raw) = false) as ->.
      { destruct (is_step (strip raw)) eqn:E2; [|done].
        apply is_step_only in E2. destruct E2 as (_ & ? & _). congruence. }
      assert (startswith (strip raw) "Examples" = false) as ->.
      { destruct (strip raw) as [|c r]; [done|]. cbn [startswith] in *.
        destruct (Ascii.eqb_spec c "S") as [->|]; done. }
      cbn [andb app]. by destruct (truthy_str (current_scenario l)).
    + destruct (truthy_str (current_scenario l)); cbn [negb].
      { by rewrite !andb_false_r. }
      rewrite !andb_true_r.
      by destruct (is_step (strip raw)), (startswith (strip raw) "Examples").
Qed.

Lemma finish_not_description desc ft l :
  desc <> "No Feature keyword found in file" ->
  (forall n ln,
     has_description desc
       (syntax_error
          ("Success Criteria must have exactly 1 Given, found " +:+ str_of_int n)
          ln) = false) ->
  (forall n ln,
     has_description desc
       (syntax_error
          ("Success Criteria must have exactly 1 When, found " +:+ str_of_int n)
          ln) = false) ->
  List.filter (has_description desc) (finish ft l) = [].
Proof.
  intros Hn Hg Hw. unfold finish. rewrite List.filter_app.
  rewrite (filter_none _ (if negb _ then _ else _)).
  - destruct (_ && _); [|reflexivity].
    rewrite (success_criteria_check_not _ _ Hg Hw). reflexivity.
  - destruct (negb _); repeat constructor.
    unfold has_description. cbn [description syntax_error].
    apply andb_false_iff. right. apply String.eqb_neq. congruence.
Qed.

(** X9: the three issues on the place of a line.  A Scenario line is
    reported as found before Feature exactly when no Feature line stands
    before it; a step line, and an Examples line, is reported as outside
    a Scenario exactly when no Scenario line stands before it; each at its
    own line, in the order of the lines. *)
Theorem misplaced_lines_reported
    (self : GherkinChecker.t) (file : string) (lines : list string)
    (now : string) (checks : option (gmap string bool)) :
  let found :=
    issues (report (scan self file lines (TestReport.init now checks))) in
  List.filter (has_description before_feature) found
  = map (fun i => mkIssue "Syntax Error" before_feature i)
      (hits_before (fun line => startswith line "Feature")
         (fun line => startswith line "Scenario") 1 lines)
  /\ List.filter (has_description step_outside) found
     = map (fun i => mkIssue "Syntax Error" step_outside i)
         (hits_before (fun line => startswith line "Scenario") is_step 1 lines)
  /\ List.filter (has_description examples_outside) found
     = map (fun i => mkIssue "Syntax Error" examples_outside i)
         (hits_before (fun line => startswith line "Scenario")
            (fun line => startswith line "Examples") 1 lines).
Proof.
  intros found. unfold found. rewrite scan_issues.
  cbn [issues TestReport.init app]. rewrite !List.filter_app.
  rewrite !finish_not_description by (discriminate || reflexivity).
  rewrite !app_nil_r.
  destruct (scan_lines_outside (GherkinChecker.feature_type self) (len lines)
              initial 1 lines) as [H1 H2].
  rewrite scan_lines_before_feature, H1, H2. done.
Qed.

(** The counters after the chain. *)
Lemma classify_counters ft i line l :
  GherkinChecker.scenarios (fst (classify ft i line l))
  = GherkinChecker.scenarios l + (if startswith line "Scenario" then 1 else 0)
  /\ GherkinChecker.steps (fst (classify ft i line l))
     = GherkinChecker.steps l + (if is_step line then 1 else 0)
  /\ GherkinChecker.total_iterations l
     <= GherkinChecker.total_iterations (fst (classify ft i line l))
     <= GherkinChecker.total_iterations l
        + (if startswith line "|" then 1 else 0).
Proof.
  assert (0 <= (if startswith line "|" then 1 else 0)) as Hrow.
  { destruct (startswith line "|"); lia. }
  destruct (is_step line) eqn:Es.
  { destruct (is_step_only line Es) as (Hf & Hsc & He & Hr & _).
    unfold classify. fold (is_step line).
    rewrite Hf, Hsc, He, Hr, andb_false_r, Es. unfold on_step.
    cbn [fst GherkinChecker.scenarios GherkinChecker.steps
         GherkinChecker.total_iterations].
    lia. }
  unfold classify. fold (is_step line). rewrite Es.
  destruct (startswith line "Feature") eqn:Ef.
  { rewrite (feature_not_scenario _ Ef).
    cbn [fst set_has_feature GherkinChecker.scenarios GherkinChecker.steps
         GherkinChecker.total_iterations].
    lia. }
  destruct (startswith line "Scenario").
  { unfold on_scenario. destruct (scenario_dict l !! line);
      cbn [fst GherkinChecker.scenarios GherkinChecker.steps
           GherkinChecker.total_iterations];
      lia. }
  destruct (startswith line "Examples").
  { unfold on_examples.
    cbn [fst GherkinChecker.scenarios GherkinChecker.steps
         GherkinChecker.total_iterations].
    lia. }
  destruct (startswith line "|"); rewrite ?andb_false_r, ?andb_true_r.
  - destruct (in_examples l); [|cbn [fst]; lia].
    unfold on_table_row. destruct (negb _);
      cbn [fst GherkinChecker.scenarios GherkinChecker.steps
           GherkinChecker.total_iterations];
      lia.
  - cbn [fst]. lia.
Qed.

Lemma count_where_cons p raw rest :
  count_where p (raw :: rest)
  = (if p (strip raw) then 1 else 0) + count_where p rest.
Proof.
  unfold count_where, len. cbn [List.filter].
  destruct (p (strip raw)); cbn [length]; lia.
Qed.

Lemma count_where_nonneg p lines : 0 <= count_where p lines.
Proof. unfold count_where, len. lia. Qed.

Lemma scan_lines_counters ft total l i lines :
  let l' := fst (scan_lines ft total l i lines) in
  GherkinChecker.scenarios l'
  = GherkinChecker.scenarios l
    + count_where (fun line => startswith line "Scenario") lines
  /\ GherkinChecker.steps l' = GherkinChecker.steps l + count_where is_step lines
  /\ GherkinChecker.total_iterations l
     <= GherkinChecker.total_iterations l'
     <= GherkinChecker.total_iterations l
        + count_where (fun line => startswith line "|") lines.
Proof.
  revert l i. induction lines as [|raw rest IH]; intros l i;
    cbn [scan_lines].
  { cbn. unfold count_where, len. cbn. lia. }
  rewrite !count_where_cons.
  destruct (skipped (strip raw)) eqn:Es.
  - destruct (IH l (i + 1)) as (H1 & H2 & H3). cbv zeta.
    destruct (startswith (strip raw) "Scenario") eqn:E.
    { apply scenario_not_skipped in E. congruence. }
    destruct (is_step (strip raw)) eqn:E2.
    { apply is_step_only in E2. destruct E2 as (_ & _ & _ & _ & ?). congruence. }
    repeat split; try lia. destruct (startswith (strip raw) "|"); lia.
  - destruct (classify_counters ft i (strip raw) l) as (H1 & H2 & H3).
    rewrite <- !fst_line_issues with (total := total) in H1, H2, H3.
    destruct (line_issues ft total i (strip raw) l) as [l' added].
    destruct (IH l' (i + 1)) as (IH1 & IH2 & IH3).
    destruct (scan_lines ft total l' (i + 1) rest) as [l'' more].
    cbn [fst] in *. repeat split; lia.
Qed.

(** X10: the statistics of a scan are counts of lines: all the lines read,
    the lines whose trimmed text starts with Scenario, and those that
    start with a step keyword; the iterations counted are at most the
    lines that start with a bar. *)
Theorem statistics_count_lines
    (self : GherkinChecker.t) (file : string) (lines : list string)
    (rep : TestReport.t) :
  let st := stats (report (scan self file lines rep)) in
  TestReport.total_lines st = len lines
  /\ TestReport.scenarios st
     = count_where (fun line => startswith line "Scenario") lines
  /\ TestReport.steps st = count_where is_step lines
  /\ 0 <= TestReport.total_iterations st
     <= count_where (fun line => startswith line "|") lines.
Proof.
  intros st. unfold st, scan.
  cbn [report stats set_filename update_stats TestReport.total_lines
       TestReport.scenarios TestReport.steps TestReport.total_iterations].
  destruct (loop_scan_lines self (len lines)
              (mkScan initial (spell_cache self)
                 (set_feature_type (GherkinChecker.feature_type self) rep))
              1 lines) as [-> _].
  destruct (scan_lines_counters (GherkinChecker.feature_type self) (len lines)
              initial 1 lines) as (H1 & H2 & H3).
  cbn [locals] in *. cbv zeta in *. rewrite H1, H2. cbn in *.
  repeat split; lia.
Qed.

(** Two prefixes that differ in their first character exclude each other. *)
Lemma startswith_first s a p b q :
  startswith s (String a p) = true -> a <> b ->
  startswith s (String b q) = false.
Proof.
  destruct s as [|c r]; [done|]. cbn [startswith]. intros H Hne.
  apply andb_true_iff in H as [H _]. apply Ascii.eqb_eq in H. subst c.
  by destruct (Ascii.eqb_spec a b).
Qed.

Lemma given_when_is_step line :
  startswith line "Given" = true \/ startswith line "When" = true ->
  is_step line = true.
Proof.
  unfold is_step, step_keywords. cbn [existsb].
  intros [-> | ->]; by rewrite ?orb_true_r.
Qed.

Lemma skipped_first line a p :
  skipped line = true -> a <> "#"%char -> startswith line (String a p) = false.
Proof.
  unfold skipped. destruct line as [|c r]; [done|].
  cbn [String.eqb startswith orb]. rewrite andb_true_r.
  intros ->%Ascii.eqb_eq Hne. by destruct (Ascii.eqb_spec "#" a).
Qed.

(** The start line and the counts of Given and When after the chain. *)
Lemma classify_counts ft i line l :
  let l' := fst (classify ft i line l) in
  if startswith line "Scenario" then
    scenario_start_line l' = i /\ given_count l' = 0 /\ when_count l' = 0
  else
    scenario_start_line l' = scenario_start_line l
    /\ given_count l'
       = (if startswith line "Given" then given_count l + 1 else given_count l)
    /\ when_count l'
       = (if startswith line "When" then when_count l + 1 else when_count l).
Proof.
  cbv zeta. destruct (is_step line) eqn:Es.
  { destruct (is_step_only line Es) as (Hf & Hsc & He & Hr & _).
    unfold classify. fold (is_step line).
    rewrite Hf, Hsc, He, Hr, andb_false_r, Es. unfold on_step.
    cbn [fst scenario_start_line given_count when_count].
    split; [done|]. split; [done|].
    destruct (startswith line "Given") eqn:Eg; cbn [negb andb]; [|done].
    by rewrite (startswith_first _ _ _ "W" "hen" Eg). }
  assert (startswith line "Given" = false) as Hg.
  { destruct (startswith line "Given") eqn:E; [|done].
    rewrite given_when_is_step in Es; [done|by left]. }
  assert (startswith line "When" = false) as Hw.
  { destruct (startswith line "When") eqn:E; [|done].
    rewrite given_when_is_step in Es; [done|by right]. }
  rewrite Hg, Hw.
  unfold classify. fold (is_step line). rewrite Es.
  destruct (startswith line "Feature") eqn:Ef.
  { by rewrite (feature_not_scenario _ Ef). }
  destruct (startswith line "Scenario").
  { unfold on_scenario. by destruct (scenario_dict l !! line). }
  destruct (startswith line "Examples"); [done|].
  destruct (in_examples l && startswith line "|"); [|done].
  unfold on_table_row. by destruct (negb _).
Qed.

Lemma success_criteria_check_counts l :
  success_criteria_check l
  = count_issues (scenario_start_line l, given_count l, when_count l).
Proof. reflexivity. Qed.

Lemma count_issues_all c :
  List.filter is_count_issue (count_issues c) = count_issues c.
Proof.
  destruct c as [[start given] when]. unfold count_issues.
  rewrite List.filter_app.
  destruct (negb (given =? 1)); destruct (negb (when =? 1)); reflexivity.
Qed.

(** An issue of another type fails the test of a count issue. *)
Ltac other_count :=
  let x := fresh "x" in
  let Hx := fresh "Hx" in
  intros x Hx; unfold is_count_issue, has_type; rewrite Hx; reflexivity.

Lemma line_issues_counts ft total i line l :
  List.filter is_count_issue (snd (line_issues ft total i line l))
  = if startswith line "Scenario" && truthy_str (current_scenario l)
       && String.eqb ft "success_criteria"
    then success_criteria_check l else [].
Proof.
  rewrite filter_line_issues by other_count.
  rewrite (filter_none is_count_issue (drive_cycle_check _ _ _ _ _)).
  2:{ eapply Forall_impl; [apply drive_cycle_check_shape|]. by intros x []. }
  rewrite app_nil_r, filter_classify by other_count.
  destruct (startswith line "Feature") eqn:Ef.
  { by rewrite (feature_not_scenario _ Ef). }
  destruct (startswith line "Scenario").
  { unfold on_scenario. cbn [andb].
    destruct (scenario_dict l !! line); cbn [snd]; rewrite !List.filter_app;
      (destruct (truthy_str _ && _);
       [rewrite success_criteria_check_counts, count_issues_all|]);
      destruct (negb (has_feature l)); cbn [List.filter is_count_issue app];
      by rewrite ?app_nil_r. }
  cbn [andb]. destruct (startswith line "Examples").
  { unfold on_examples. cbn [snd]. by destruct (negb _). }
  destruct (in_examples l && startswith line "|"); [done|].
  destruct (is_step line); [|done].
  unfold on_step. cbn [snd]. rewrite List.filter_app.
  destruct (negb (truthy_str _));
    repeat match goal with
           | |- context [if ?b then _ else _] => destruct b
           end; reflexivity.
Qed.

Lemma scan_lines_counts ft total l i lines cur :
  reading l cur ->
  List.filter is_count_issue (snd (scan_lines ft total l i lines))
  ++ List.filter is_count_issue (finish ft (fst (scan_lines ft total l i lines)))
  = if String.eqb ft "success_criteria"
    then flat_map count_issues (scenario_counts cur i lines) else [].
Proof.
  revert l i cur. induction lines as [|raw rest IH]; intros l i cur Hr;
    cbn [scan_lines scenario_counts].
  { cbn [fst snd List.filter app]. unfold finish. rewrite List.filter_app.
    rewrite (filter_none is_count_issue (if negb _ then _ else _))
      by (destruct (negb _); repeat constructor).
    rewrite app_nil_r. destruct cur as [[[start given] when]|]; cbn [reading] in Hr.
    - destruct Hr as (-> & <- & <- & <-). cbn [andb].
      destruct (String.eqb ft "success_criteria"); [|done].
      cbn [flat_map]. by rewrite app_nil_r, success_criteria_check_counts,
        count_issues_all.
    - rewrite Hr. cbn [andb]. by destruct (String.eqb ft "success_criteria"). }
  destruct (skipped (strip raw)) eqn:Es.
  - rewrite (skipped_first _ "S" "cenario" Es) by discriminate.
    rewrite (skipped_first _ "G" "iven" Es) by discriminate.
    rewrite (skipped_first _ "W" "hen" Es) by discriminate.
    rewrite (IH l (i + 1) cur Hr).
    by destruct cur as [[[start given] when]|].
  - pose proof (line_issues_counts ft total i (strip raw) l) as Hi.
    pose proof (classify_counts ft i (strip raw) l) as Hc.
    pose proof (classify_current_scenario ft i (strip raw) l) as Hs.
    cbv zeta in Hc.
    rewrite <- !fst_line_issues with (total := total) in Hc, Hs.
    destruct (line_issues ft total i (strip raw) l) as [l' added].
    cbn [fst snd] in Hi, Hc, Hs.
    destruct (startswith (strip raw) "Scenario") eqn:E.
    + destruct Hc as (Hst & Hg & Hw).
      specialize (IH l' (i + 1) (Some (i, 0, 0))).
      destruct (scan_lines ft total l' (i + 1) rest) as [l'' more].
      cbn [fst snd] in *. rewrite List.filter_app, Hi, <- app_assoc, IH.
      2:{ cbn [reading]. rewrite Hs. by rewrite (scenario_line_truthy _ E). }
      cbn [andb]. destruct cur as [[[start given] when]|]; cbn [reading] in Hr.
      * destruct Hr as (-> & <- & <- & <-). cbn [andb].
        destruct (String.eqb ft "success_criteria"); [|done].
        rewrite List.flat_map_app. cbn [flat_map]. rewrite app_nil_r.
        reflexivity.
      * rewrite Hr. cbn [andb app].
        by destruct (String.eqb ft "success_criteria").
    + destruct Hc as (Hst & Hg & Hw).
      match goal with
      | |- context [scenario_counts ?c _ _] =>
          specialize (IH l' (i + 1) c)
      end.
      destruct (scan_lines ft total l' (i + 1) rest) as [l'' more].
      cbn [fst snd] in *. rewrite List.filter_app, Hi. cbn [andb app].
      apply IH. destruct cur as [[[start given] when]|]; cbn [reading] in *.
      * destruct Hr as (Ht & <- & <- & <-). by rewrite Hs.
      * by rewrite Hs.
Qed.

(** X11: in the Success Criteria format every scenario is checked once,
    when the next Scenario line comes or when the document ends: with the
    numbers of lines that start with Given and with When between its
    Scenario line and the next, it gets an issue at its own line for each
    number that is not one, giving the number found; the issues come in
    the order of the scenarios.  With any other feature type there is no
    such issue. *)
Theorem success_criteria_checked_for_every_scenario
    (self : GherkinChecker.t) (file : string) (lines : list string)
    (now : string) (checks : option (gmap string bool)) :
  List.filter is_count_issue
    (issues (report (scan self file lines (TestReport.init now checks))))
  = if String.eqb (GherkinChecker.feature_type self) "success_criteria"
    then flat_map count_issues (scenario_counts None 1 lines)
    else [].
Proof.
  rewrite scan_issues. cbn [issues TestReport.init app].
  rewrite List.filter_app. apply scan_lines_counts. reflexivity.
Qed.

(** *** Line numbers *)

Lemma step_index_from_range idx ph steps :
  step_index_from idx ph steps = -1
  \/ idx <= step_index_from idx ph steps < idx + len steps.
Proof.
  revert idx. induction steps as [|step rest IH]; intros idx; [by left|].
  cbn [step_index_from]. unfold len. cbn [length].
  destruct (contains step ph); [right; lia|].
  destruct (IH (idx + 1)) as [H|H]; [by left|right]. unfold len in H. lia.
Qed.

Lemma reported_line_range ph l i :
  placed l i -> 1 <= i -> 1 <= reported_line ph l i <= i.
Proof.
  intros (H0 & H1 & H2 & H3) Hi. unfold reported_line, step_index.
  destruct (step_index_from_range 0 ph (current_steps l)) as [->|H];
    [cbn; lia|].
  destruct (Z.eqb_spec (step_index_from 0 ph (current_steps l)) (-1));
    cbn [negb]; [lia|].
  destruct (truthy_str (current_scenario l)) eqn:Et.
  - specialize (H3 eq_refl). lia.
  - rewrite (H2 eq_refl) in H. unfold len in H. cbn in H. lia.
Qed.

Lemma mismatch_check_lines headers l i :
  placed l i -> 1 <= i ->
  Forall (fun x => 1 <= line_num x <= i) (mismatch_check headers l i).
Proof.
  intros Hp Hi. unfold mismatch_check.
  induction (elements _) as [|ph phs IH]; cbn [flat_map]; [constructor|].
  apply Forall_app. split; [|done].
  destruct (negb _); repeat constructor; cbn [line_num mismatch_issue];
    by apply reported_line_range.
Qed.

Lemma order_check_lines headers l i :
  placed l i -> 1 <= i ->
  Forall (fun x => 1 <= line_num x <= i) (order_check headers l i).
Proof.
  intros Hp Hi. unfold order_check.
  destruct (placeholders_used _) as [|ph0 phs0]; [constructor|].
  generalize (-1). generalize (ph0 :: phs0). intros phs.
  induction phs as [|ph phs IH]; intros last; cbn [order_walk]; [constructor|].
  destruct (_ =? -1); [apply IH|].
  apply Forall_app. split; [|apply IH].
  destruct (_ <? _); repeat constructor; cbn [line_num order_issue];
    by apply reported_line_range.
Qed.

Lemma len_snoc {A} (l : list A) x : len (l ++ [x]) = len l + 1.
Proof. unfold len. rewrite length_app. cbn [length]. lia. Qed.

Lemma closing_lines ft l i :
  placed l i ->
  Forall (fun x => 1 <= line_num x <= i)
    (if truthy_str (current_scenario l) && String.eqb ft "success_criteria"
     then success_criteria_check l else []).
Proof.
  intros (H0 & H1 & _ & H3).
  assert (0 <= len (current_steps l)) by (unfold len; lia).
  destruct (truthy_str (current_scenario l) && _) eqn:Et; [|constructor].
  apply andb_true_iff in Et as [Et _]. specialize (H3 Et).
  unfold success_criteria_check. apply Forall_app.
  split; destruct (negb _); repeat constructor; cbn; lia.
Qed.

Lemma classify_lines ft i line l :
  placed l i -> 1 <= i ->
  Forall (fun x => 1 <= line_num x <= i) (snd (classify ft i line l))
  /\ placed (fst (classify ft i line l)) (i + 1).
Proof.
  intros Hp Hi. pose proof Hp as (H0 & H1 & H2 & H3). unfold classify.
  destruct (startswith line "Feature").
  { split; [constructor|]. unfold placed. cbn. repeat split; auto; lia. }
  destruct (startswith line "Scenario").
  { unfold on_scenario. split.
    - pose proof (closing_lines ft l i Hp) as Hcl.
      destruct (scenario_dict l !! line); cbn [snd]; rewrite !Forall_app;
        (split; [exact Hcl|split]);
        try (destruct (negb (has_feature l))); repeat constructor; cbn; lia.
    - destruct (scenario_dict l !! line); unfold placed;
        cbn [fst scenario_start_line current_steps current_scenario];
        unfold len; cbn [length]; repeat split; intros; lia || done. }
  destruct (startswith line "Examples").
  { unfold on_examples. split.
    - cbn [snd]. destruct (negb _); repeat constructor; cbn; lia.
    - unfold placed. cbn. repeat split; auto; lia. }
  destruct (in_examples l && startswith line "|").
  { unfold on_table_row. destruct (negb _); cbn [fst snd].
    - split; [apply Forall_app; split;
              [by apply mismatch_check_lines|by apply order_check_lines]|].
      unfold placed. cbn. repeat split; auto; lia.
    - split; [constructor|]. unfold placed. cbn. repeat split; auto; lia. }
  destruct (existsb _ _).
  2:{ split; [constructor|]. unfold placed. cbn [fst]. repeat split; auto; lia. }
  unfold on_step. cbn [fst snd]. split.
  - apply Forall_app. split.
    + destruct (negb _); repeat constructor; cbn; lia.
    + repeat match goal with
             | |- context [if ?b then _ else _] => destruct b
             end; repeat constructor; cbn; lia.
  - unfold placed.
    cbn [scenario_start_line current_steps current_scenario].
    destruct (truthy_str (current_scenario l)) eqn:Et; cbn [andb].
    + destruct (negb (in_examples l)); rewrite ?len_snoc;
        repeat split; auto; try lia; done.
    + repeat split; auto; lia.
Qed.

Lemma line_issues_lines ft total i line l :
  placed l i -> 1 <= i ->
  Forall (fun x => 1 <= line_num x <= i) (snd (line_issues ft total i line l))
  /\ placed (fst (line_issues ft total i line l)) (i + 1).
Proof.
  intros Hp Hi. destruct (classify_lines ft i line l Hp Hi) as [Hc Hp'].
  unfold line_issues. destruct (classify ft i line l) as [l' chain].
  cbn [fst snd] in *. split; [|done].
  rewrite !Forall_app. repeat split; [done| | |].
  - unfold drive_cycle_check.
    destruct (truthy_str (current_scenario l')) eqn:Et;
      [|rewrite andb_false_r; constructor].
    destruct Hp' as (H0 & H1 & _ & H3). specialize (H3 Et).
    assert (0 <= len (current_steps l')) by (unfold len; lia).
    destruct (_ && true); [|constructor].
    destruct (String.eqb ft "drive_cycle"); [|constructor].
    apply Forall_app. split; destruct (_ >? 0); repeat constructor; cbn; lia.
  - rewrite bad_placeholder_check_quoted.
    induction (findall _ _) as [|bp bps IH]; cbn [map]; constructor;
      [cbn; lia|done].
  - unfold repeated_check. destruct (negb _); [|constructor].
    induction (findall word_pattern (masked line)) as [|w [|w' rest] IH];
      cbn [repeated_pairs]; try constructor.
    apply Forall_app. split; [|exact IH].
    destruct (_ && _); repeat constructor; cbn; lia.
Qed.

Lemma scan_lines_lines ft total l i lines :
  placed l i -> 1 <= i -> i + len lines = total + 1 ->
  Forall (fun x => 1 <= line_num x <= total)
    (snd (scan_lines ft total l i lines))
  /\ placed (fst (scan_lines ft total l i lines)) (total + 1).
Proof.
  revert l i. induction lines as [|raw rest IH]; intros l i Hp Hi Ht;
    cbn [scan_lines].
  { unfold len in Ht. cbn in Ht. replace (total + 1) with i by lia.
    split; [constructor|done]. }
  assert (i + 1 + len rest = total + 1) as Ht'.
  { unfold len in *. cbn [length] in Ht. lia. }
  assert (0 <= len rest) by (unfold len; lia).
  destruct (skipped (strip raw)).
  - apply IH; [|lia|done].
    destruct Hp as (H0 & H1 & H2 & H3). unfold placed. repeat split; auto; lia.
  - destruct (line_issues_lines ft total i (strip raw) l Hp Hi) as [Ha Hp'].
    destruct (line_issues ft total i (strip raw) l) as [l' added].
    cbn [fst snd] in *.
    destruct (IH l' (i + 1) Hp' ltac:(lia) Ht') as [Hm Hf].
    destruct (scan_lines ft total l' (i + 1) rest) as [l'' more].
    cbn [fst snd] in *. split; [|done].
    apply Forall_app. split; [|done].
    eapply Forall_impl; [exact Ha|]. intros x Hx. cbv beta in *. lia.
Qed.

Lemma check_word_line d custom i acc w' :
  Forall (fun m => word_line m = i) acc.2 ->
  Forall (fun m => word_line m = i) (check_word d custom i acc w').2.
Proof.
  destruct acc as [cache found]. cbn [snd]. intros H. unfold check_word.
  destruct (cache !! w') as [[|x xs]|]; cbn [snd]; [done| |].
  - apply Forall_app. split; [done|]. by repeat constructor.
  - destruct (bool_decide (w' ∈ custom)); [done|].
    destruct (negb (check d w')); cbn [snd]; [|done].
    apply Forall_app. split; [done|]. by repeat constructor.
Qed.

Lemma check_words_line d custom i ws acc :
  Forall (fun m => word_line m = i) acc.2 ->
  Forall (fun m => word_line m = i) (fold_left (check_word d custom i) ws acc).2.
Proof.
  revert acc. induction ws as [|w ws IH]; intros acc Hacc; [done|].
  cbn [fold_left]. apply IH. by apply check_word_line.
Qed.

Lemma spellcheck_line self cache i line :
  Forall (fun m => word_line m = i) (spellcheck self cache i line).2.
Proof.
  unfold spellcheck. destruct (spellchecker self) as [d|]; [|constructor].
  destruct (spellcheck_enabled self && _); [|constructor].
  apply check_words_line. constructor.
Qed.

Lemma loop_misspelled_lines self total st i lines :
  1 <= i -> i + len lines = total + 1 ->
  Forall (fun m => 1 <= word_line m <= total) (misspelled_words (report st)) ->
  Forall (fun m => 1 <= word_line m <= total)
    (misspelled_words (report (loop self total st i lines))).
Proof.
  revert st i. induction lines as [|raw rest IH]; intros st i Hi Ht Hf; [done|].
  cbn [loop].
  assert (i + 1 + len rest = total + 1) as Ht'.
  { unfold len in *. cbn [length] in Ht. lia. }
  assert (0 <= len rest) by (unfold len; lia).
  apply IH; [lia|done|].
  destruct (loop_body_misspelled self total st i raw) as [-> _].
  apply Forall_app. split; [done|].
  destruct (skipped (strip raw)); [constructor|].
  eapply Forall_impl; [apply spellcheck_line|]. intros m ->. lia.
Qed.

(** X12: every line number of a report is a line of the document: the
    issues lie between 1 and the number of lines (line 1 for a document
    without lines, which gets the issue of the missing Feature), and the
    misspellings between 1 and the number of lines. *)
Theorem reported_lines_within_document
    (self : GherkinChecker.t) (file : string) (lines : list string)
    (now : string) (checks : option (gmap string bool)) :
  let result := scan self file lines (TestReport.init now checks) in
  Forall (fun x => 1 <= line_num x <= Z.max 1 (len lines))
    (issues (report result))
  /\ Forall (fun m => 1 <= word_line m <= len lines)
       (misspelled_words (report result)).
Proof.
  intros result. unfold result. split.
  - rewrite scan_issues. cbn [issues TestReport.init app].
    assert (placed initial 1) as Hp.
    { unfold placed. cbn. repeat split; intros; try lia; done. }
    destruct (scan_lines_lines (GherkinChecker.feature_type self) (len lines)
                initial 1 lines Hp ltac:(lia) ltac:(lia)) as [Ha Hf].
    apply Forall_app. split.
    + eapply Forall_impl; [exact Ha|]. intros x Hx. cbv beta in *. lia.
    + destruct Hf as (H0 & H1 & _ & H3).
      assert (0 <= len (current_steps
                          (fst (scan_lines (GherkinChecker.feature_type self)
                                  (len lines) initial 1 lines))))
        by (unfold len; lia).
      unfold finish. apply Forall_app. split.
      * destruct (truthy_str _ && _) eqn:Et; [|constructor].
        apply andb_true_iff in Et as [Et _]. specialize (H3 Et).
        unfold success_criteria_check. apply Forall_app.
        split; destruct (negb _); repeat constructor; cbn; lia.
      * destruct (negb _); repeat constructor; cbn; lia.
  - rewrite scan_misspelled.
    apply loop_misspelled_lines; [lia|lia|constructor].
Qed.

(** ** Trimmed text and normalisation *)

Import App.

Lemma loop_trimmed self total st i lines lines' :
  map strip lines = map strip lines' ->
  loop self total st i lines = loop self total st i lines'.
Proof.
  revert lines' st i. induction lines as [|raw rest IH];
    intros [|raw' rest'] st i H; try done.
  cbn [map] in H. injection H as Hraw Hrest. cbn [loop].
  assert (loop_body self total st i raw = loop_body self total st i raw') as ->.
  { unfold loop_body. by rewrite Hraw. }
  by apply IH.
Qed.

Lemma scan_trimmed self file lines lines' rep :
  map strip lines = map strip lines' ->
  scan self file lines rep = scan self file lines' rep.
Proof.
  intros H. unfold scan.
  assert (len lines = len lines') as ->.
  { unfold len. f_equal. by rewrite <- (length_map strip lines), H, length_map. }
  by rewrite (loop_trimmed _ _ _ _ lines lines' H).
Qed.

(** X13: a scan reads a line through its trimmed text only: two documents
    whose lines agree once trimmed get the same report, and leave the same
    cache and locals. *)
Theorem scan_reads_trimmed_text
    (self : GherkinChecker.t) (file : string) (lines lines' : list string)
    (rep : TestReport.t) :
  map strip lines = map strip lines' ->
  scan self file lines rep = scan self file lines' rep.
Proof. apply scan_trimmed. Qed.

(** An instance: the same three lines, with and without indentation. *)
Lemma scan_reads_trimmed_text_witness :
  scan (plain_checker "success_criteria") "f"
    ["Feature: f"; "  Scenario: s  "; "      Given x"] fresh
  = scan (plain_checker "success_criteria") "f"
      ["Feature: f"; "Scenario: s"; "Given x"] fresh.
Proof.
  apply (scan_reads_trimmed_text (plain_checker "success_criteria") "f"
           ["Feature: f"; "  Scenario: s  "; "      Given x"]
           ["Feature: f"; "Scenario: s"; "Given x"] fresh).
  vm_compute. reflexivity.
Defined.

Lemma rstrip_empty_lstrip f s :
  rstrip_by f s = EmptyString <-> lstrip_by f s = EmptyString.
Proof.
  induction s as [|c r IH]; [done|]. cbn [rstrip_by lstrip_by].
  destruct (f c) eqn:Ef.
  - rewrite <- IH. by destruct (rstrip_by f r).
  - split; [|done]. by destruct (rstrip_by f r).
Qed.

Lemma lstrip_rstrip f s :
  lstrip_by f (rstrip_by f s) = rstrip_by f (lstrip_by f s).
Proof.
  induction s as [|c r IH]; [done|]. cbn [rstrip_by lstrip_by].
  destruct (f c) eqn:Ef.
  - rewrite <- IH. destruct (rstrip_by f r) as [|d r'] eqn:Er; [done|].
    cbn [lstrip_by]. by rewrite Ef.
  - cbn [rstrip_by].
    destruct (rstrip_by f r) as [|d r'] eqn:Er; cbn [lstrip_by];
      by rewrite Ef.
Qed.

Lemma rstrip_idem f s : rstrip_by f (rstrip_by f s) = rstrip_by f s.
Proof.
  induction s as [|c r IH]; [done|]. cbn [rstrip_by].
  destruct (rstrip_by f r) as [|d r'] eqn:Er.
  - destruct (f c) eqn:Ef; [done|]. cbn [rstrip_by]. by rewrite Ef.
  - cbn [rstrip_by] in *. rewrite IH. done.
Qed.

Lemma lstrip_idem f s : lstrip_by f (lstrip_by f s) = lstrip_by f s.
Proof.
  induction s as [|c r IH]; [done|]. cbn [lstrip_by].
  destruct (f c) eqn:Ef; [done|]. cbn [lstrip_by]. by rewrite Ef.
Qed.

Lemma lstrip_blanks n s :
  lstrip_by isspace (repeat_char " " n +:+ s) = lstrip_by isspace s.
Proof. induction n as [|n IH]; [done|]. cbn [repeat_char]. exact IH. Qed.

Lemma strip_idem s : strip (strip s) = strip s.
Proof.
  unfold strip, strip_by. by rewrite lstrip_rstrip, lstrip_idem, rstrip_idem.
Qed.

Lemma strip_indented n s : strip (repeat_char " " n +:+ strip s) = strip s.
Proof.
  unfold strip at 1. unfold strip_by. rewrite lstrip_blanks.
  fold (strip_by isspace (strip s)). fold (strip (strip s)). apply strip_idem.
Qed.

Lemma indent_of_range line k :
  In k [0%nat; 2%nat; 4%nat; 6%nat] ->
  In (indent_of line k) [0%nat; 2%nat; 4%nat; 6%nat].
Proof.
  intros Hk. unfold indent_of.
  repeat match goal with
         | |- context [if ?b then _ else _] => destruct b
         end; cbn; auto.
Qed.

Lemma normalize_lines_normalised k lines :
  In k [0%nat; 2%nat; 4%nat; 6%nat] ->
  Forall2 normalised lines (normalize_lines k lines).
Proof.
  revert k. induction lines as [|raw rest IH]; intros k Hk; [constructor|].
  cbn [normalize_lines].
  assert (lstrip_by isspace (rstrip_by isspace raw) = strip raw) as Hs.
  { unfold strip, strip_by. apply lstrip_rstrip. }
  destruct (rstrip_by isspace raw) as [|c r] eqn:Er.
  { constructor; [|by apply IH]. left. split; [|done].
    rewrite <- Hs. reflexivity. }
  rewrite Hs. destruct (strip raw) as [|c' r'] eqn:Es.
  { exfalso. rewrite <- Er in Hs. apply rstrip_empty_lstrip in Hs.
    rewrite rstrip_idem, Er in Hs. done. }
  constructor; [|apply IH; by apply indent_of_range].
  right. rewrite Es. split; [done|]. eexists. split; [|reflexivity].
  by apply indent_of_range.
Qed.

Lemma Forall2_normalised_trimmed lines outs :
  Forall2 normalised lines outs -> map strip outs = map strip lines.
Proof.
  induction 1 as [|raw out lines outs H _ IH]; [done|]. cbn [map].
  rewrite IH. f_equal.
  destruct H as [[-> ->]|[_ (k & _ & ->)]]; [done|apply strip_indented].
Qed.

(** X14: normalising the lines of a document keeps their number, and
    changes a line in its blanks only: a blank line becomes empty, any
    other becomes its trimmed text after 0, 2, 4 or 6 blanks.  The scan of
    the normalised lines therefore gives the report of the lines as they
    were. *)
Theorem normalisation_keeps_lines_and_report
    (lines : list string) (self : GherkinChecker.t) (file : string)
    (rep : TestReport.t) :
  Forall2 normalised lines (normalize_lines 0 lines)
  /\ length (normalize_lines 0 lines) = length lines
  /\ scan self file (normalize_lines 0 lines) rep = scan self file lines rep.
Proof.
  assert (Forall2 normalised lines (normalize_lines 0 lines)) as H.
  { apply normalize_lines_normalised. cbn. auto. }
  split; [exact H|]. split.
  - symmetry. by eapply Forall2_length.
  - apply scan_trimmed. by apply Forall2_normalised_trimmed.
Qed.

(** ** Issue keys and exported content *)

Lemma append_cons c (x y : string) : String c x +:+ y = String c (x +:+ y).
Proof. reflexivity. Qed.

Lemma append_nil_r (x : string) : x +:+ EmptyString = x.
Proof. induction x as [|c x IH]; [done|]. by rewrite append_cons, IH. Qed.

Lemma take_drop n s : take n s +:+ drop n s = s.
Proof.
  revert s. induction n as [|n IH]; intros [|c r]; try done.
  cbn [take drop]. by rewrite append_cons, IH.
Qed.

Lemma run_take f s : all_chars f (take (run f s) s) = true.
Proof.
  induction s as [|c r IH]; [done|]. cbn [run].
  destruct (f c) eqn:Ef; [|done]. cbn [take all_chars]. by rewrite Ef, IH.
Qed.

Lemma run_app f p rest :
  all_chars f p = true ->
  match rest with
  | EmptyString => True
  | String c _ => f c = false
  end ->
  run f (p +:+ rest) = String.length p.
Proof.
  intros Hp Hr. induction p as [|c p IH].
  - change (run f rest = 0%nat). destruct rest as [|c r]; [done|].
    cbn [run]. by rewrite Hr.
  - cbn [all_chars] in Hp. apply andb_true_iff in Hp as [Hc Hp].
    rewrite append_cons. cbn [run String.length]. by rewrite Hc, IH.
Qed.

Lemma take_run_nonempty f s n : run f s = S n -> take (S n) s <> EmptyString.
Proof. by destruct s. Qed.

Lemma append_assoc (a b c : string) : (a +:+ b) +:+ c = a +:+ (b +:+ c).
Proof. induction a as [|x a IH]; [done|]. by rewrite !append_cons, IH. Qed.

Lemma length_nonempty s : s <> EmptyString -> exists n, String.length s = S n.
Proof. destruct s as [|c r]; [done|]. intros _. by exists (String.length r). Qed.

Lemma issue_key_pattern_well_formed key :
  issue_key_pattern key = true <-> well_formed_key key.
Proof.
  unfold issue_key_pattern, well_formed_key. split.
  - destruct (run is_upper key) as [|n] eqn:En; [done|].
    destruct (drop (S n) key) as [|h r] eqn:Ed; [done|].
    destruct (Ascii.eqb_spec h "-") as [->|]; [|done].
    destruct (run is_digit r) as [|d] eqn:Edr; [done|].
    intros H. exists (take (S n) key), (take (S d) r).
    split; [by eapply take_run_nonempty|].
    split; [by eapply take_run_nonempty|].
    split; [rewrite <- En; apply run_take|].
    split; [rewrite <- Edr; apply run_take|].
    rewrite <- (take_drop (S n) key) at 1 3. rewrite Ed.
    rewrite <- (take_drop (S d) r) at 1 3.
    destruct (drop (S d) r) as [|c [|c' r']] eqn:Et; [|right|done].
    + left. by rewrite append_nil_r.
    + apply Ascii.eqb_eq in H. subst c. reflexivity.
  - intros (letters & digits & Hl & Hd & Hu & Hg & Hk).
    destruct (length_nonempty _ Hl) as [n Hn].
    destruct (length_nonempty _ Hd) as [d Hdn].
    assert (forall tail,
              match tail with
              | EmptyString => True
              | String c _ => is_digit c = false
              end ->
              run is_upper (letters +:+ "-" +:+ digits +:+ tail) = S n
              /\ drop (S n) (letters +:+ "-" +:+ digits +:+ tail)
                 = String "-" (digits +:+ tail)
              /\ run is_digit (digits +:+ tail) = S d
              /\ drop (S d) (digits +:+ tail) = tail) as Hrun.
    { intros tail Ht. rewrite <- Hn, <- Hdn. repeat split.
      - by apply run_app.
      - apply drop_length_app.
      - by apply run_app.
      - apply drop_length_app. }
    destruct Hk as [-> | ->].
    + destruct (Hrun EmptyString I) as (H1 & H2 & H3 & H4).
      rewrite append_nil_r in *. rewrite H1, H2. cbn [Ascii.eqb]. rewrite H3, H4.
      reflexivity.
    + destruct (Hrun NL) as (H1 & H2 & H3 & H4); [reflexivity|].
      rewrite H1, H2. rewrite H3, H4. reflexivity.
Qed.

(** X15: [validate_issue_key] accepts a key exactly when it is one or more
    capital letters, a hyphen and one or more digits, with nothing after
    them but, possibly, one newline; any other key raises a [ValueError]
    whose message quotes the key. *)
Theorem issue_key_accepted_iff_well_formed (key : string) :
  (validate_issue_key key = Return tt <-> well_formed_key key)
  /\ (validate_issue_key key = Return tt
      \/ validate_issue_key key
         = Raise (ValueError ("Invalid issue key format: " +:+ key
                              +:+ ". Expected format: PROJECT-123"))).
Proof.
  unfold validate_issue_key. split.
  - rewrite <- issue_key_pattern_well_formed.
    by destruct (issue_key_pattern key).
  - destruct (issue_key_pattern key); auto.
Qed.

Lemma lstrip_first f c r :
  f c = false -> lstrip_by f (String c r) = String c r.
Proof. intros Hc. cbn [lstrip_by]. by rewrite Hc. Qed.

Lemma startswith_rstrip f s p :
  all_chars (fun c => negb (f c)) p = true ->
  startswith s p = true ->
  startswith (rstrip_by f s) p = true.
Proof.
  revert s. induction p as [|a p IH]; intros s Hp Hs; [done|].
  cbn [all_chars] in Hp. apply andb_true_iff in Hp as [Ha Hp].
  apply negb_true_iff in Ha.
  destruct s as [|b s]; [done|]. cbn [startswith] in Hs.
  apply andb_true_iff in Hs as [Hb Hs].
  apply Ascii.eqb_eq in Hb. subst b.
  specialize (IH s Hp Hs). cbn [rstrip_by].
  destruct (rstrip_by f s) as [|d r'] eqn:Er.
  - rewrite Ha. cbn [startswith]. by rewrite Ascii.eqb_refl, IH.
  - cbn [startswith]. cbn [startswith] in IH. by rewrite Ascii.eqb_refl, IH.
Qed.

Lemma startswith_strip s p :
  p <> EmptyString ->
  all_chars (fun c => negb (isspace c)) p = true ->
  startswith s p = true ->
  startswith (strip s) p = true.
Proof.
  intros Hne Hp Hs. unfold strip, strip_by.
  destruct p as [|a p]; [done|]. destruct s as [|b s]; [done|].
  pose proof Hs as Hs'. cbn [startswith] in Hs'.
  apply andb_true_iff in Hs' as [Hb _]. apply Ascii.eqb_eq in Hb. subst b.
  pose proof Hp as Hp'. cbn [all_chars] in Hp'.
  apply andb_true_iff in Hp' as [Ha _]. apply negb_true_iff in Ha.
  rewrite <- lstrip_rstrip.
  pose proof (startswith_rstrip isspace _ _ Hp Hs) as Hr.
  destruct (rstrip_by isspace (String a s)) as [|b r] eqn:Er; [done|].
  pose proof Hr as Hr'. cbn [startswith] in Hr'.
  apply andb_true_iff in Hr' as [Hb _]. apply Ascii.eqb_eq in Hb. subst b.
  by rewrite lstrip_first.
Qed.

Lemma validate_feature content :
  startswith (strip content) "Feature" = true ->
  validate_gherkin_content content = Return tt.
Proof.
  intros H. unfold validate_gherkin_content, gherkin_keywords.
  cbn [existsb]. rewrite H. reflexivity.
Qed.

(** X16: when [export_to_cucumber] returns a content, the key is well
    formed, the issue was fetched and its field holds a text; the content
    is that text, or that text after the two default lines, it starts with
    Feature once trimmed, it passes [validate_gherkin_content] again, and
    it is never empty. *)
Theorem exported_content_starts_with_feature
    (issue_key : string) (fetch : fetch_outcome) (exported : string) :
  export_to_cucumber issue_key fetch = Return exported ->
  well_formed_key issue_key
  /\ (exists field,
        fetch = Fetched (Some field)
        /\ validate_gherkin_content field = Return tt
        /\ exported
           = if startswith (strip field) "Feature" then field
             else default_heading issue_key +:+ field)
  /\ startswith (strip exported) "Feature" = true
  /\ validate_gherkin_content exported = Return tt
  /\ exported <> EmptyString.
Proof.
  unfold export_to_cucumber, validate_issue_key.
  destruct (issue_key_pattern issue_key) eqn:Ek; [|done].
  apply issue_key_pattern_well_formed in Ek.
  change (Return tt ≫= ?k) with (k tt). cbv beta.
  destruct fetch as [[field|]|text|text|text]; try done.
  - destruct field as [|c r] eqn:Ef; [done|]. rewrite <- Ef. clear Ef c r.
    destruct (validate_gherkin_content field) as [[]|e] eqn:Ev; [|done].
    change (Return tt ≫= ?k) with (k tt). cbv beta.
    intros H.
    assert (exported = if startswith (strip field) "Feature" then field
                       else default_heading issue_key +:+ field) as Hx.
    { destruct (startswith (strip field) "Feature"); cbn [negb] in H.
      - congruence.
      - injection H as <-. unfold default_heading.
        by rewrite !append_assoc. }
    assert (startswith (strip exported) "Feature" = true) as Hs.
    { rewrite Hx. destruct (startswith (strip field) "Feature") eqn:Es; [done|].
      apply startswith_strip; [done|reflexivity|]. unfold default_heading.
      reflexivity. }
    split; [done|]. split; [by exists field|]. split; [done|].
    split; [by apply validate_feature|].
    intros ->. done.
  - by destruct (contains text no_permission).
Qed.

Lemma exported_content_starts_with_feature_witness :
  export_to_cucumber "AB-12" (Fetched (Some "Given a step"))
  = Return (default_heading "AB-12" +:+ "Given a step")
  /\ startswith (strip (default_heading "AB-12" +:+ "Given a step")) "Feature"
     = true.
Proof.
  split; [reflexivity|].
  apply (exported_content_starts_with_feature
           "AB-12" (Fetched (Some "Given a step"))).
  reflexivity.
Defined.

(** ** The keys of a download *)

Lemma all_chars_app g x y :
  all_chars g (x +:+ y) = all_chars g x && all_chars g y.
Proof.
  induction x as [|c x IH]; [done|].
  rewrite append_cons. cbn [all_chars]. by rewrite IH, andb_assoc.
Qed.

Lemma all_chars_lstrip g f s :
  all_chars g s = true -> all_chars g (lstrip_by f s) = true.
Proof.
  induction s as [|c r IH]; [done|]. intros H. cbn [lstrip_by].
  destruct (f c); [|done]. apply IH. cbn [all_chars] in H.
  by apply andb_true_iff in H as [_ H].
Qed.

Lemma all_chars_rstrip g f s :
  all_chars g s = true -> all_chars g (rstrip_by f s) = true.
Proof.
  induction s as [|c r IH]; [done|]. intros H. cbn [all_chars] in H.
  apply andb_true_iff in H as [Hc H]. specialize (IH H). cbn [rstrip_by].
  destruct (rstrip_by f r) as [|d r'].
  - destruct (f c); [done|]. cbn [all_chars]. by rewrite Hc.
  - cbn [all_chars] in *. by rewrite Hc, IH.
Qed.

Lemma split_pieces sep s :
  Forall (fun x => all_chars (fun c => negb (Ascii.eqb c sep)) x = true)
    (split sep s).
Proof.
  induction s as [|c r IH]; [by repeat constructor|]. cbn [split].
  destruct (Ascii.eqb c sep) eqn:Ec; [by constructor|].
  destruct (split sep r) as [|p ps].
  - repeat constructor. cbn [all_chars]. by rewrite Ec.
  - rewrite Forall_cons in IH. destruct IH as [Hp Hps].
    constructor; [|done]. cbn [all_chars]. by rewrite Ec, Hp.
Qed.

Lemma split_whole sep x :
  all_chars (fun c => negb (Ascii.eqb c sep)) x = true -> split sep x = [x].
Proof.
  induction x as [|c x IH]; [done|]. cbn [all_chars]. intros H.
  apply andb_true_iff in H as [Hc H]. apply negb_true_iff in Hc.
  cbn [split]. by rewrite Hc, IH.
Qed.

Lemma split_app sep x y :
  all_chars (fun c => negb (Ascii.eqb c sep)) x = true ->
  split sep (x +:+ String sep y) = x :: split sep y.
Proof.
  induction x as [|c x IH].
  - intros _. change (EmptyString +:+ ?z) with z. cbn [split].
    by rewrite Ascii.eqb_refl.
  - cbn [all_chars]. intros H.
    apply andb_true_iff in H as [Hc H]. apply negb_true_iff in Hc.
    rewrite append_cons. cbn [split]. by rewrite Hc, IH.
Qed.

Lemma strip_blanks n s : strip (repeat_char " " n +:+ s) = strip s.
Proof. unfold strip, strip_by. by rewrite lstrip_blanks. Qed.

Lemma blanks_not_comma n : all_chars not_comma (repeat_char " " n) = true.
Proof. induction n as [|n IH]; [done|]. cbn [repeat_char all_chars]. by rewrite IH. Qed.

Lemma split_issue_keys_join n keys :
  keys <> [] ->
  Forall clean_key keys ->
  split_issue_keys (repeat_char " " n +:+ join ", " keys) = keys.
Proof.
  revert n. induction keys as [|k rest IH]; intros n Hne Hk; [done|].
  rewrite Forall_cons in Hk. destruct Hk as [(Hk1 & Hk2 & Hk3) Hrest].
  assert (all_chars (fun c => negb (Ascii.eqb c ","))
            (repeat_char " " n +:+ k) = true) as Hc.
  { rewrite all_chars_app. apply andb_true_iff. split; [apply blanks_not_comma|done]. }
  assert (negb (String.eqb (strip (repeat_char " " n +:+ k)) EmptyString) = true)
    as Hn.
  { rewrite strip_blanks, Hk2. apply negb_true_iff. by apply String.eqb_neq. }
  unfold split_issue_keys. destruct rest as [|k' rest].
  - cbn [join]. rewrite (split_whole _ _ Hc). cbn [List.filter].
    rewrite Hn. cbn [map]. by rewrite strip_blanks, Hk2.
  - change (join ", " (k :: k' :: rest))
      with (k +:+ ", " +:+ join ", " (k' :: rest)).
    rewrite <- append_assoc.
    change (", " +:+ ?z) with (String "," (repeat_char " " 1 +:+ z)).
    rewrite (split_app _ _ _ Hc). cbn [List.filter]. rewrite Hn. cbn [map].
    rewrite strip_blanks, Hk2. f_equal. by apply (IH 1%nat).
Qed.

(** X17: the keys of a download, read from a text with commas, are clean:
    none is empty, none has a blank around it or a comma in it.  Clean keys
    written one after the other with a comma and a blank between them are
    read back as they were. *)
Theorem issue_keys_read_back (keys : list string) (typed : string) :
  Forall clean_key keys ->
  Forall clean_key (split_issue_keys typed)
  /\ split_issue_keys (join ", " keys) = keys.
Proof.
  intros Hk. split.
  - unfold split_issue_keys.
    pose proof (split_pieces "," typed) as Hp.
    induction (split "," typed) as [|x xs IH]; [constructor|].
    rewrite Forall_cons in Hp. destruct Hp as [Hx Hxs].
    cbn [List.filter]. destruct (String.eqb_spec (strip x) EmptyString) as [E|E];
      cbn [negb map]; [by apply IH|].
    constructor; [|by apply IH]. split; [done|]. split; [apply strip_idem|].
    unfold strip, strip_by. by apply all_chars_rstrip, all_chars_lstrip.
  - destruct keys as [|k rest]; [reflexivity|].
    change (join ", " (k :: rest))
      with (repeat_char " " 0 +:+ join ", " (k :: rest)).
    by apply split_issue_keys_join.
Qed.

Lemma issue_keys_read_back_witness :
  Forall clean_key (split_issue_keys " PETM-123 ,, PETM-456,")
  /\ split_issue_keys (join ", " ["PETM-123"; "PETM-456"])
     = ["PETM-123"; "PETM-456"].
Proof.
  apply (issue_keys_read_back ["PETM-123"; "PETM-456"] " PETM-123 ,, PETM-456,").
  repeat (apply List.Forall_cons;
            [split; [discriminate|split; vm_compute; reflexivity]|]).
  apply List.Forall_nil.
Defined.

(** ** The checks of a list of files *)


Lemma first_missing_complete checks :
  first_missing checks = None <-> complete checks.
Proof.
  unfold first_missing, complete. split.
  - intros H. apply List.Forall_forall. intros k Hk.
    pose proof (List.find_none _ _ H k Hk) as Hn. cbv beta in Hn.
    apply negb_false_iff in Hn. by apply bool_decide_eq_true in Hn.
  - intros H. destruct (find _ check_names) as [k|] eqn:E; [|done].
    apply List.find_some in E as [Hin Hk].
    rewrite List.Forall_forall in H. specialize (H k Hin).
    apply negb_true_iff in Hk. by apply bool_decide_eq_false in Hk.
Qed.







Lemma scan_cache_kept self file lines rep w v :
  spell_cache self !! w = Some v ->
  cache (scan self file lines rep) !! w = Some v.
Proof.
  unfold scan. cbn [cache].
  by apply (loop_cache self (len lines)
              (mkScan initial (spell_cache self)
                 (set_feature_type (GherkinChecker.feature_type self) rep))
              1 lines).
Qed.

Lemma add_issues_timestamp l r : timestamp (add_issues l r) = timestamp r.
Proof. revert r. induction l as [|i l IH]; intros r; simpl; [done|by rewrite IH]. Qed.

Lemma add_misspellings_timestamp l r :
  timestamp (add_misspellings l r) = timestamp r.
Proof. revert r. induction l as [|i l IH]; intros r; simpl; [done|by rewrite IH]. Qed.

Lemma loop_timestamp self total st i lines :
  timestamp (report (loop self total st i lines)) = timestamp (report st).
Proof.
  revert st i. induction lines as [|raw rest IH]; intros st i; [done|].
  cbn [loop]. rewrite IH. unfold loop_body.
  destruct (String.eqb (strip raw) EmptyString || startswith (strip raw) "#");
    [done|].
  destruct (line_issues _ total i (strip raw) (locals st)) as [l' added].
  destruct (spellcheck self (cache st) i (strip raw)) as [cache' missp].
  cbn [report].
  by rewrite add_misspellings_timestamp, add_issues_timestamp.
Qed.

Lemma scan_timestamp self file lines rep :
  timestamp (report (scan self file lines rep)) = timestamp rep.
Proof.
  unfold scan. cbn [report set_filename update_stats timestamp].
  by rewrite add_issues_timestamp, loop_timestamp.
Qed.

Lemma scan_filename self file lines rep :
  filename (report (scan self file lines rep)) = file.
Proof. reflexivity. Qed.

Lemma check_files_reports checker checks files :
  map filename (check_files checker checks files).2
  = map path (List.filter readable files)
  /\ map timestamp (check_files checker checks files).2
     = map clock (List.filter readable files)
  /\ Forall (fun r => enabled_checks r
                      = enabled_checks (TestReport.init EmptyString (Some checks)))
       (check_files checker checks files).2
  /\ (forall w v, spell_cache checker !! w = Some v ->
                  spell_cache (check_files checker checks files).1 !! w = Some v).
Proof.
  revert checker. induction files as [|f rest IH]; intros checker.
  { repeat split; [constructor|done]. }
  destruct f as [p c [lines|]]; cbn [check_files process_file path clock content].
  - match goal with
    | |- context [check_files ?c' checks rest] =>
        destruct (IH c') as (H1 & H2 & H3 & H4);
        destruct (check_files c' checks rest) as [c'' reports]
    end.
    cbn [fst snd readable content List.filter map] in *.
    rewrite H1, H2, scan_filename, scan_timestamp.
    split; [reflexivity|]. split; [reflexivity|]. split.
    + constructor; [|done]. by rewrite scan_enabled_checks.
    + intros w v Hw. apply H4. cbn [spell_cache]. by apply scan_cache_kept.
  - match goal with
    | |- context [check_files ?c' checks rest] =>
        destruct (IH c') as (H1 & H2 & H3 & H4);
        destruct (check_files c' checks rest) as [c'' reports]
    end.
    cbn [fst snd readable content List.filter map] in *. done.
Qed.









(** ** The objects of a session *)

Lemma set_at_write_set_ne r r' x h :
  r <> r' -> Session.set_at (Session.write_set r x h) r' = Session.set_at h r'.
Proof.
  intros H. unfold Session.set_at, Session.write_set. cbn [Session.sets].
  by rewrite list_lookup_insert_ne.
Qed.

Lemma set_at_write_set r x h :
  (r < length (Session.sets h))%nat ->
  Session.set_at (Session.write_set r x h) r = x.
Proof.
  intros H. unfold Session.set_at, Session.write_set. cbn [Session.sets].
  by rewrite list_lookup_insert_eq.
Qed.

Lemma dict_at_write_dict_ne r r' x h :
  r <> r' -> Session.dict_at (Session.write_dict r x h) r' = Session.dict_at h r'.
Proof.
  intros H. unfold Session.dict_at, Session.write_dict. cbn [Session.dicts].
  by rewrite list_lookup_insert_ne.
Qed.

Lemma dict_at_write_dict r x h :
  (r < length (Session.dicts h))%nat ->
  Session.dict_at (Session.write_dict r x h) r = x.
Proof.
  intros H. unfold Session.dict_at, Session.write_dict. cbn [Session.dicts].
  by rewrite list_lookup_insert_eq.
Qed.

Lemma init_words_apart enchant file : words_apart (Session.init enchant file).
Proof.
  unfold words_apart, Session.init.
  destruct file as [| |d]; cbn.
  all: unfold Session.dict_or_new, Session.set_or_new; cbn.
  all: repeat (case_decide; cbn); done.
Qed.

Lemma init_words_valid enchant file :
  (Session.custom_words (Session.init enchant file)
   < length (Session.sets (Session.objects (Session.init enchant file))))%nat.
Proof.
  unfold Session.init.
  destruct file as [| |d]; cbn.
  all: unfold Session.dict_or_new, Session.set_or_new; cbn.
  all: repeat (case_decide; cbn); lia.
Qed.

Lemma init_cache_apart enchant file :
  file = Session.NoCacheFile \/ file = Session.BrokenCacheFile
  \/ file = Session.CacheFile ∅ ->
  cache_apart (Session.init enchant file).
Proof.
  unfold cache_apart, Session.init.
  intros [-> | [-> | ->]]; cbn.
  all: unfold Session.dict_or_new, Session.set_or_new; cbn.
  all: repeat (case_decide; cbn); done.
Qed.

Lemma init_cache_shared enchant d :
  d <> ∅ -> cache_shared d (Session.init enchant (Session.CacheFile d)).
Proof.
  intros Hd. unfold cache_shared, Session.init. cbn.
  unfold Session.dict_or_new, Session.set_or_new; cbn.
  repeat (case_decide; cbn); try done.
  all: split; [done|]; split; [lia|done].
Qed.

Lemma step_refs e s :
  Session.spell_cache (Session.step e s).1 = Session.spell_cache s
  /\ Session.custom_words (Session.step e s).1 = Session.custom_words s
  /\ Session.checker_spell_cache (Session.step e s).1
     = Session.checker_spell_cache s
  /\ Session.checker_custom_words (Session.step e s).1
     = Session.checker_custom_words s
  /\ length (Session.sets (Session.objects (Session.step e s).1))
     = length (Session.sets (Session.objects s))
  /\ length (Session.dicts (Session.objects (Session.step e s).1))
     = length (Session.dicts (Session.objects s)).
Proof.
  destruct e as [[text|]|ft|switch|d|checks files]; cbn [Session.step fst];
    try done.
  - cbn. by rewrite length_insert.
  - unfold Session.update_spellcheck_language.
    by destruct (Session.spellcheck_enabled s), (Session.spellchecker s).
  - unfold Session.check_files.
    destruct (App.check_files (Session.checker s) checks files) as [c' reports].
    cbn. by rewrite length_insert.
Qed.

Lemma step_sets e s :
  Session.sets (Session.objects (Session.step e s).1)
  = match e with
    | Session.LoadCustomDictionary (Some text) =>
        <[Session.custom_words s :=
            Session.set_at (Session.objects s) (Session.custom_words s)
            ∪ Session.custom_entries text]> (Session.sets (Session.objects s))
    | _ => Session.sets (Session.objects s)
    end.
Proof.
  destruct e as [[text|]|ft|switch|d|checks files]; cbn [Session.step fst];
    try done.
  - unfold Session.update_spellcheck_language.
    by destruct (Session.spellcheck_enabled s), (Session.spellchecker s).
  - unfold Session.check_files.
    by destruct (App.check_files (Session.checker s) checks files) as [c' reports].
Qed.

Lemma step_words_apart e s : words_apart s -> words_apart (Session.step e s).1.
Proof.
  intros [Hne He]. unfold words_apart.
  destruct (step_refs e s) as (_ & -> & _ & -> & _). split; [done|].
  unfold Session.set_at in *. rewrite step_sets.
  destruct e as [[text|]|ft|switch|d|checks files]; try done.
  by rewrite list_lookup_insert_ne.
Qed.

Lemma checker_same s1 s2 :
  same_but_words s1 s2 -> Session.checker s1 = Session.checker s2.
Proof.
  intros (Hd & _ & Hc & Hs & Hf & He & [_ H1] & [_ H2]).
  unfold Session.checker. rewrite H1, H2, Hs, Hf, He. f_equal.
  unfold Session.dict_at. by rewrite Hd, Hc.
Qed.

Lemma step_same e s1 s2 :
  same_but_words s1 s2 ->
  same_but_words (Session.step e s1).1 (Session.step e s2).1
  /\ (Session.step e s1).2 = (Session.step e s2).2.
Proof.
  intros H. pose proof (checker_same _ _ H) as Hck.
  destruct H as (Hd & Hr & Hc & Hs & Hf & He & H1 & H2).
  pose proof (step_words_apart e _ H1) as H1'.
  pose proof (step_words_apart e _ H2) as H2'.
  unfold same_but_words.
  destruct e as [[text|]|ft|switch|d|checks files]; cbn [Session.step fst snd] in *.
  - split; [|done]. do 6 (split; [cbn; done|]). split; assumption.
  - split; [|done]. do 6 (split; [cbn; done|]). split; assumption.
  - split; [|done]. do 6 (split; [cbn; done|]). split; assumption.
  - split; [|done]. do 6 (split; [cbn; by rewrite ?Hs|]). split; assumption.
  - unfold Session.update_spellcheck_language in *.
    destruct (Session.spellcheck_enabled s1) eqn:E1,
             (Session.spellcheck_enabled s2) eqn:E2,
             (Session.spellchecker s1) eqn:E3,
             (Session.spellchecker s2) eqn:E4; try congruence;
      (split; [|done]); do 6 (split; [cbn; congruence|]); split; assumption.
  - unfold Session.check_files in *. rewrite <- Hck.
    destruct (App.check_files (Session.checker s1) checks files) as [c' reports].
    cbn [fst snd] in *. split; [|done].
    do 6 (split; [cbn; by rewrite ?Hd, ?Hc|]). split; assumption.
Qed.

Lemma run_same events s1 s2 :
  same_but_words s1 s2 ->
  (Session.run events s1).2 = (Session.run (List.filter not_load events) s2).2.
Proof.
  revert s1 s2. induction events as [|e rest IH]; intros s1 s2 H; [done|].
  cbn [Session.run List.filter].
  destruct (not_load e) eqn:En.
  - cbn [Session.run].
    destruct (step_same e _ _ H) as [Hs Hr].
    specialize (IH _ _ Hs).
    destruct (Session.step e s1) as [s1' r1].
    destruct (Session.step e s2) as [s2' r2]. cbn [fst snd] in *.
    destruct (Session.run rest s1') as [s1'' m1].
    destruct (Session.run (List.filter not_load rest) s2') as [s2'' m2].
    cbn [fst snd] in *. by rewrite Hr, IH.
  - destruct e as [content| | | |]; try done.
    assert (same_but_words
              (Session.step (Session.LoadCustomDictionary content) s1).1 s2)
      as Hs.
    { pose proof (step_words_apart (Session.LoadCustomDictionary content) s1)
        as Hw.
      destruct H as (Hd & Hr & Hc & Hsp & Hf & He & H1 & H2).
      unfold same_but_words. specialize (Hw H1).
      destruct content as [text|]; cbn [Session.step fst] in *;
        do 6 (split; [cbn; done|]); split; assumption. }
    specialize (IH _ _ Hs). cbn [Session.step fst] in *.
    destruct (Session.run rest (Session.load_custom_dictionary content s1))
      as [s1'' m1].
    cbn [fst snd] in *. done.
Qed.

Lemma same_refl s : words_apart s -> same_but_words s s.
Proof. intros H. do 6 (split; [done|]). split; assumption. Qed.

Lemma run_words_apart events s :
  words_apart s -> words_apart (Session.run events s).1.
Proof.
  revert s. induction events as [|e rest IH]; intros s H; [done|].
  cbn [Session.run]. pose proof (step_words_apart e s H) as Hs.
  specialize (IH _ Hs).
  destruct (Session.step e s) as [s' r]. cbn [fst] in *.
  by destruct (Session.run rest s') as [s'' m].
Qed.

Lemma step_words_grow e s :
  (Session.custom_words s < length (Session.sets (Session.objects s)))%nat ->
  Session.set_at (Session.objects s) (Session.custom_words s)
  ⊆ Session.set_at (Session.objects (Session.step e s).1)
      (Session.custom_words (Session.step e s).1)
  /\ forall text,
       e = Session.LoadCustomDictionary (Some text) ->
       Session.custom_entries text
       ⊆ Session.set_at (Session.objects (Session.step e s).1)
           (Session.custom_words (Session.step e s).1).
Proof.
  intros Hv. destruct (step_refs e s) as (_ & -> & _).
  unfold Session.set_at. rewrite step_sets.
  destruct e as [[text|]|ft|switch|d|checks files]; try (split; [done|]; done).
  rewrite list_lookup_insert_eq by done. cbn [default from_option id].
  split; [apply union_subseteq_l|]. intros text' [= <-].
  apply union_subseteq_r.
Qed.

Lemma run_words_grow events s :
  (Session.custom_words s < length (Session.sets (Session.objects s)))%nat ->
  Session.set_at (Session.objects s) (Session.custom_words s)
  ⊆ Session.set_at (Session.objects (Session.run events s).1)
      (Session.custom_words (Session.run events s).1)
  /\ forall text,
       In (Session.LoadCustomDictionary (Some text)) events ->
       Session.custom_entries text
       ⊆ Session.set_at (Session.objects (Session.run events s).1)
           (Session.custom_words (Session.run events s).1).
Proof.
  revert s. induction events as [|e rest IH]; intros s Hv; [done|].
  cbn [Session.run]. destruct (step_words_grow e s Hv) as [Hg Hl].
  destruct (step_refs e s) as (_ & Hr & _ & _ & Hlen & _).
  assert (Session.custom_words (Session.step e s).1
          < length (Session.sets (Session.objects (Session.step e s).1)))%nat
    as Hv' by (rewrite Hr, Hlen; exact Hv).
  specialize (IH _ Hv'). destruct IH as [IHg IHl].
  destruct (Session.step e s) as [s' r]. cbn [fst] in *.
  destruct (Session.run rest s') as [s'' m]. cbn [fst] in *.
  split; [by etrans|].
  intros text [->|Hin]; [|by apply IHl].
  specialize (Hl text eq_refl). by etrans.
Qed.

(** X20: the words of a custom dictionary never reach the checker.  The
    application starts with an empty set of custom words, in place of
    which the checker takes a set of its own; [load_custom_dictionary]
    adds the words to the set of the application.  So, whatever a session
    does, the set of the checker stays empty, and the reports of the
    session are those of the session without its loadings, while every
    word loaded lies in the set of the application. *)
Theorem custom_dictionary_never_reaches_checker
    (enchant_dict : option Dict) (file : Session.cache_file)
    (events : list Session.event) :
  let start := Session.init enchant_dict file in
  let s := (Session.run events start).1 in
  GherkinChecker.custom_words (Session.checker s) = ∅
  /\ (Session.run events start).2
     = (Session.run (List.filter not_load events) start).2
  /\ forall text,
       In (Session.LoadCustomDictionary (Some text)) events ->
       Session.custom_entries text
       ⊆ Session.set_at (Session.objects s) (Session.custom_words s).
Proof.
  intros start s. pose proof (init_words_apart enchant_dict file) as Hw.
  split; [|split].
  - by destruct (run_words_apart events _ Hw) as [_ H].
  - apply run_same. by apply same_refl.
  - apply run_words_grow. apply init_words_valid.
Qed.

Lemma step_dicts e s :
  Session.dicts (Session.objects (Session.step e s).1)
  = match e with
    | Session.CheckFiles checks files =>
        <[Session.checker_spell_cache s :=
            GherkinChecker.spell_cache
              (App.check_files (Session.checker s) checks files).1]>
          (Session.dicts (Session.objects s))
    | _ => Session.dicts (Session.objects s)
    end.
Proof.
  destruct e as [[text|]|ft|switch|d|checks files]; cbn [Session.step fst];
    try done.
  - unfold Session.update_spellcheck_language.
    by destruct (Session.spellcheck_enabled s), (Session.spellchecker s).
  - unfold Session.check_files.
    by destruct (App.check_files (Session.checker s) checks files) as [c' reports].
Qed.

Lemma step_cache_apart e s : cache_apart s -> cache_apart (Session.step e s).1.
Proof.
  intros [Hne He]. unfold cache_apart.
  destruct (step_refs e s) as (-> & _ & -> & _). split; [done|].
  unfold Session.dict_at in *. rewrite step_dicts.
  destruct e as [[text|]|ft|switch|d|checks files]; try done.
  rewrite list_lookup_insert_ne; done.
Qed.

Lemma step_cache_shared d e s :
  cache_shared d s -> cache_shared d (Session.step e s).1.
Proof.
  intros (Heq & Hv & Hd). unfold cache_shared.
  destruct (step_refs e s) as (-> & _ & -> & _ & _ & ->).
  split; [done|]. split; [done|].
  unfold Session.dict_at in *. rewrite step_dicts.
  destruct e as [[text|]|ft|switch|d'|checks files]; try done.
  rewrite <- Heq. rewrite list_lookup_insert_eq by done.
  cbn [default from_option id]. intros w v Hw.
  apply check_files_reports. cbn [GherkinChecker.spell_cache Session.checker].
  unfold Session.dict_at. rewrite <- Heq. by apply Hd.
Qed.

Lemma run_kept (P : Session.t -> Prop) events s :
  (forall e s, P s -> P (Session.step e s).1) ->
  P s -> P (Session.run events s).1.
Proof.
  intros Hstep. revert s. induction events as [|e rest IH]; intros s H; [done|].
  cbn [Session.run]. specialize (IH _ (Hstep e s H)).
  destruct (Session.step e s) as [s' r]. cbn [fst] in *.
  by destruct (Session.run rest s') as [s'' m].
Qed.

(** X21: what a session saves of its spell cache.  When the application
    starts without a cache file, with one it cannot read, or with an empty
    one, the checker takes a dict of its own in place of the empty dict of
    the application, and the scans write to that one: whatever the session
    checks, the dict saved at the end is empty.  When the file holds
    entries, the application and the checker share one dict: what is saved
    is the cache of the checker, with every entry of the file. *)
Theorem saved_cache_is_empty_or_shared
    (enchant_dict : option Dict) (file : Session.cache_file)
    (events : list Session.event) :
  let s := (Session.run events (Session.init enchant_dict file)).1 in
  (file = Session.NoCacheFile \/ file = Session.BrokenCacheFile
   \/ file = Session.CacheFile ∅ ->
   Session.save_spell_cache s = ∅)
  /\ (forall d,
        file = Session.CacheFile d -> d <> ∅ ->
        Session.save_spell_cache s
        = GherkinChecker.spell_cache (Session.checker s)
        /\ forall w v, d !! w = Some v ->
                       Session.save_spell_cache s !! w = Some v).
Proof.
  intros s. split.
  - intros Hf. pose proof (init_cache_apart enchant_dict file Hf) as Ha.
    apply (run_kept cache_apart events) in Ha; [|apply step_cache_apart].
    by destruct Ha as [_ Ha].
  - intros d -> Hd. pose proof (init_cache_shared enchant_dict d Hd) as Ha.
    apply (run_kept (cache_shared d) events) in Ha;
      [|intros e s'; apply step_cache_shared].
    destruct Ha as (Heq & _ & Ha). fold s in Heq, Ha.
    unfold Session.save_spell_cache.
    cbn [GherkinChecker.spell_cache Session.checker].
    split; [by rewrite Heq|exact Ha].
Qed.

(** ** Normalising a content twice *)

Lemma splitlines_pieces s : Forall (fun x => no_break x = true) (splitlines s).
Proof.
  assert (Forall (fun x => no_break x = true) (splitlines s)
          /\ forall c r, s = String c r ->
                         Forall (fun x => no_break x = true) (splitlines r))
    as [H _]; [|exact H].
  induction s as [|c r [IH1 IH2]]; [split; [constructor|done]|].
  split; [|by intros c' r' [= _ <-]].
  cbn [splitlines]. destruct (is_linebreak c) eqn:Ec.
  - constructor; [done|]. destruct (Ascii.eqb c CR); [|done].
    destruct r as [|c' r']; [constructor|].
    destruct (Ascii.eqb c' LF); [by eapply IH2|done].
  - destruct (splitlines r) as [|first others].
    + repeat constructor. unfold no_break. cbn [all_chars]. by rewrite Ec.
    + rewrite Forall_cons in IH1. destruct IH1 as [Hf Ho].
      constructor; [|done]. unfold no_break in *. cbn [all_chars].
      by rewrite Ec, Hf.
Qed.

Lemma splitlines_whole x :
  no_break x = true ->
  splitlines x = if String.eqb x EmptyString then [] else [x].
Proof.
  unfold no_break. induction x as [|c x IH]; [done|]. cbn [all_chars].
  intros H. apply andb_true_iff in H as [Hc H]. apply negb_true_iff in Hc.
  cbn [splitlines]. rewrite Hc, (IH H).
  change (String.eqb (String c x) EmptyString) with false. cbv iota.
  clear. by destruct x.
Qed.

Lemma splitlines_app x rest :
  no_break x = true ->
  splitlines (x +:+ NL +:+ rest) = x :: splitlines rest.
Proof.
  unfold no_break. induction x as [|c x IH].
  - intros _. reflexivity.
  - cbn [all_chars]. intros H.
    apply andb_true_iff in H as [Hc H]. apply negb_true_iff in Hc.
    rewrite append_cons. cbn [splitlines]. by rewrite Hc, (IH H).
Qed.

Lemma splitlines_join lines :
  Forall (fun x => no_break x = true) lines ->
  splitlines (join NL lines) = drop_empty_last lines.
Proof.
  induction lines as [|x rest IH]; [done|]. intros H.
  rewrite Forall_cons in H. destruct H as [Hx Hrest].
  destruct rest as [|y rest].
  - cbn [join drop_empty_last]. by apply splitlines_whole.
  - change (join NL (x :: y :: rest)) with (x +:+ NL +:+ join NL (y :: rest)).
    rewrite (splitlines_app _ _ Hx), (IH Hrest). reflexivity.
Qed.

Lemma blanks_no_break n : no_break (repeat_char " " n) = true.
Proof. induction n as [|n IH]; [done|]. exact IH. Qed.

Lemma normalize_lines_no_break k lines :
  Forall (fun x => no_break x = true) lines ->
  Forall (fun x => no_break x = true) (normalize_lines k lines).
Proof.
  revert k. induction lines as [|raw rest IH]; intros k H; [constructor|].
  rewrite Forall_cons in H. destruct H as [Hr Hrest].
  cbn [normalize_lines].
  destruct (rstrip_by isspace raw) as [|c r] eqn:Er.
  { constructor; [done|by apply IH]. }
  destruct (lstrip_by isspace (String c r)) as [|c' r'] eqn:El.
  { by apply IH. }
  constructor; [|by apply IH].
  unfold no_break. rewrite all_chars_app. apply andb_true_iff.
  split; [apply blanks_no_break|]. rewrite <- El, <- Er.
  by apply all_chars_lstrip, all_chars_rstrip.
Qed.

Lemma rstrip_app f x s :
  rstrip_by f s <> EmptyString ->
  rstrip_by f (x +:+ s) = x +:+ rstrip_by f s.
Proof.
  intros H. induction x as [|c x IH]; [done|].
  rewrite !append_cons. cbn [rstrip_by]. rewrite IH.
  destruct (x +:+ rstrip_by f s) as [|d r] eqn:E; [|done].
  exfalso. apply H. destruct x; [done|discriminate E].
Qed.

(** A line in its normal form is kept, and gives the same indentation to
    the lines that follow. *)
Lemma normalize_lines_head k raw :
  exists out k',
    (forall rest,
       normalize_lines k (raw :: rest) = out :: normalize_lines k' rest)
    /\ (forall rest,
          normalize_lines k (out :: rest) = out :: normalize_lines k' rest).
Proof.
  cbn [normalize_lines].
  assert (lstrip_by isspace (rstrip_by isspace raw) = strip raw) as Hs.
  { unfold strip, strip_by. apply lstrip_rstrip. }
  destruct (rstrip_by isspace raw) as [|c r] eqn:Er.
  { exists EmptyString, k. split; reflexivity. }
  rewrite Hs. destruct (strip raw) as [|c' r'] eqn:Es.
  { exfalso. rewrite <- Er in Hs. apply rstrip_empty_lstrip in Hs.
    rewrite rstrip_idem, Er in Hs. done. }
  exists (repeat_char " " (indent_of (String c' r') k) +:+ String c' r'),
         (indent_of (String c' r') k).
  split; [reflexivity|]. intros rest.
  assert (rstrip_by isspace (String c' r') = String c' r') as Hr.
  { rewrite <- Es. unfold strip, strip_by. apply rstrip_idem. }
  assert (lstrip_by isspace (String c' r') = String c' r') as Hl.
  { rewrite <- Es. unfold strip, strip_by.
    rewrite <- lstrip_rstrip. apply lstrip_idem. }
  rewrite rstrip_app by (rewrite Hr; done). rewrite Hr.
  destruct (repeat_char " " (indent_of (String c' r') k) +:+ String c' r')
    as [|d t] eqn:Ed.
  { exfalso. destruct (indent_of (String c' r') k); discriminate Ed. }
  rewrite <- Ed, lstrip_blanks, Hl. reflexivity.
Qed.

Lemma normalize_lines_idem k lines :
  normalize_lines k (normalize_lines k lines) = normalize_lines k lines.
Proof.
  revert k. induction lines as [|raw rest IH]; intros k; [done|].
  destruct (normalize_lines_head k raw) as (out & k' & H1 & H2).
  by rewrite H1, H2, IH.
Qed.

Lemma normalize_lines_drop k lines :
  normalize_lines k lines = lines ->
  normalize_lines k (drop_empty_last lines) = drop_empty_last lines.
Proof.
  revert k. induction lines as [|x rest IH]; intros k H; [done|].
  destruct (normalize_lines_head k x) as (out & k' & H1 & _).
  rewrite H1 in H. injection H as Hout Hrest. subst out.
  destruct rest as [|y rest].
  - cbn [drop_empty_last].
    destruct (String.eqb x EmptyString); [done|]. by rewrite H1.
  - change (drop_empty_last (x :: y :: rest))
      with (x :: drop_empty_last (y :: rest)).
    by rewrite H1, (IH _ Hrest).
Qed.

(** X22: normalising a normalised content takes away one empty last line
    and changes nothing else: a normalised content that does not end with
    an empty line is normalised to itself, and each line of a normalised
    content is in its normal form. *)
Theorem normalising_again_drops_an_empty_last_line (content : string) :
  let lines := normalize_lines 0 (splitlines content) in
  normalize_gherkin_content content = join NL lines
  /\ normalize_lines 0 lines = lines
  /\ normalize_gherkin_content (normalize_gherkin_content content)
     = join NL (drop_empty_last lines).
Proof.
  intros lines. split; [reflexivity|].
  pose proof (normalize_lines_idem 0 (splitlines content)) as Hi.
  fold lines in Hi. split; [exact Hi|].
  unfold normalize_gherkin_content. fold lines.
  rewrite splitlines_join.
  - by rewrite normalize_lines_drop.
  - apply normalize_lines_no_break, splitlines_pieces.
Qed.
